(** * ivcap-cli: credential lifecycle (cmd/login.go, cmd/root.go)

    A shallow embedding of the login / token-refresh code of the ivcap
    command line client, and the properties of it that the specification
    states.

    Conventions of the embedding
    - Go's [int64] and [time.Duration] are [Z] with the two's-complement
      wrap-around written out ([wrap64]).
    - [time.Time] is the wall-clock instant in nanoseconds, an unbounded [Z].
    - A Go [error] is its message.
    - The process environment (the configuration file, the network, the
      clock, the JWT library's verdict) is explicit: the persisted file and
      the log of performed effects are threaded as state, replies of the
      outside world are arguments.
    - [cobra.CheckErr] with a message terminates the process ([Exit]),
      [panic] and nil dereferences crash it ([Panic]). *)

From Stdlib Require Import ZArith Lia Ascii.
From stdpp Require Import base option list gmap strings pretty.

Set Warnings "-register-all".

(* ================================================================== *)
(** ** Machine integers, durations and instants *)

Module Int64.

Definition min_int : Z := (- 2 ^ 63)%Z.
Definition max_int : Z := (2 ^ 63 - 1)%Z.

Definition in_range (z : Z) : Prop := (min_int ≤ z ≤ max_int)%Z.

(** Two's-complement reduction into the int64 range. *)
Definition wrap64 (z : Z) : Z := ((z + 2 ^ 63) `mod` 2 ^ 64 - 2 ^ 63)%Z.

Definition add (a b : Z) : Z := wrap64 (a + b).
Definition sub (a b : Z) : Z := wrap64 (a - b).
Definition mul (a b : Z) : Z := wrap64 (a * b).
(** Go's integer division truncates toward zero. *)
Definition div (a b : Z) : Z := wrap64 (a ÷ b).

End Int64.

(** [time.Time], as nanoseconds on the wall clock. *)
Definition Time : Type := Z.
(** [time.Duration]: an int64 count of nanoseconds. *)
Definition Duration : Type := Z.

Definition Second : Duration := 1000000000%Z.

(** [t.After(u)] *)
Definition After (t u : Time) : bool := bool_decide (u < t)%Z.
(** [t.Add(d)] *)
Definition Add (t : Time) (d : Duration) : Time := (t + d)%Z.

(** A Go [error] value, identified with its message. *)
Definition error : Type := string.

(** The line feed, for the messages that end in one. *)
Definition LF : string := String (Ascii.ascii_of_nat 10) EmptyString.

(* ================================================================== *)
(** ** Data model *)

(** cmd/root.go: [Context] *)
Record Context : Type := mkContext {
  ApiVersion : Z;
  Name : string;
  URL : string;
  AccountID : string;
  ProviderID : string;
  Host : string;
  AccountName : string;
  AccountNickName : string;
  Email : string;
  AccessToken : string;
  AccessTokenExpiry : Time;
  RefreshToken : string;
}.

(** cmd/root.go: [Config] *)
Record Config : Type := mkConfig {
  Version : string;
  ActiveContext : string;
  Contexts : list Context;
}.

(** cmd/login.go: [AuthProvider] *)
Record AuthProvider : Type := mkAuthProvider {
  ID : string;
  LoginURL : string;
  TokenURL : string;
  CodeURL : string;
  JwksURL : string;
  ClientID : string;
  audience : string;
  scopes : string;
  grantType : string;
}.

(** cmd/login.go: [AuthInfo] *)
Record AuthInfo : Type := mkAuthInfo {
  ai_Version : string;
  DefaultProviderId : string;
  AuthProviders : gmap string AuthProvider;
}.

(** cmd/login.go: [DeviceCode] *)
Record DeviceCode : Type := mkDeviceCode {
  dc_DeviceCode : string;
  UserCode : string;
  VerificationURL : string;
  VerificationURLComplete : string;
  dc_ExpiresIn : Z;
  Interval : Z;
}.

(** cmd/login.go: [CustomIdClaims] (the registered claims are not read by
    the code and are left out). *)
Record CustomIdClaims : Type := mkClaims {
  cl_Name : string;
  cl_Nickname : string;
  cl_Email : string;
  cl_EmailVerified : bool;
  cl_Picture : string;
  cl_AccountID : string;
}.

(** The fields of [oauth2.Token] that the JSON decoder fills. *)
Record oauth2Token : Type := mkToken {
  tk_AccessToken : string;
  tk_TokenType : string;
  tk_RefreshToken : string;
}.

(** cmd/login.go: [deviceTokenResponse].  [*oauth2.Token] is an embedded
    pointer: it stays nil when the JSON document has none of its keys. *)
Record deviceTokenResponse : Type := mkTokenResponse {
  Token : option oauth2Token;
  IDToken : string;
  Scope : string;
  ExpiresIn : Z;
  ErrorString : string;
}.

(** Field updates of a [Context], as the code assigns them. *)
Definition set_AccessToken (v : string) (c : Context) : Context :=
  mkContext (ApiVersion c) (Name c) (URL c) (AccountID c) (ProviderID c) (Host c)
    (AccountName c) (AccountNickName c) (Email c)
    v (AccessTokenExpiry c) (RefreshToken c).

Definition set_AccessTokenExpiry (v : Time) (c : Context) : Context :=
  mkContext (ApiVersion c) (Name c) (URL c) (AccountID c) (ProviderID c) (Host c)
    (AccountName c) (AccountNickName c) (Email c)
    (AccessToken c) v (RefreshToken c).

Definition set_RefreshToken (v : string) (c : Context) : Context :=
  mkContext (ApiVersion c) (Name c) (URL c) (AccountID c) (ProviderID c) (Host c)
    (AccountName c) (AccountNickName c) (Email c)
    (AccessToken c) (AccessTokenExpiry c) v.

(** The four assignments of [ParseIDToken]. *)
Definition set_identity (claims : CustomIdClaims) (c : Context) : Context :=
  mkContext (ApiVersion c) (Name c) (URL c) (cl_AccountID claims) (ProviderID c) (Host c)
    (cl_Name claims) (cl_Nickname claims) (cl_Email claims)
    (AccessToken c) (AccessTokenExpiry c) (RefreshToken c).

Definition set_grantType (v : string) (p : AuthProvider) : AuthProvider :=
  mkAuthProvider (ID p) (LoginURL p) (TokenURL p) (CodeURL p) (JwksURL p) (ClientID p)
    (audience p) (scopes p) v.

Definition set_scopes (v : string) (p : AuthProvider) : AuthProvider :=
  mkAuthProvider (ID p) (LoginURL p) (TokenURL p) (CodeURL p) (JwksURL p) (ClientID p)
    (audience p) v (grantType p).

Definition set_audience (v : string) (p : AuthProvider) : AuthProvider :=
  mkAuthProvider (ID p) (LoginURL p) (TokenURL p) (CodeURL p) (JwksURL p) (ClientID p)
    v (scopes p) (grantType p).

Definition set_Interval (v : Z) (d : DeviceCode) : DeviceCode :=
  mkDeviceCode (dc_DeviceCode d) (UserCode d) (VerificationURL d)
    (VerificationURLComplete d) (dc_ExpiresIn d) v.

Definition set_Contexts (v : list Context) (c : Config) : Config :=
  mkConfig (Version c) (ActiveContext c) v.

Definition set_ActiveContext (v : string) (c : Config) : Config :=
  mkConfig (Version c) v (Contexts c).


(* ================================================================== *)
(** ** Effects: the persisted file, the effect log, process termination *)

(** What the code does to the outside world, in the order it does it. *)
Inductive Event : Type :=
| EvHttpGet (url : string)
| EvHttpPostForm (url : string) (form : list (string * string))
| EvJwksGet (url : string)
| EvSleep (d : Duration)
| EvPrint (text : string)
| EvPrintExpiry (t : Time)
| EvWarn (msg : string)
| EvWriteConfig (cfg : Config).

(** The events that reach the network. *)
Definition is_network (e : Event) : bool :=
  match e with
  | EvHttpGet _ | EvHttpPostForm _ _ | EvJwksGet _ => true
  | _ => false
  end.

Definition is_write (e : Event) : bool :=
  match e with
  | EvWriteConfig _ => true
  | _ => false
  end.

Definition network_calls (tr : list Event) : nat :=
  length (filter (λ e, is_network e = true) tr).

Definition config_writes (tr : list Event) : nat :=
  length (filter (λ e, is_write e = true) tr).

(** The configuration file as [ioutil.ReadFile] and [yaml.Unmarshal] see it:
    absent ([*os.PathError]), unreadable for another reason, not a
    rendering of a [Config], or [Stored cfg], the file that
    [yaml.Marshal] writes for [cfg] and [yaml.Unmarshal] reads back as
    [cfg]. *)
Inductive FileState : Type :=
| NoFile
| Unreadable (why : string)
| Unparsable (why : string)
| Stored (cfg : Config).

Record World : Type := mkWorld {
  configPath : string;
  file : FileState;
  trace : list Event;
}.

(** How a call ends.  [Running] is the poll loop still waiting when the
    scripted replies of the server are used up. *)
Inductive Outcome (A : Type) : Type :=
| Ret (a : A)
| Exit (msg : string)
| Panic
| Running.
Arguments Ret {A} a.
Arguments Exit {A} msg.
Arguments Panic {A}.
Arguments Running {A}.

Definition Cmd (A : Type) : Type := World → Outcome A * World.

Definition cmd_ret {A} (a : A) : Cmd A := λ w, (Ret a, w).

Definition cmd_bind {A B} (f : A → Cmd B) (c : Cmd A) : Cmd B :=
  λ w, match c w with
       | (Ret a, w') => f a w'
       | (Exit m, w') => (Exit m, w')
       | (Panic, w') => (Panic, w')
       | (Running, w') => (Running, w')
       end.

Notation "'let*' x ':=' c 'in' k" := (cmd_bind (λ x, k) c)
  (at level 10, x pattern, c at level 100, k at level 200, only parsing).
Notation "c ';;;' k" := (cmd_bind (λ _, k) c)
  (at level 100, k at level 200, right associativity, only parsing).

Definition emit (e : Event) : Cmd unit :=
  λ w, (Ret (), mkWorld (configPath w) (file w) (trace w ++ [e])).

(** [cobra.CheckErr(msg)] with a non-nil message: print it and [os.Exit(1)]. *)
Definition CheckErr {A} (msg : string) : Cmd A := λ w, (Exit msg, w).

Definition panic {A} : Cmd A := λ w, (Panic, w).

Definition running {A} : Cmd A := λ w, (Running, w).

(** A Go result pair (pointer, error) of which exactly one side is set. *)
Inductive Res (A : Type) : Type :=
| Ok (a : A)
| Err (e : error).
Arguments Ok {A} a.
Arguments Err {A} e.

(* ================================================================== *)
(** ** cmd/root.go: the configuration store *)

(** [GetConfigFilePath]: the path under the user's configuration
    directory, which is taken to exist. *)
Definition GetConfigFilePath : Cmd string := λ w, (Ret (configPath w), w).

(** [ReadConfigFile] *)
Definition ReadConfigFile (createIfNoConfig : bool) : Cmd (Config * string) :=
  let* configFile := GetConfigFilePath in
  λ w, match file w with
       | NoFile =>
           if createIfNoConfig
           then (Ret (mkConfig "v1" "" [], configFile), w)
           else CheckErr "Config file does not exist. Please create the config file with the context command." w
       | Unreadable why =>
           CheckErr ("Cannot read config file " +:+ configFile +:+ " - " +:+ why) w
       | Unparsable why =>
           CheckErr ("problems parsing config file " +:+ configFile +:+ " - " +:+ why) w
       | Stored cfg => (Ret (cfg, configFile), w)
       end.

(** [WriteConfigFile]: the write replaces the whole file by the rendering
    of [config]; it is taken to succeed. *)
Definition WriteConfigFile (config : Config) : Cmd unit :=
  λ w, (Ret (), mkWorld (configPath w) (Stored config) (trace w ++ [EvWriteConfig config])).

(** [GetContext]: the result is the copy [d] of the first entry of that
    name; a nil result is only reached through [cobra.CheckErr]. *)
Definition GetContext (name : string) (defaultToActiveContext : bool) : Cmd Context :=
  let* (config, configFile) := ReadConfigFile true in
  let name := if bool_decide (name = "") && defaultToActiveContext
              then ActiveContext config else name in
  if bool_decide (name = "")
  then CheckErr "Cannot find suitable context. Use '--context' or set default via 'context' command"
  else match list_find (λ d, Name d = name) (Contexts config) with
       | Some (_, d) => cmd_ret d
       | None => CheckErr ("unknown context '" +:+ name +:+ "' in config '" +:+ configFile +:+ "'")
       end.

(** [GetActiveContext]; [contextName] is the value of the [--context] flag. *)
Definition GetActiveContext (contextName : string) : Cmd Context :=
  GetContext contextName true.

(** [SetContext] *)
Definition SetContext (ctxt : Context) (failIfNotExist : bool) : Cmd unit :=
  let* (config, _) := ReadConfigFile true in
  let cxa := Contexts config in
  match list_find (λ c, Name c = Name ctxt) cxa with
  | Some (i, _) => WriteConfigFile (set_Contexts (<[i := ctxt]> cxa) config)
  | None =>
      if failIfNotExist
      then CheckErr ("attempting to set/update non existing context '" +:+ Name ctxt +:+ "'")
      else
        let config := set_Contexts (Contexts config ++ [ctxt]) config in
        let config := if bool_decide (length (Contexts config) = 1)
                      then set_ActiveContext (Name ctxt) config else config in
        WriteConfigFile config
  end.

(* ================================================================== *)
(** ** The discovery document *)

(** The value [yaml.Decoder.Decode] leaves in a [map[string]interface{}]:
    scalars by their resolved Go type, sequences, and mappings with string
    keys.  A float is kept as its text, which is all the code can observe. *)
Inductive goval : Type :=
| GNil
| GBool (b : bool)
| GInt (z : Z)
| GFloat (text : string)
| GString (s : string)
| GSlice (l : list goval)
| GMap (m : gmap string goval).

(** [v == true] for an interface value [v] ([None]: the key is absent, the
    lookup gives the nil interface). *)
Definition is_true (v : option goval) : bool :=
  match v with
  | Some (GBool true) => true
  | _ => false
  end.

(** [v == 1] for an interface value [v]: dynamic type [int] and value 1. *)
Definition is_int_one (v : goval) : bool :=
  match v with
  | GInt 1 => true
  | _ => false
  end.

(** *** [yaml.Marshal] followed by [yaml.Unmarshal] into the typed record

    Model of the library (gopkg.in/yaml.v3): a scalar read into a string
    field gives its text, null or a missing key leaves the zero value,
    unknown keys are skipped, and a sequence or mapping where a scalar is
    expected (or a scalar where a mapping is) is a type error, which makes
    [Unmarshal] return an error. *)
Definition decodeString (v : option goval) : option string :=
  match v with
  | None | Some GNil => Some ""
  | Some (GString s) => Some s
  | Some (GInt z) => Some (pretty z)
  | Some (GBool b) => Some (if b then "true" else "false")
  | Some (GFloat text) => Some text
  | Some (GSlice _) | Some (GMap _) => None
  end.

Definition zeroAuthProvider : AuthProvider :=
  mkAuthProvider "" "" "" "" "" "" "" "" "".

(** The unexported fields [audience], [scopes] and [grantType] are not
    decoded. *)
Definition decodeAuthProvider (v : goval) : option AuthProvider :=
  match v with
  | GNil => Some zeroAuthProvider
  | GMap m =>
      id ← decodeString (m !! "id");
      loginURL ← decodeString (m !! "login-url");
      tokenURL ← decodeString (m !! "token-url");
      codeURL ← decodeString (m !! "code-url");
      jwksURL ← decodeString (m !! "jwks-url");
      clientID ← decodeString (m !! "client-id");
      Some (mkAuthProvider id loginURL tokenURL codeURL jwksURL clientID "" "" "")
  | _ => None
  end.

Definition decodeAuthProviders (v : option goval) : option (gmap string AuthProvider) :=
  match v with
  | None | Some GNil => Some ∅
  | Some (GMap m) =>
      if decide (map_Forall (λ _ p, is_Some (decodeAuthProvider p)) m)
      then Some (omap decodeAuthProvider m)
      else None
  | Some _ => None
  end.

Definition decodeAuthInfo (v : option goval) : option AuthInfo :=
  match v with
  | None | Some GNil => Some (mkAuthInfo "" "" ∅)
  | Some (GMap m) =>
      version ← decodeString (m !! "version");
      defaultProviderId ← decodeString (m !! "default-provider-id");
      providers ← decodeAuthProviders (m !! "providers");
      Some (mkAuthInfo version defaultProviderId providers)
  | Some _ => None
  end.

(** What [http.Get] and the YAML decoder deliver: a transport error, or a
    response whose body decodes ([Some]) or does not ([None]). *)
Inductive GetReply : Type :=
| GetTransportError (why : string)
| GetBody (decoded : option (gmap string goval)).

(** [AuthInfo.GetDefaultProvider] *)
Definition GetDefaultProvider (authInfo : AuthInfo) : Res AuthProvider :=
  match AuthProviders authInfo !! DefaultProviderId authInfo with
  | Some defaultProvider => Ok defaultProvider
  | None => Err "Default Provider Id does not exist"
  end.

(** [getLoginInformation].  [ctxt] is a pointer ([None] is nil); [reply] is
    what the request to [ctxt.URL + "/1/authinfo.yaml"] is answered with.
    [yaml.Marshal] of a value that the decoder produced does not fail, so
    the branch on its error is left out; the error of [yaml.Unmarshal] is
    the [None] of [decodeAuthInfo].  The status of the response is not
    looked at by the code. *)
Definition getLoginInformation (ctxt : option Context) (reply : GetReply)
  : Cmd (Res AuthProvider) :=
  match ctxt with
  | None => cmd_ret (Err "Invalid config set. Please set a valid config with the config command.")
  | Some ctxt =>
    emit (EvPrint ("Sending Request to " +:+ URL ctxt +:+ LF)) ;;;
    emit (EvHttpGet (URL ctxt +:+ "/1/authinfo.yaml")) ;;;
    match reply with
    | GetTransportError why => cmd_ret (Err ("Cannot request login info - " +:+ why))
    | GetBody None => cmd_ret (Err "unknown response from Login Service")
    | GetBody (Some responseMap) =>
      if is_true (responseMap !! "fault")
      then
        emit (EvWarn ("Login Service Fault:" +:+ LF)) ;;;
        cmd_ret (Err "login service has returned a fault")
      else
        match responseMap !! "version" with
        | None =>
            emit (EvWarn ("Login Service provided No Version Info:" +:+ LF)) ;;;
            panic
        | Some versionNum =>
          if is_int_one versionNum
          then
            emit (EvPrint ("Correct Version" +:+ LF)) ;;;
            match decodeAuthInfo (responseMap !! "auth") with
            | None => cmd_ret (Err "could not process login service response (auth providers)")
            | Some authInfo =>
              if bool_decide (size (AuthProviders authInfo) ≠ 0)
              then
                match GetDefaultProvider authInfo with
                | Err _ => cmd_ret (Err "Login Service returned invalid data (No Default Provider)")
                | Ok defaultProvider => cmd_ret (Ok defaultProvider)
                end
              else cmd_ret (Err "Login Service returned invalid data (No Providers)")
            end
          else
            emit (EvWarn ("Login Service No Version:" +:+ LF)) ;;;
            cmd_ret (Err "client out of date: Please update this application")
        end
    end
  end.

(* ================================================================== *)
(** ** Identity token *)

(** The error of [jwt.ParseWithClaims], by the three [errors.Is] tests the
    code applies to it. *)
Record JwtError : Type := mkJwtError {
  jwt_text : string;
  isMalformed : bool;
  isExpired : bool;
  isNotValidYet : bool;
}.

(** The parsed token: its claims (the [CustomIdClaims] the code passed in,
    so the type assertion holds) and its [Valid] flag. *)
Record IdToken : Type := mkIdToken {
  Claims : CustomIdClaims;
  Valid : bool;
}.

(** What [keyfunc.Get] and [jwt.ParseWithClaims] deliver together: the
    code does not look at the error of the key fetch, whose failure shows
    only in the verdict of the parser. *)
Inductive ParseReply : Type :=
| ParseFailed (err : JwtError)
| Parsed (idToken : option IdToken).

(** [ParseIDToken]: returns the context as the assignments left it, and
    the error. *)
Definition ParseIDToken (reply : ParseReply) (tokenResponse : deviceTokenResponse)
    (ctxt : Context) (jwksURL : string) : Cmd (Context * option error) :=
  emit (EvJwksGet jwksURL) ;;;
  match reply with
  | ParseFailed err =>
      if isMalformed err
      then cmd_ret (ctxt, Some ("Malformed ID Token Received - " +:+ jwt_text err))
      else if isExpired err || isNotValidYet err
      then cmd_ret (ctxt, Some ("Expired ID Token Received - " +:+ jwt_text err))
      else cmd_ret (ctxt, Some ("Cannot verify ID token - " +:+ jwt_text err))
  | Parsed None => cmd_ret (ctxt, None)
  | Parsed (Some idToken) =>
      if Valid idToken
      then cmd_ret (set_identity (Claims idToken) ctxt, None)
      else cmd_ret (ctxt, None)
  end.

(* ================================================================== *)
(** ** Token endpoint *)

(** What [http.PostForm] and the JSON decoder deliver: a transport error,
    or a response with its status and the decoded body ([Err]: the body
    does not decode). *)
Inductive PostReply (A : Type) : Type :=
| PostTransportError (why : string)
| PostResponse (StatusCode : Z) (StatusText : string) (decoded : Res A).
Arguments PostTransportError {A} why.
Arguments PostResponse {A} StatusCode StatusText decoded.

Definition StatusOK : Z := 200.
Definition StatusForbidden : Z := 403.

(** [tokenResponse.AccessToken] and [tokenResponse.RefreshToken] go through
    the embedded pointer and crash when it is nil. *)
Definition field_of_Token {A} (f : oauth2Token → A) (tokenResponse : deviceTokenResponse)
  : Cmd A :=
  match Token tokenResponse with
  | Some t => cmd_ret (f t)
  | None => panic
  end.

(** [time.Second * time.Duration(expiresIn - 10)] *)
Definition expiryDuration (expiresIn : Z) : Duration :=
  Int64.mul Second (Int64.sub expiresIn 10).

(** The replies the outside world gives to one run of
    [refreshAccessToken]; each is asked for at most once. *)
Record RefreshEnv : Type := mkRefreshEnv {
  re_now : Time;
  re_discovery : GetReply;
  re_token : PostReply deviceTokenResponse;
  re_now_update : Time;
  re_idtoken : ParseReply;
}.

(** [refreshAccessToken] *)
Definition refreshAccessToken (contextName : string) (env : RefreshEnv)
  : Cmd (string * option error) :=
  let* ctxt := GetActiveContext contextName in
  let accessTokenExpiry := AccessTokenExpiry ctxt in
  if After (re_now env) accessTokenExpiry
  then
    if bool_decide (RefreshToken ctxt = "")
    then cmd_ret ("", Some "Could not login - invalid credentials. Please use the login command to refresh your credentials")
    else
      let* r := getLoginInformation (Some ctxt) (re_discovery env) in
      match r with
      | Err err => CheckErr ("Could not connect to " +:+ URL ctxt +:+ " - " +:+ err)
      | Ok authProvider =>
        let authProvider := set_grantType "refresh_token" authProvider in
        if bool_decide (TokenURL authProvider ≠ "") && bool_decide (ClientID authProvider ≠ "")
        then
          emit (EvHttpPostForm (TokenURL authProvider)
                  [("grant_type", grantType authProvider);
                   ("client_id", ClientID authProvider);
                   ("refresh_token", RefreshToken ctxt)]) ;;;
          match re_token env with
          | PostTransportError why =>
              cmd_ret ("", Some ("Cannot refresh access token - " +:+ why))
          | PostResponse _ _ (Err why) =>
              cmd_ret ("", Some ("Cannot decode token response - " +:+ why))
          | PostResponse _ _ (Ok tokenResponse) =>
              let code := ErrorString tokenResponse in
              if bool_decide (code = "authorization_pending")
              then cmd_ret (AccessToken ctxt, None)
              else if bool_decide (code = "expired_token")
              then cmd_ret ("", Some "The login process was not completed in time - please login again")
              else if bool_decide (code = "access_denied")
              then cmd_ret ("", Some "Could not login - access was denied")
              else if bool_decide (code = "invalid_grant")
              then cmd_ret ("", Some "Could not login - expired credentials. Please use the login command to refresh your credentials")
              else if bool_decide (code = "")
              then
                let* accessToken := field_of_Token tk_AccessToken tokenResponse in
                let ctxt := set_AccessToken accessToken ctxt in
                let ctxt := set_AccessTokenExpiry
                              (Add (re_now_update env) (expiryDuration (ExpiresIn tokenResponse)))
                              ctxt in
                let* (ctxt, _) := ParseIDToken (re_idtoken env) tokenResponse ctxt
                                    (JwksURL authProvider) in
                emit (EvPrintExpiry (AccessTokenExpiry ctxt)) ;;;
                SetContext ctxt true ;;;
                cmd_ret (AccessToken ctxt, None)
              else cmd_ret (AccessToken ctxt, None)
          end
        else cmd_ret (AccessToken ctxt, None)
      end
  else cmd_ret (AccessToken ctxt, None).

(* ================================================================== *)
(** ** Device authorization: code request and token polling *)

(** [requestDeviceCode] *)
Definition requestDeviceCode (authProvider : AuthProvider) (reply : PostReply DeviceCode)
  : Cmd (Res DeviceCode) :=
  emit (EvHttpPostForm (CodeURL authProvider)
          [("client_id", ClientID authProvider);
           ("scope", scopes authProvider);
           ("audience", audience authProvider)]) ;;;
  match reply with
  | PostTransportError why =>
      CheckErr ("Cannot request authentication device code - " +:+ why)
  | PostResponse StatusCode StatusText decoded =>
      if bool_decide (StatusCode ≠ StatusOK)
      then cmd_ret (Err ("HTTP Request Error: Device code request returned "
                         +:+ pretty StatusCode +:+ " (" +:+ StatusText +:+ ")"))
      else match decoded with
           | Err why => cmd_ret (Err why)
           | Ok deviceCode => cmd_ret (Ok deviceCode)
           end
  end.

(** One answer of the token endpoint during polling, with the reading of
    [int64(time.Since(startTime).Seconds())] taken after it. *)
Record PollReply : Type := mkPollReply {
  pr_post : PostReply deviceTokenResponse;
  pr_elapsed : Z;
}.

(** How one pass through the body of the [for] loop ends: at the bottom of
    the loop, with the device code and [lastElapsedTime] as they now are,
    or at a [return]. *)
Inductive Step : Type :=
| Continue (deviceCode : DeviceCode) (lastElapsedTime : Z)
| Return (result : Res deviceTokenResponse).

(** The request every pass sends. *)
Definition tokenRequest (authProvider : AuthProvider) (deviceCode : DeviceCode) : Event :=
  EvHttpPostForm (TokenURL authProvider)
    [("grant_type", grantType authProvider);
     ("client_id", ClientID authProvider);
     ("device_code", dc_DeviceCode deviceCode)].

(** The tail of the loop body: progress message, then the sleep. *)
Definition pollTail (deviceCode : DeviceCode) (lastElapsedTime elapsedTime : Z) : Cmd Step :=
  (if bool_decide (Int64.div elapsedTime 60 ≠ Int64.div lastElapsedTime 60)
   then emit (EvPrint ("Time remaining: "
                       +:+ pretty (Int64.sub (dc_ExpiresIn deviceCode) elapsedTime)
                       +:+ " seconds"))
   else cmd_ret ()) ;;;
  emit (EvSleep (Int64.mul (Interval deviceCode) Second)) ;;;
  cmd_ret (Continue deviceCode elapsedTime).

(** The body of the [for] loop of [waitForTokens]. *)
Definition pollIteration (authProvider : AuthProvider) (deviceCode : DeviceCode)
    (lastElapsedTime : Z) (reply : PollReply) : Cmd Step :=
  emit (tokenRequest authProvider deviceCode) ;;;
  match pr_post reply with
  | PostTransportError why =>
      cmd_ret (Return (Err ("Cannot request tokens - " +:+ why)))
  | PostResponse StatusCode StatusText decoded =>
      if bool_decide (StatusCode ≠ StatusOK) && bool_decide (StatusCode ≠ StatusForbidden)
      then cmd_ret (Return (Err ("HTTP Request Error: Token Request returned "
                                 +:+ pretty StatusCode +:+ " (" +:+ StatusText +:+ ")")))
      else
        match decoded with
        | Err why => cmd_ret (Return (Err ("Cannot decode token response - " +:+ why)))
        | Ok tokenResponse =>
            let code := ErrorString tokenResponse in
            if bool_decide (code = "authorization_pending")
            then pollTail deviceCode lastElapsedTime (pr_elapsed reply)
            else if bool_decide (code = "slow_down")
            then pollTail (set_Interval (Int64.mul (Interval deviceCode) 2) deviceCode)
                          lastElapsedTime (pr_elapsed reply)
            else if bool_decide (code = "expired_token")
            then cmd_ret (Return (Err "The login process was not completed in time - please login again"))
            else if bool_decide (code = "access_denied")
            then cmd_ret (Return (Err "Could not login - access was denied"))
            else if bool_decide (code = "invalid_grant")
            then cmd_ret (Return (Err "Could not login - invalid credentials"))
            else if bool_decide (code = "")
            then cmd_ret (Return (Ok tokenResponse))
            else pollTail deviceCode lastElapsedTime (pr_elapsed reply)
        end
  end.

(** The loop, over the successive answers of the server. *)
Fixpoint pollLoop (authProvider : AuthProvider) (deviceCode : DeviceCode)
    (lastElapsedTime : Z) (replies : list PollReply) : Cmd (Res deviceTokenResponse) :=
  match replies with
  | [] => running
  | reply :: replies =>
      let* step := pollIteration authProvider deviceCode lastElapsedTime reply in
      match step with
      | Continue deviceCode lastElapsedTime =>
          pollLoop authProvider deviceCode lastElapsedTime replies
      | Return result => cmd_ret result
      end
  end.

(** [waitForTokens] *)
Definition waitForTokens (authProvider : AuthProvider) (deviceCode : DeviceCode)
    (replies : list PollReply) : Cmd (Res deviceTokenResponse) :=
  let lastElapsedTime := 0%Z in
  pollLoop authProvider deviceCode lastElapsedTime replies.

(* ================================================================== *)
(** ** The login command *)

(** The replies the outside world gives to one run of [login].  [le_qr] is
    the rendering of the QR code, [None] when [qrcode.New] fails (its
    error is not looked at and the nil result is used). *)
Record LoginEnv : Type := mkLoginEnv {
  le_discovery : GetReply;
  le_device : PostReply DeviceCode;
  le_qr : option string;
  le_polls : list PollReply;
  le_idtoken : ParseReply;
  le_now : Time;
}.

(** [login] *)
Definition login (contextName : string) (env : LoginEnv) : Cmd unit :=
  let* ctxt := GetActiveContext contextName in
  let* r := getLoginInformation (Some ctxt) (le_discovery env) in
  match r with
  | Err err => CheckErr ("Could not connect to " +:+ URL ctxt +:+ " to login - " +:+ err)
  | Ok authProvider =>
    let authProvider := set_scopes "openid profile email offline_access" authProvider in
    let authProvider := set_grantType "urn:ietf:params:oauth:grant-type:device_code" authProvider in
    let authProvider := set_audience "https://api.ivcap.net/" authProvider in
    let* r := requestDeviceCode authProvider (le_device env) in
    match r with
    | Err err => CheckErr ("Cannot request authentication device code - " +:+ err)
    | Ok deviceCode =>
      let* qrCodeStrings := match le_qr env with
                            | Some s => cmd_ret s
                            | None => panic
                            end in
      emit (EvPrint qrCodeStrings) ;;;
      emit (EvPrint ("    LOGIN CODE:  " +:+ UserCode deviceCode)) ;;;
      emit (EvPrint "") ;;;
      emit (EvPrint "") ;;;
      emit (EvPrint ("To login to the IVCAP Service, please go to:  "
                     +:+ VerificationURLComplete deviceCode)) ;;;
      emit (EvPrint "or scan the QR Code to be taken to the login page") ;;;
      emit (EvPrint "Waiting for authorisation...") ;;;
      let* r := waitForTokens authProvider deviceCode (le_polls env) in
      match r with
      | Err err => CheckErr ("Cannot request authorisation tokens - " +:+ err)
      | Ok tokenResponse =>
        emit (EvPrint "Command Line Tool Authorised.") ;;;
        let* (ctxt, err) := ParseIDToken (le_idtoken env) tokenResponse ctxt
                              (JwksURL authProvider) in
        match err with
        | Some err => CheckErr ("Cannot parse identity information - " +:+ err)
        | None =>
          let* accessToken := field_of_Token tk_AccessToken tokenResponse in
          let ctxt := set_AccessToken accessToken ctxt in
          let ctxt := set_AccessTokenExpiry
                        (Add (le_now env) (expiryDuration (ExpiresIn tokenResponse))) ctxt in
          let* refreshToken := field_of_Token tk_RefreshToken tokenResponse in
          let ctxt := set_RefreshToken refreshToken ctxt in
          SetContext ctxt true
        end
      end
    end
  end.

(* ================================================================== *)
(** ** Vocabulary of the statements *)

(** The world after the events [evs] are logged; the file is untouched. *)
Definition logged (evs : list Event) (w : World) : World :=
  mkWorld (configPath w) (file w) (trace w ++ evs).

(** The world after the events [evs], the last of which wrote [cfg]. *)
Definition stored (cfg : Config) (evs : list Event) (w : World) : World :=
  mkWorld (configPath w) (Stored cfg) (trace w ++ evs).

(** What [ParseIDToken] leaves in the context, and the error it returns,
    for each verdict on the identity token. *)
Definition claimsApplied (reply : ParseReply) (c : Context) : Context :=
  match reply with
  | Parsed (Some idToken) => if Valid idToken then set_identity (Claims idToken) c else c
  | _ => c
  end.

Definition idTokenError (reply : ParseReply) : option error :=
  match reply with
  | ParseFailed err =>
      Some (if isMalformed err then "Malformed ID Token Received - " +:+ jwt_text err
            else if isExpired err || isNotValidYet err
                 then "Expired ID Token Received - " +:+ jwt_text err
                 else "Cannot verify ID token - " +:+ jwt_text err)
  | Parsed _ => None
  end.

(** The provider as [login] sets it up for the device flow. *)
Definition deviceFlow (p : AuthProvider) : AuthProvider :=
  set_audience "https://api.ivcap.net/"
    (set_grantType "urn:ietf:params:oauth:grant-type:device_code"
       (set_scopes "openid profile email offline_access" p)).

(** The request of [refreshAccessToken] to the token endpoint. *)
Definition refreshRequest (p : AuthProvider) (ctxt : Context) : Event :=
  EvHttpPostForm (TokenURL p)
    [("grant_type", "refresh_token");
     ("client_id", ClientID p);
     ("refresh_token", RefreshToken ctxt)].

(** The events of a discovery that answers with a version-1 document. *)
Definition discoveryEvents (ctxt : Context) : list Event :=
  [EvPrint ("Sending Request to " +:+ URL ctxt +:+ LF);
   EvHttpGet (URL ctxt +:+ "/1/authinfo.yaml");
   EvPrint ("Correct Version" +:+ LF)].

(** The events of the tail of one pass through the poll loop. *)
Definition tailEvents (deviceCode : DeviceCode) (lastElapsedTime elapsedTime : Z)
  : list Event :=
  (if bool_decide (Int64.div elapsedTime 60 ≠ Int64.div lastElapsedTime 60)
   then [EvPrint ("Time remaining: "
                  +:+ pretty (Int64.sub (dc_ExpiresIn deviceCode) elapsedTime)
                  +:+ " seconds")]
   else [])
  ++ [EvSleep (Int64.mul (Interval deviceCode) Second)].

(** The request of [requestDeviceCode]. *)
Definition deviceCodeRequest (p : AuthProvider) : Event :=
  EvHttpPostForm (CodeURL p)
    [("client_id", ClientID p); ("scope", scopes p); ("audience", audience p)].

(** What [login] prints between the device code and the polling. *)
Definition loginPrompt (qr : string) (deviceCode : DeviceCode) : list Event :=
  [EvPrint qr;
   EvPrint ("    LOGIN CODE:  " +:+ UserCode deviceCode);
   EvPrint "";
   EvPrint "";
   EvPrint ("To login to the IVCAP Service, please go to:  "
            +:+ VerificationURLComplete deviceCode);
   EvPrint "or scan the QR Code to be taken to the login page";
   EvPrint "Waiting for authorisation..."].

(** The range of [expires_in] on which [(expires_in - 10)] seconds is a
    [time.Duration], and that of an interval whose double is an [int64]. *)
Definition expiry_representable (expiresIn : Z) : Prop :=
  (-9223372026 ≤ expiresIn ≤ 9223372046)%Z.

Definition doubling_representable (interval : Z) : Prop :=
  (- 2 ^ 62 ≤ interval < 2 ^ 62)%Z.

(* ================================================================== *)
(** ** Sample data

    A configuration with two contexts, a version-1 discovery document
    with one provider [p1], and the replies used in the scenarios below. *)

Module Sample.

Definition prod : Context :=
  mkContext 1 "prod" "https://prod.example.org" "acc-prod" "" ""
    "Pat" "pat" "pat@example.org" "AT-prod" 5000%Z "RT-prod".

Definition dev : Context :=
  mkContext 1 "dev" "https://dev.example.org" "acc-dev" "" ""
    "Dee" "dee" "dee@example.org" "AT0" 1000%Z "RT0".

Definition config : Config := mkConfig "v1" "dev" [prod; dev].

Definition world : World := mkWorld "config.yaml" (Stored config) [].

Definition p1 : goval :=
  GMap (<["id" := GString "p1"]>
       (<["login-url" := GString "https://idp.example.org/login"]>
       (<["token-url" := GString "https://idp.example.org/oauth/token"]>
       (<["code-url" := GString "https://idp.example.org/oauth/device/code"]>
       (<["jwks-url" := GString "https://idp.example.org/jwks.json"]>
       (<["client-id" := GString "cli"]> ∅)))))).

Definition auth : goval :=
  GMap (<["default-provider-id" := GString "p1"]>
       (<["providers" := GMap (<["p1" := p1]> ∅)]> ∅)).

(** [{version: 1, auth: {default-provider-id: p1, providers: {p1: ...}}}] *)
Definition document : gmap string goval :=
  <["version" := GInt 1]> (<["auth" := auth]> ∅).

Definition provider : AuthProvider :=
  mkAuthProvider "p1" "https://idp.example.org/login"
    "https://idp.example.org/oauth/token"
    "https://idp.example.org/oauth/device/code"
    "https://idp.example.org/jwks.json" "cli" "" "" "".

(** The same document, but the provider has no token URL. *)
Definition document_no_token_url : gmap string goval :=
  <["version" := GInt 1]>
    (<["auth" := GMap (<["default-provider-id" := GString "p1"]>
                      (<["providers" := GMap (<["p1" := GMap (<["client-id" := GString "cli"]> ∅)]> ∅)]> ∅))]> ∅).

(** [{version: 2}] and the document without any version. *)
Definition document_v2 : gmap string goval := <["version" := GInt 2]> ∅.
Definition document_unversioned : gmap string goval := <["auth" := auth]> ∅.

Definition tokens (expiresIn : Z) : deviceTokenResponse :=
  mkTokenResponse (Some (mkToken "AT1" "Bearer" "RT1")) "header.claims.sig" "openid"
    expiresIn "".

Definition failure (code : string) : deviceTokenResponse :=
  mkTokenResponse None "" "" 0%Z code.

Definition badSignature : JwtError := mkJwtError "signature is invalid" false false false.

Definition refreshEnv (now : Time) (tokenResponse : deviceTokenResponse) : RefreshEnv :=
  mkRefreshEnv now (GetBody (Some document))
    (PostResponse StatusOK "OK" (Ok tokenResponse)) now (ParseFailed badSignature).

Definition deviceCode (interval : Z) : DeviceCode :=
  mkDeviceCode "DC" "ABCD-EFGH" "https://idp.example.org/activate"
    "https://idp.example.org/activate?user_code=ABCD-EFGH" 900%Z interval.

Definition answer (code : string) (elapsed : Z) : PollReply :=
  mkPollReply (PostResponse StatusForbidden "Forbidden" (Ok (failure code))) elapsed.

Definition granted (expiresIn elapsed : Z) : PollReply :=
  mkPollReply (PostResponse StatusOK "OK" (Ok (tokens expiresIn))) elapsed.

Definition loginEnv (now : Time) (polls : list PollReply) (idtoken : ParseReply) : LoginEnv :=
  mkLoginEnv (GetBody (Some document))
    (PostResponse StatusOK "OK" (Ok (deviceCode 5%Z)))
    (Some "[QR]") polls idtoken now.

Definition claims : CustomIdClaims :=
  mkClaims "Dee Dev" "deedev" "dee.dev@example.org" true "" "acc-dev".

End Sample.

(* ================================================================== *)
(** ** Go strings

    The string functions of the standard library that the remaining code
    uses, on byte strings.  The separator of [Cut] and [Split] is a single
    byte, as everywhere in the code. *)

(** [strings.HasPrefix(s, prefix)] *)
Definition HasPrefix (s prefix : string) : bool := String.prefix prefix s.

(** [s[n:]], for [n <= len(s)] *)
Fixpoint sliceFrom (n : nat) (s : string) : string :=
  match n, s with
  | O, _ => s
  | S n, String _ s => sliceFrom n s
  | S _, EmptyString => EmptyString
  end.

(** [s[0:n]], for [n <= len(s)] *)
Fixpoint sliceTo (n : nat) (s : string) : string :=
  match n, s with
  | O, _ => EmptyString
  | S n, String c s => String c (sliceTo n s)
  | S _, EmptyString => EmptyString
  end.

(** [strings.TrimPrefix(s, prefix)] *)
Definition TrimPrefix (s prefix : string) : string :=
  if HasPrefix s prefix then sliceFrom (String.length prefix) s else s.

(** The text before and after the first [sep] of [s], if there is one. *)
Fixpoint Cut (sep : Ascii.ascii) (s : string) : option (string * string) :=
  match s with
  | EmptyString => None
  | String c s =>
      if bool_decide (c = sep) then Some (EmptyString, s)
      else match Cut sep s with
           | Some (before, after) => Some (String c before, after)
           | None => None
           end
  end.

(** [strings.SplitN(s, sep, 2)] *)
Definition SplitN2 (sep : Ascii.ascii) (s : string) : list string :=
  match Cut sep s with
  | Some (before, after) => [before; after]
  | None => [s]
  end.

(** [strings.Split(s, sep)]: never empty. *)
Fixpoint Split (sep : Ascii.ascii) (s : string) : list string :=
  match s with
  | EmptyString => [EmptyString]
  | String c s =>
      if bool_decide (c = sep) then EmptyString :: Split sep s
      else match Split sep s with
           | x :: xs => String c x :: xs
           | [] => [String c EmptyString]
           end
  end.

(* ================================================================== *)
(** ** cmd/root.go: history of identifiers *)

(** [fmt.Sprintf("@%d", n)] *)
Definition historyToken (n : nat) : string := "@" +:+ pretty n.

(** The package variable [history]: [None] is the nil map. *)
Definition History : Type := option (gmap string string).

(** [len(history)] *)
Definition historyLen (history : History) : nat :=
  match history with
  | Some m => size m
  | None => 0
  end.

(** [history[token] = urn], after [make] if the map is nil *)
Definition historyPut (token urn : string) (history : History) : History :=
  match history with
  | Some m => Some (<[token := urn]> m)
  | None => Some {[ token := urn ]}
  end.

(** [MakeHistory]; [urn] is a pointer.  Returns the token and the
    variable [history] as the call leaves it. *)
Definition MakeHistory (urn : option string) (history : History) : string * History :=
  match urn with
  | None => ("???", history)
  | Some urn =>
      let token := historyToken (historyLen history + 1) in
      (token, historyPut token urn history)
  end.

(** [MakeMaybeHistory] *)
Definition MakeMaybeHistory (sp : option string) (history : History) : string * History :=
  match sp with
  | None => ("???", history)
  | Some s =>
      let s := if HasPrefix s "http://artifact.local/"
               then sliceFrom (String.length "http://artifact.local/") s else s in
      if negb (HasPrefix s "urn:ivcap:") then (s, history)
      else
        let token := historyToken (historyLen history + 1) in
        (token +:+ " (" +:+ s +:+ ")", historyPut token s history)
  end.

(** The history file as [ioutil.ReadFile] and [yaml.Unmarshal] see it;
    [HStored m] is the file that [yaml.Marshal] writes for the map [m]. *)
Inductive HistoryFile : Type :=
| HNoFile
| HUnreadable
| HUnparsable (why : string)
| HStored (m : gmap string string).

(** [GetHistory]; [path] is the path of the history file. *)
Definition GetHistory (path : string) (token : string) (hf : HistoryFile) : Outcome string :=
  if negb (HasPrefix token "@") then Ret token
  else
    match hf with
    | HStored hm =>
        match hm !! token with
        | Some val => Ret val
        | None => Exit ("Unknown history '" +:+ token +:+ "'.")
        end
    | HUnparsable why =>
        Exit ("problems parsing history file " +:+ path +:+ " - " +:+ why)
    | HNoFile => Exit ("Unknown history '" +:+ token +:+ "'.")
    | HUnreadable => Exit "Error reading history file. Use full names instead."
    end.

(** [saveHistory]: the file after the call (the write is taken to
    succeed).  A nil history leaves the file alone. *)
Definition saveHistory (history : History) (hf : HistoryFile) : HistoryFile :=
  match history with
  | None => hf
  | Some m => HStored m
  end.

(* ================================================================== *)
(** ** cmd/root.go: printing helpers *)

Definition MAX_NAME_COL_LEN : nat := 30.

(** [safeString] *)
Definition safeString (s : option string) : string :=
  match s with
  | Some s => s
  | None => "???"
  end.

(** [safeTruncString] *)
Definition safeTruncString (input : option string) : string :=
  let out := match input with
             | Some s => s
             | None => "???"
             end in
  if bool_decide (MAX_NAME_COL_LEN < String.length out)
  then sliceTo (MAX_NAME_COL_LEN - 3) out +:+ "..."
  else out.

(** [safeNumber], on a platform whose [int] has 64 bits. *)
Definition safeNumber (n : option Z) : string :=
  match n with
  | Some n => if bool_decide (n ≤ 0)%Z then "unknown" else pretty n
  | None => "???"
  end.

(* ================================================================== *)
(** ** cmd/order.go: the parameters of a new order *)

(** [api.ParameterT]: both fields are pointers. *)
Record ParameterT : Type := mkParameterT {
  pt_Name : option string;
  pt_Value : option string;
}.

(** The loop of [createOrderCmd] over [args[1:]], which fills [params].
    [paramSet] holds the parameter names the service defines (it is empty
    when [skipParameterCheck] is set); the first argument that does not
    pass ends the process in [cobra.CheckErr]. *)
Fixpoint parseParameters (skipParameterCheck : bool) (paramSet : gset string)
    (args : list string) : Outcome (list ParameterT) :=
  match args with
  | [] => Ret []
  | ps :: args =>
      match SplitN2 "="%char ps with
      | [name; value] =>
          if negb skipParameterCheck && negb (bool_decide (name ∈ paramSet))
          then Exit ("parameter '" +:+ name +:+ "' is not defined by the requested service")
          else match parseParameters skipParameterCheck paramSet args with
               | Ret params => Ret (mkParameterT (Some name) (Some value) :: params)
               | Exit msg => Exit msg
               | Panic => Panic
               | Running => Running
               end
      | _ => Exit ("cannot parse parameter argument '" +:+ ps +:+ "'")
      end
  end.

(* ================================================================== *)
(** ** cmd/root.go: the check for a newer release *)

Definition RELEASE_CHECK_URL : string :=
  "https://github.com/reinventingscience/ivcap-cli/releases/latest".

(** [CHECK_VERSION_INTERVAL]: 24 hours. *)
Definition CHECK_VERSION_INTERVAL : Duration := (24 * 3600 * Second)%Z.

(** [t.Sub(u)], which saturates at the ends of the int64 range. *)
Definition Sub (t u : Time) : Duration :=
  Z.max Int64.min_int (Z.min Int64.max_int (t - u)).

(** The instant that [Format(time.RFC3339)] writes and [time.Parse] reads
    back: [t] without its fraction of a second. *)
Definition toSecond (t : Time) : Time := (t - t `mod` Second)%Z.

(** The file of the last check: not readable, not a timestamp, or the
    timestamp of that instant. *)
Inductive StampFile : Type :=
| StampUnreadable
| StampGarbage
| Stamp (lastCheck : Time).

(** What [client.Head] and [resp.Location] deliver. *)
Inductive HeadReply : Type :=
| HeadError (why : string)
| HeadNoLocation (why : string)
| HeadLocation (path : string).

Inductive UpdateEvent : Type :=
| UpHead (url : string)
| UpDebug (msg : string)
| UpPrint (text : string).

(** The replies the outside world gives to one run of [checkForUpdates]:
    the clock at [time.Since], the answer to the HEAD request, the clock at
    the final [time.Now], and whether the file can be written (a failed
    write is taken to leave the file as it was). *)
Record UpdateEnv : Type := mkUpdateEnv {
  up_now : Time;
  up_head : HeadReply;
  up_now_stamp : Time;
  up_writable : bool;
}.

(** [p[len(p)-1]] of a slice that [strings.Split] returned, and its [p[0]]. *)
Definition lastPart (p : list string) : string := List.last p EmptyString.
Definition firstPart (p : list string) : string := List.hd EmptyString p.

(** The three lines that announce a newer version. *)
Definition upgradeNotice (latest current : string) : list UpdateEvent :=
  [UpPrint (LF +:+ ">>>   A newer version 'v" +:+ latest
            +:+ "' is available. Please consider upgrading from 'v" +:+ current +:+ "'");
   UpPrint (LF +:+ ">>>     It is available at " +:+ RELEASE_CHECK_URL);
   UpPrint (LF +:+ ">>>     Or via 'brew upgrade ivcap'" +:+ LF +:+ LF)].

(** [checkForUpdates]: the events of the call and the file after it. *)
Definition checkForUpdates (currentVersion : string) (env : UpdateEnv) (f : StampFile)
  : list UpdateEvent * StampFile :=
  let tooSoon := match f with
                 | Stamp lastCheck =>
                     bool_decide (Sub (up_now env) lastCheck < CHECK_VERSION_INTERVAL)%Z
                 | _ => false
                 end in
  if tooSoon then ([], f)
  else
    let parsed := match f with
                  | StampGarbage => [UpDebug "cannot parse data in version check file"]
                  | _ => []
                  end in
    let checked :=
      match up_head env with
      | HeadError why => [UpDebug "checkForUpdates: while checking github"]
      | HeadNoLocation why => [UpDebug "checkForUpdates: while getting location"]
      | HeadLocation path =>
          let p := Split "/"%char path in
          let latest := TrimPrefix (lastPart p) "v" in
          let current := TrimPrefix (firstPart (Split "|"%char currentVersion)) "v" in
          if bool_decide (current ≠ latest) then upgradeNotice latest current else []
      end in
    let written :=
      if up_writable env then ([], Stamp (toSecond (up_now_stamp env)))
      else ([UpDebug "cannot write version check timestamp"], f) in
    (parsed ++ [UpHead RELEASE_CHECK_URL] ++ checked ++ written.1, written.2).

(** The requests to the network, and the lines printed, among the events
    of a check. *)
Definition is_head (e : UpdateEvent) : bool :=
  match e with
  | UpHead _ => true
  | _ => false
  end.

Definition is_notice (e : UpdateEvent) : bool :=
  match e with
  | UpPrint _ => true
  | _ => false
  end.

Definition heads (evs : list UpdateEvent) : nat :=
  length (filter (λ e, is_head e = true) evs).

Definition notices (evs : list UpdateEvent) : nat :=
  length (filter (λ e, is_notice e = true) evs).

(* ================================================================== *)
(** ** Vocabulary of the further statements *)

(** The configuration that [ReadConfigFile(true)] returns, when it
    returns: the stored one, or the fresh one when there is no file. *)
Definition configRead (f : FileState) : option Config :=
  match f with
  | Stored cfg => Some cfg
  | NoFile => Some (mkConfig "v1" "" [])
  | Unreadable _ | Unparsable _ => None
  end.

(** The name that [GetContext] looks up. *)
Definition lookupName (name : string) (defaultToActiveContext : bool) (cfg : Config)
  : string :=
  if bool_decide (name = "") && defaultToActiveContext then ActiveContext cfg else name.

(** The names under which contexts are stored. *)
Definition names (cfg : Config) : list string := Name <$> Contexts cfg.

(** The byte [sep] does not occur in [s]. *)
Definition free_of (sep : ascii) (s : string) : Prop :=
  sep ∉ String.list_ascii_of_string s.

(** [p] is the parameter that the argument [ps] stands for: [ps] is
    [name=value] with no [=] in the name, a name that the service defines
    unless the check is skipped, and [p] holds that name and value. *)
Definition parameterOf (skip : bool) (paramSet : gset string) (ps : string)
    (p : ParameterT) : Prop :=
  ∃ name value : string,
    ps = name +:+ String "=" value
    ∧ free_of "=" name
    ∧ (skip = false → name ∈ paramSet)
    ∧ p = mkParameterT (Some name) (Some value).

(** The check is due: there is no timestamp of a check less than 24
    hours before [now]. *)
Definition checkDue (now : Time) (f : StampFile) : Prop :=
  ∀ lastCheck : Time, f = Stamp lastCheck → (CHECK_VERSION_INTERVAL ≤ now - lastCheck)%Z.

(** [history[k]], with its [ok]. *)
Definition historyGet (k : string) (history : History) : option string :=
  match history with
  | Some m => m !! k
  | None => None
  end.

(** The keys of the history are the tokens [@1] to [@n], [n] its length. *)
Definition wellNumbered (history : History) : Prop :=
  ∀ k : string, is_Some (historyGet k history) →
    ∃ i : nat, 1 ≤ i ≤ historyLen history ∧ k = historyToken i.

(** A call that may record an identifier, and the history after a run of
    such calls. *)
Inductive HistoryCall : Type :=
| CallMakeHistory (urn : option string)
| CallMakeMaybeHistory (sp : option string).

Definition callHistory (c : HistoryCall) (history : History) : string * History :=
  match c with
  | CallMakeHistory urn => MakeHistory urn history
  | CallMakeMaybeHistory sp => MakeMaybeHistory sp history
  end.

Fixpoint callsHistory (cs : list HistoryCall) (history : History) : History :=
  match cs with
  | [] => history
  | c :: cs => callsHistory cs (callHistory c history).2
  end.

(** The answers after which the poll loop goes round again: decoded, with
    status 200 or 403, and an error code that is none of the three that
    end the polling and is not empty. *)
Definition continues (reply : PollReply) : bool :=
  match pr_post reply with
  | PostResponse status _ (Ok tr) =>
      (bool_decide (status = StatusOK) || bool_decide (status = StatusForbidden))
      && negb (bool_decide (ErrorString tr ∈
                              ["expired_token"; "access_denied"; "invalid_grant"; ""]))
  | _ => false
  end.

(** A decoded answer with status 200 or 403 and the error code [code]. *)
Definition answersWith (code : string) (reply : PollReply) : Prop :=
  ∃ (status : Z) (statusText : string) (tr : deviceTokenResponse),
    pr_post reply = PostResponse status statusText (Ok tr)
    ∧ (status = StatusOK ∨ status = StatusForbidden)
    ∧ ErrorString tr = code.

(** The calls of [time.Sleep] among the events. *)
Definition is_sleep (e : Event) : bool :=
  match e with
  | EvSleep _ => true
  | _ => false
  end.

Definition sleeps (tr : list Event) : nat :=
  length (filter (λ e, is_sleep e = true) tr).

(** Further sample values, beside those of [Sample]. *)
Module Demo.

Definition staging : Context :=
  mkContext 1 "staging" "https://staging.example.org" "" "" "" "" "" "" "" 0%Z "".

(** The sample configuration after a logout: [dev] has no refresh token. *)
Definition loggedOut : World :=
  mkWorld "config.yaml"
    (Stored (mkConfig "v1" "dev" [Sample.prod; set_RefreshToken "" Sample.dev])) [].

(** The sample document with a default provider id that names no entry. *)
Definition document_other_default : gmap string goval :=
  <["version" := GInt 1]>
    (<["auth" := GMap (<["default-provider-id" := GString "p2"]>
                      (<["providers" := GMap (<["p1" := Sample.p1]> ∅)]> ∅))]> ∅).

(** A check for updates that does not reach the server, and one the next
    morning that is redirected to the release [v0.24.1]. *)
Definition firstCheck : UpdateEnv :=
  mkUpdateEnv 1700000000000000000%Z (HeadError "dial tcp: no route to host")
    1700000000500000000%Z true.

Definition nextMorning : UpdateEnv :=
  mkUpdateEnv 1700050000000000000%Z
    (HeadLocation "/reinventingscience/ivcap-cli/releases/tag/v0.24.1")
    1700050000000000000%Z true.

End Demo.

(* ================================================================== *)
(** * Properties *)

(** ** Machine arithmetic *)

Lemma wrap64_id (z : Z) : Int64.in_range z → Int64.wrap64 z = z.
Proof.
  unfold Int64.in_range, Int64.min_int, Int64.max_int, Int64.wrap64. intros Hz.
  rewrite Z.mod_small; lia.
Qed.

Lemma wrap64_in_range (z : Z) : Int64.in_range (Int64.wrap64 z).
Proof.
  unfold Int64.in_range, Int64.min_int, Int64.max_int, Int64.wrap64.
  pose proof (Z.mod_pos_bound (z + 2 ^ 63) (2 ^ 64) ltac:(lia)). lia.
Qed.

(** Inside the representable range the expiry offset is the declared
    lifetime less ten seconds. *)
Lemma expiryDuration_exact (expiresIn : Z) :
  expiry_representable expiresIn →
  expiryDuration expiresIn = ((expiresIn - 10) * Second)%Z.
Proof.
  unfold expiry_representable, expiryDuration, Int64.mul, Int64.sub, Second.
  intros Hr.
  rewrite (wrap64_id (expiresIn - 10)) by (unfold Int64.in_range, Int64.min_int, Int64.max_int; lia).
  rewrite wrap64_id by (unfold Int64.in_range, Int64.min_int, Int64.max_int; lia).
  lia.
Qed.

Lemma double_exact (interval : Z) :
  doubling_representable interval → Int64.mul interval 2 = (2 * interval)%Z.
Proof.
  unfold doubling_representable, Int64.mul. intros Hr.
  rewrite wrap64_id by (unfold Int64.in_range, Int64.min_int, Int64.max_int; lia).
  lia.
Qed.

Lemma config_writes_app (a b : list Event) :
  config_writes (a ++ b) = config_writes a + config_writes b.
Proof. unfold config_writes. by rewrite filter_app, length_app. Qed.

Lemma network_calls_app (a b : list Event) :
  network_calls (a ++ b) = network_calls a + network_calls b.
Proof. unfold network_calls. by rewrite filter_app, length_app. Qed.

(** ** The effect log *)

Lemma logged_logged (a b : list Event) (w : World) :
  logged b (logged a w) = logged (a ++ b) w.
Proof. unfold logged. simpl. by rewrite app_assoc. Qed.

Lemma logged_nil (w : World) : logged [] w = w.
Proof. destruct w. unfold logged. simpl. by rewrite app_nil_r. Qed.

Lemma emit_logged (e : Event) (w : World) : emit e w = (Ret (), logged [e] w).
Proof. reflexivity. Qed.

(** ** The configuration store *)

Lemma ReadConfigFile_Stored (w : World) (cfg : Config) (create : bool) :
  file w = Stored cfg →
  ReadConfigFile create w = (Ret (cfg, configPath w), w).
Proof.
  intros Hfile. unfold ReadConfigFile, cmd_bind, GetConfigFilePath.
  by rewrite Hfile.
Qed.

Lemma SetContext_found (w : World) (cfg : Config) (ctxt old : Context) (i : nat)
    (failIfNotExist : bool) :
  file w = Stored cfg →
  list_find (λ c, Name c = Name ctxt) (Contexts cfg) = Some (i, old) →
  SetContext ctxt failIfNotExist w
  = let cfg' := set_Contexts (<[i := ctxt]> (Contexts cfg)) cfg in
    (Ret (), mkWorld (configPath w) (Stored cfg') (trace w ++ [EvWriteConfig cfg'])).
Proof.
  intros Hfile Hfind. unfold SetContext, cmd_bind.
  rewrite (ReadConfigFile_Stored _ _ _ Hfile), Hfind. reflexivity.
Qed.

Lemma ReadConfigFile_cases (w : World) :
  match file w with
  | NoFile => ReadConfigFile true w = (Ret (mkConfig "v1" "" [], configPath w), w)
  | Stored cfg => ReadConfigFile true w = (Ret (cfg, configPath w), w)
  | _ => ∃ msg, ReadConfigFile true w = (Exit msg, w)
  end.
Proof.
  unfold ReadConfigFile, GetConfigFilePath, cmd_bind, CheckErr.
  destruct (file w); eauto.
Qed.

(** A context that [GetActiveContext] returns is an entry of the stored
    configuration, the first under its name; the lookup changes nothing. *)
Lemma GetActiveContext_Ret (contextName : string) (w w' : World) (ctxt : Context) :
  GetActiveContext contextName w = (Ret ctxt, w') →
  w' = w ∧ ∃ cfg i, file w = Stored cfg
                    ∧ list_find (λ c, Name c = Name ctxt) (Contexts cfg) = Some (i, ctxt).
Proof.
  unfold GetActiveContext, GetContext, cmd_bind.
  pose proof (ReadConfigFile_cases w) as Hread.
  destruct (file w) as [| why | why | cfg] eqn:Hfile.
  - rewrite Hread. simpl. case_bool_decide; simpl; discriminate.
  - destruct Hread as [msg ->]. discriminate.
  - destruct Hread as [msg ->]. discriminate.
  - rewrite Hread. unfold CheckErr, cmd_ret.
    case_bool_decide; [discriminate|].
    match goal with
    | |- context [list_find ?P ?l] => destruct (list_find P l) as [[i d]|] eqn:Hfind
    end; [|discriminate].
    intros [= -> ->]. split; [done|]. exists cfg, i. split; [done|].
    apply list_find_Some in Hfind as (Hi & Hname & Hfirst).
    apply list_find_Some. rewrite Hname. done.
Qed.

(** The update keeps the name under which the context is stored. *)
Lemma Name_set_AccessToken (v : string) (c : Context) : Name (set_AccessToken v c) = Name c.
Proof. reflexivity. Qed.

Lemma Name_set_AccessTokenExpiry (v : Time) (c : Context) :
  Name (set_AccessTokenExpiry v c) = Name c.
Proof. reflexivity. Qed.

Lemma Name_set_RefreshToken (v : string) (c : Context) : Name (set_RefreshToken v c) = Name c.
Proof. reflexivity. Qed.

Lemma Name_set_identity (cl : CustomIdClaims) (c : Context) : Name (set_identity cl c) = Name c.
Proof. reflexivity. Qed.

(** C10. [SetContext] with a context whose name is the name of an entry of
    the stored configuration writes the configuration back with that entry
    (the first of that name) replaced by the context: the version, the
    active context, the number of entries and every other entry are as
    they were read. *)
Theorem SetContext_overwrites_only_the_match
    (w : World) (cfg : Config) (ctxt : Context) (failIfNotExist : bool) :
  file w = Stored cfg →
  Name ctxt ∈ Name <$> Contexts cfg →
  ∃ (i : nat) (old : Context) (cfg' : Config),
    Contexts cfg !! i = Some old ∧ Name old = Name ctxt
    ∧ SetContext ctxt failIfNotExist w
      = (Ret (), mkWorld (configPath w) (Stored cfg') (trace w ++ [EvWriteConfig cfg']))
    ∧ Version cfg' = Version cfg
    ∧ ActiveContext cfg' = ActiveContext cfg
    ∧ length (Contexts cfg') = length (Contexts cfg)
    ∧ Contexts cfg' !! i = Some ctxt
    ∧ ∀ j : nat, j ≠ i → Contexts cfg' !! j = Contexts cfg !! j.
Proof.
  intros Hfile Hin.
  apply list_elem_of_fmap in Hin as (c & Hname & Hc).
  destruct (list_find (λ c, Name c = Name ctxt) (Contexts cfg)) as [[i old]|] eqn:Hfind.
  - pose proof Hfind as (Hi & Hold & _)%list_find_Some.
    exists i, old, (set_Contexts (<[i := ctxt]> (Contexts cfg)) cfg).
    split; [done|]. split; [done|].
    split; [by apply SetContext_found with old|].
    simpl. split; [done|]. split; [done|].
    split; [by rewrite length_insert|].
    split.
    + apply list_lookup_insert_eq. by eapply lookup_lt_Some.
    + intros j Hj. by apply list_lookup_insert_ne.
  - exfalso. eapply list_find_None in Hfind.
    rewrite Forall_forall in Hfind. by apply (Hfind c).
Qed.

(** An instance: updating [dev] in the sample configuration. *)
Lemma SetContext_overwrites_only_the_match_witness :
  ∃ (i : nat) (old : Context) (cfg' : Config),
    Contexts Sample.config !! i = Some old ∧ Name old = "dev"
    ∧ SetContext (set_AccessToken "AT1" Sample.dev) true Sample.world
      = (Ret (), mkWorld "config.yaml" (Stored cfg') [EvWriteConfig cfg'])
    ∧ Version cfg' = "v1"
    ∧ ActiveContext cfg' = "dev"
    ∧ length (Contexts cfg') = length (Contexts Sample.config)
    ∧ Contexts cfg' !! i = Some (set_AccessToken "AT1" Sample.dev)
    ∧ ∀ j : nat, j ≠ i → Contexts cfg' !! j = Contexts Sample.config !! j.
Proof.
  apply (SetContext_overwrites_only_the_match Sample.world Sample.config
           (set_AccessToken "AT1" Sample.dev) true).
  - reflexivity.
  - simpl. repeat constructor.
Defined.

(* ------------------------------------------------------------------ *)
(** ** Provider discovery *)

(** A discovery that returns a provider has logged the request and the two
    progress lines, and nothing else. *)
Lemma getLoginInformation_Ok (ctxt : Context) (reply : GetReply) (w w1 : World)
    (p : AuthProvider) :
  getLoginInformation (Some ctxt) reply w = (Ret (Ok p), w1) →
  w1 = logged (discoveryEvents ctxt) w.
Proof.
  unfold getLoginInformation, cmd_bind, emit, cmd_ret, panic. simpl.
  destruct reply as [why | [responseMap|]]; try discriminate.
  destruct (is_true _); [discriminate|].
  destruct (responseMap !! "version") as [versionNum|]; [|discriminate].
  destruct (is_int_one versionNum); [|discriminate].
  destruct (decodeAuthInfo _) as [authInfo|]; [|discriminate].
  case_bool_decide; [|discriminate].
  destruct (GetDefaultProvider authInfo); [|discriminate].
  intros [= _ <-]. unfold logged, discoveryEvents. simpl. by rewrite <- !app_assoc.
Qed.

Lemma is_int_one_false (v : goval) : v ≠ GInt 1 → is_int_one v = false.
Proof.
  destruct v as [| | z | | | |]; try done.
  destruct z as [|q|q]; try done. destruct q; try done.
Qed.

(** C3. For a document that is not a fault response: when its version is
    the integer 1, its [auth] part decodes, and the default provider id is
    a key of the provider map (which is then not empty), discovery returns
    exactly the entry under that key; when its version is any value other
    than the integer 1, discovery fails with the error that asks to update
    the client. *)
Theorem getLoginInformation_default_provider
    (ctxt : Context) (responseMap : gmap string goval) (w : World) :
  is_true (responseMap !! "fault") = false →
  (∀ (authInfo : AuthInfo) (p : AuthProvider),
     responseMap !! "version" = Some (GInt 1) →
     decodeAuthInfo (responseMap !! "auth") = Some authInfo →
     AuthProviders authInfo !! DefaultProviderId authInfo = Some p →
     getLoginInformation (Some ctxt) (GetBody (Some responseMap)) w
     = (Ret (Ok p), logged (discoveryEvents ctxt) w))
  ∧ (∀ versionNum : goval,
       responseMap !! "version" = Some versionNum →
       versionNum ≠ GInt 1 →
       (getLoginInformation (Some ctxt) (GetBody (Some responseMap)) w).1
       = Ret (Err "client out of date: Please update this application")).
Proof.
  intros Hfault. split.
  - intros authInfo p Hversion Hauth Hdefault.
    unfold getLoginInformation, cmd_bind. rewrite !emit_logged, Hfault, Hversion.
    cbn [is_int_one]. rewrite emit_logged, Hauth.
    rewrite bool_decide_eq_true_2.
    + unfold GetDefaultProvider. rewrite Hdefault. unfold cmd_ret.
      by rewrite !logged_logged.
    + intros Hsize%map_size_empty_iff. rewrite Hsize in Hdefault.
      by rewrite lookup_empty in Hdefault.
  - intros versionNum Hversion Hne.
    unfold getLoginInformation, cmd_bind. rewrite !emit_logged, Hfault, Hversion.
    rewrite (is_int_one_false _ Hne). by rewrite emit_logged.
Qed.

(** Scenario A, and a version-2 document. *)
Lemma getLoginInformation_default_provider_witness :
  getLoginInformation (Some Sample.dev) (GetBody (Some Sample.document)) Sample.world
  = (Ret (Ok Sample.provider), logged (discoveryEvents Sample.dev) Sample.world)
  ∧ (getLoginInformation (Some Sample.dev) (GetBody (Some Sample.document_v2)) Sample.world).1
    = Ret (Err "client out of date: Please update this application").
Proof.
  split.
  - apply (proj1 (getLoginInformation_default_provider Sample.dev Sample.document
                    Sample.world eq_refl)
             (mkAuthInfo "" "p1" {[ "p1" := Sample.provider ]}) Sample.provider).
    + reflexivity.
    + vm_compute. reflexivity.
    + vm_compute. reflexivity.
  - apply (proj2 (getLoginInformation_default_provider Sample.dev Sample.document_v2
                    Sample.world eq_refl) (GInt 2)).
    + reflexivity.
    + discriminate.
Defined.

(** C7. On a document without a [version] key (and without a fault flag)
    discovery does not return: it reaches [panic(1)], which sits in front
    of the [return] of the error.  Evaluated on the sample document
    stripped of its version, and on the empty document. *)
Theorem getLoginInformation_unversioned_panics :
  getLoginInformation (Some Sample.dev) (GetBody (Some Sample.document_unversioned)) Sample.world
  = (Panic,
     logged [EvPrint ("Sending Request to " +:+ URL Sample.dev +:+ LF);
             EvHttpGet (URL Sample.dev +:+ "/1/authinfo.yaml");
             EvWarn ("Login Service provided No Version Info:" +:+ LF)] Sample.world)
  ∧ (getLoginInformation (Some Sample.dev) (GetBody (Some ∅)) Sample.world).1 = Panic.
Proof. split; vm_compute; reflexivity. Qed.

(** In general: no fault flag and no version is a crash, whatever else the
    document holds. *)
Lemma getLoginInformation_no_version
    (ctxt : Context) (responseMap : gmap string goval) (w : World) :
  is_true (responseMap !! "fault") = false →
  responseMap !! "version" = None →
  (getLoginInformation (Some ctxt) (GetBody (Some responseMap)) w).1 = Panic.
Proof.
  intros Hfault Hversion.
  unfold getLoginInformation, cmd_bind. by rewrite !emit_logged, Hfault, Hversion, emit_logged.
Qed.

(** The other failures of discovery are returned as errors. *)
Lemma getLoginInformation_returned_errors (ctxt : Context) (w : World) :
  (∀ why, (getLoginInformation (Some ctxt) (GetTransportError why) w).1
          = Ret (Err ("Cannot request login info - " +:+ why)))
  ∧ (getLoginInformation (Some ctxt) (GetBody None) w).1
    = Ret (Err "unknown response from Login Service")
  ∧ (∀ responseMap, is_true (responseMap !! "fault") = true →
       (getLoginInformation (Some ctxt) (GetBody (Some responseMap)) w).1
       = Ret (Err "login service has returned a fault"))
  ∧ (∀ responseMap authInfo,
       is_true (responseMap !! "fault") = false →
       responseMap !! "version" = Some (GInt 1) →
       decodeAuthInfo (responseMap !! "auth") = Some authInfo →
       AuthProviders authInfo = ∅ →
       (getLoginInformation (Some ctxt) (GetBody (Some responseMap)) w).1
       = Ret (Err "Login Service returned invalid data (No Providers)")).
Proof.
  repeat split.
  - intros responseMap Hfault.
    unfold getLoginInformation, cmd_bind. by rewrite !emit_logged, Hfault, emit_logged.
  - intros responseMap authInfo Hfault Hversion Hauth Hempty.
    unfold getLoginInformation, cmd_bind. rewrite !emit_logged, Hfault, Hversion.
    cbn [is_int_one]. rewrite emit_logged, Hauth, Hempty.
    by rewrite bool_decide_eq_false_2 by (rewrite map_size_empty; auto).
Qed.

(* ------------------------------------------------------------------ *)
(** ** Identity token *)

Lemma ParseIDToken_run (reply : ParseReply) (tokenResponse : deviceTokenResponse)
    (ctxt : Context) (jwksURL : string) (w : World) :
  ParseIDToken reply tokenResponse ctxt jwksURL w
  = (Ret (claimsApplied reply ctxt, idTokenError reply), logged [EvJwksGet jwksURL] w).
Proof.
  unfold ParseIDToken, cmd_bind, emit, cmd_ret, claimsApplied, idTokenError, logged.
  destruct reply as [err | [idToken|]]; simpl; [| |done].
  - destruct (isMalformed err); [done|]. by destruct (isExpired err || isNotValidYet err).
  - by destruct (Valid idToken).
Qed.

Lemma Name_claimsApplied (reply : ParseReply) (c : Context) :
  Name (claimsApplied reply c) = Name c.
Proof. destruct reply as [? | [tok|]]; simpl; try done. by destruct (Valid tok). Qed.

Lemma AccessToken_claimsApplied (reply : ParseReply) (c : Context) :
  AccessToken (claimsApplied reply c) = AccessToken c.
Proof. destruct reply as [? | [tok|]]; simpl; try done. by destruct (Valid tok). Qed.

Lemma AccessTokenExpiry_claimsApplied (reply : ParseReply) (c : Context) :
  AccessTokenExpiry (claimsApplied reply c) = AccessTokenExpiry c.
Proof. destruct reply as [? | [tok|]]; simpl; try done. by destruct (Valid tok). Qed.


(* ------------------------------------------------------------------ *)
(** ** The refresh path *)

(** Walks [refreshAccessToken] from its entry to the [switch] on the error
    code, along the path on which the token has expired, a refresh token
    is stored, discovery succeeds and the request is answered. *)
Ltac refresh_to_switch Hctx Hexp Hrt Hdisc Hurl Hcid Htok :=
  unfold refreshAccessToken, cmd_bind at 1; rewrite Hctx;
  unfold After; rewrite bool_decide_eq_true_2 by lia;
  rewrite (bool_decide_eq_false_2 _ Hrt);
  unfold cmd_bind at 1; rewrite Hdisc;
  cbn [TokenURL ClientID JwksURL grantType set_grantType];
  rewrite (bool_decide_eq_true_2 _ Hurl), (bool_decide_eq_true_2 _ Hcid);
  cbn [andb]; unfold cmd_bind at 1, emit at 1; rewrite Htok.

Section Refresh.

Variables (contextName : string) (env : RefreshEnv) (w w1 : World).
Variables (ctxt : Context) (p : AuthProvider).

Hypothesis Hctx : GetActiveContext contextName w = (Ret ctxt, w).
Hypothesis Hexp : (AccessTokenExpiry ctxt < re_now env)%Z.
Hypothesis Hrt : RefreshToken ctxt ≠ "".
Hypothesis Hdisc :
  getLoginInformation (Some ctxt) (re_discovery env) w = (Ret (Ok p), w1).

Lemma refresh_without_request :
  TokenURL p = "" ∨ ClientID p = "" →
  refreshAccessToken contextName env w
  = (Ret (AccessToken ctxt, None), logged (discoveryEvents ctxt) w).
Proof.
  intros Hempty.
  pose proof (getLoginInformation_Ok _ _ _ _ _ Hdisc) as Hw1.
  unfold refreshAccessToken, cmd_bind at 1; rewrite Hctx.
  unfold After; rewrite bool_decide_eq_true_2 by lia.
  rewrite (bool_decide_eq_false_2 _ Hrt).
  unfold cmd_bind at 1; rewrite Hdisc.
  cbn [TokenURL ClientID JwksURL grantType set_grantType].
  destruct Hempty as [-> | ->].
  - rewrite bool_decide_eq_false_2 by auto. simpl. by rewrite Hw1.
  - rewrite (bool_decide_eq_false_2 ("" ≠ "")) by auto. rewrite andb_false_r. by rewrite Hw1.
Qed.

Variables (status : Z) (statusText : string) (tokenResponse : deviceTokenResponse).

Hypothesis Hurl : TokenURL p ≠ "".
Hypothesis Hcid : ClientID p ≠ "".
Hypothesis Htok : re_token env = PostResponse status statusText (Ok tokenResponse).

Lemma refresh_invalid_grant_run :
  ErrorString tokenResponse = "invalid_grant" →
  refreshAccessToken contextName env w
  = (Ret ("", Some "Could not login - expired credentials. Please use the login command to refresh your credentials"),
     logged (discoveryEvents ctxt ++ [refreshRequest p ctxt]) w).
Proof.
  intros Hcode.
  pose proof (getLoginInformation_Ok _ _ _ _ _ Hdisc) as Hw1.
  refresh_to_switch Hctx Hexp Hrt Hdisc Hurl Hcid Htok.
  rewrite Hcode, Hw1. cbn. unfold logged, refreshRequest. by rewrite <- app_assoc.
Qed.

(** A code for which the [switch] has no [return]: the function falls
    through to its last line. *)
Lemma refresh_unlisted_code_run :
  ErrorString tokenResponse ∉ ["expired_token"; "access_denied"; "invalid_grant"; ""] →
  refreshAccessToken contextName env w
  = (Ret (AccessToken ctxt, None),
     logged (discoveryEvents ctxt ++ [refreshRequest p ctxt]) w).
Proof.
  intros Hcode.
  pose proof (getLoginInformation_Ok _ _ _ _ _ Hdisc) as Hw1.
  refresh_to_switch Hctx Hexp Hrt Hdisc Hurl Hcid Htok.
  rewrite Hw1. unfold logged, refreshRequest. cbn [trace configPath file].
  rewrite <- app_assoc.
  repeat (case_bool_decide; [first [done | exfalso; apply Hcode; set_solver]|]).
  done.
Qed.

Lemma refresh_success_run (t : oauth2Token) :
  ErrorString tokenResponse = "" →
  Token tokenResponse = Some t →
  ∃ (cfg : Config) (i : nat),
    file w = Stored cfg
    ∧ list_find (λ c, Name c = Name ctxt) (Contexts cfg) = Some (i, ctxt)
    ∧ let ctxt' := claimsApplied (re_idtoken env)
                     (set_AccessTokenExpiry
                        (Add (re_now_update env) (expiryDuration (ExpiresIn tokenResponse)))
                        (set_AccessToken (tk_AccessToken t) ctxt)) in
      let cfg' := set_Contexts (<[i := ctxt']> (Contexts cfg)) cfg in
      refreshAccessToken contextName env w
      = (Ret (tk_AccessToken t, None),
         stored cfg' (discoveryEvents ctxt
                      ++ [refreshRequest p ctxt; EvJwksGet (JwksURL p);
                          EvPrintExpiry (AccessTokenExpiry ctxt'); EvWriteConfig cfg']) w).
Proof.
  intros Hcode Htoken.
  pose proof (getLoginInformation_Ok _ _ _ _ _ Hdisc) as Hw1.
  destruct (GetActiveContext_Ret _ _ _ _ Hctx) as (_ & cfg & i & Hfile & Hfind).
  exists cfg, i. split; [done|]. split; [done|]. intros ctxt' cfg'.
  refresh_to_switch Hctx Hexp Hrt Hdisc Hurl Hcid Htok.
  rewrite Hcode, Hw1.
  rewrite !(bool_decide_eq_false_2 ("" = String _ _)) by done.
  rewrite bool_decide_eq_true_2 by done.
  unfold cmd_bind at 1, field_of_Token. rewrite Htoken. unfold cmd_ret at 1.
  unfold cmd_bind at 1. rewrite ParseIDToken_run. fold ctxt'.
  unfold cmd_bind at 1, emit at 1. unfold cmd_bind at 1.
  erewrite SetContext_found;
    [| exact Hfile | unfold ctxt'; rewrite Name_claimsApplied; exact Hfind].
  unfold cmd_ret, stored, logged, refreshRequest, discoveryEvents. cbn.
  unfold ctxt' at 1. rewrite AccessToken_claimsApplied. cbn. fold cfg'.
  by rewrite <- !app_assoc.
Qed.

End Refresh.

(** C2. When the clock is before the stored expiry, [refreshAccessToken]
    returns the stored access token and no error, and leaves the world as
    it found it: no event is logged, so no network call is made, and the
    configuration file is not written. *)
Theorem refreshAccessToken_fast_path
    (contextName : string) (env : RefreshEnv) (w : World) (ctxt : Context) :
  GetActiveContext contextName w = (Ret ctxt, w) →
  (re_now env < AccessTokenExpiry ctxt)%Z →
  refreshAccessToken contextName env w = (Ret (AccessToken ctxt, None), w)
  ∧ network_calls (trace (refreshAccessToken contextName env w).2) = network_calls (trace w)
  ∧ file (refreshAccessToken contextName env w).2 = file w.
Proof.
  intros Hctx Hnow.
  assert (refreshAccessToken contextName env w = (Ret (AccessToken ctxt, None), w)) as ->.
  { unfold refreshAccessToken, cmd_bind at 1. rewrite Hctx.
    unfold After. by rewrite bool_decide_eq_false_2 by lia. }
  done.
Qed.

Lemma refreshAccessToken_fast_path_witness :
  refreshAccessToken "" (Sample.refreshEnv 999%Z (Sample.tokens 3600%Z)) Sample.world
  = (Ret ("AT0", None), Sample.world).
Proof.
  apply (refreshAccessToken_fast_path "" (Sample.refreshEnv 999%Z (Sample.tokens 3600%Z))
           Sample.world Sample.dev).
  - vm_compute. reflexivity.
  - vm_compute. reflexivity.
Defined.

(** C5. When the stored token has expired, a refresh token is stored,
    discovery gives a provider with a token URL and a client id, and the
    token endpoint answers [invalid_grant], [refreshAccessToken] returns
    the error that asks to log in again; the configuration file is as it
    was and no write of it is logged. *)
Theorem refreshAccessToken_invalid_grant
    (contextName : string) (env : RefreshEnv) (w w1 : World) (ctxt : Context)
    (p : AuthProvider) (status : Z) (statusText : string)
    (tokenResponse : deviceTokenResponse) :
  GetActiveContext contextName w = (Ret ctxt, w) →
  (AccessTokenExpiry ctxt < re_now env)%Z →
  RefreshToken ctxt ≠ "" →
  getLoginInformation (Some ctxt) (re_discovery env) w = (Ret (Ok p), w1) →
  TokenURL p ≠ "" →
  ClientID p ≠ "" →
  re_token env = PostResponse status statusText (Ok tokenResponse) →
  ErrorString tokenResponse = "invalid_grant" →
  ∃ w2 : World,
    refreshAccessToken contextName env w
    = (Ret ("", Some "Could not login - expired credentials. Please use the login command to refresh your credentials"), w2)
    ∧ file w2 = file w
    ∧ config_writes (trace w2) = config_writes (trace w).
Proof.
  intros Hctx Hexp Hrt Hdisc Hurl Hcid Htok Hcode.
  eexists. split.
  - by eapply refresh_invalid_grant_run.
  - split; [reflexivity|]. unfold logged. cbn [trace].
    by rewrite !config_writes_app.
Qed.

Lemma refreshAccessToken_invalid_grant_witness :
  ∃ w2 : World,
    refreshAccessToken "" (Sample.refreshEnv 2000%Z (Sample.failure "invalid_grant")) Sample.world
    = (Ret ("", Some "Could not login - expired credentials. Please use the login command to refresh your credentials"), w2)
    ∧ file w2 = file Sample.world
    ∧ config_writes (trace w2) = config_writes (trace Sample.world).
Proof.
  apply (refreshAccessToken_invalid_grant ""
           (Sample.refreshEnv 2000%Z (Sample.failure "invalid_grant")) Sample.world
           (logged (discoveryEvents Sample.dev) Sample.world)
           Sample.dev Sample.provider StatusOK "OK" (Sample.failure "invalid_grant")).
  - vm_compute. reflexivity.
  - vm_compute. reflexivity.
  - discriminate.
  - vm_compute. reflexivity.
  - discriminate.
  - discriminate.
  - reflexivity.
  - reflexivity.
Defined.

(** C9. When the stored token has expired, a refresh token is stored and
    discovery gives a provider whose token URL or client id is empty,
    [refreshAccessToken] returns the stored (expired) access token with a
    nil error.  The log gains the events of the discovery only: no request
    goes to the token endpoint, and the configuration file is untouched. *)
Theorem refreshAccessToken_provider_without_endpoint
    (contextName : string) (env : RefreshEnv) (w w1 : World) (ctxt : Context)
    (p : AuthProvider) :
  GetActiveContext contextName w = (Ret ctxt, w) →
  (AccessTokenExpiry ctxt < re_now env)%Z →
  RefreshToken ctxt ≠ "" →
  getLoginInformation (Some ctxt) (re_discovery env) w = (Ret (Ok p), w1) →
  TokenURL p = "" ∨ ClientID p = "" →
  refreshAccessToken contextName env w
  = (Ret (AccessToken ctxt, None), logged (discoveryEvents ctxt) w)
  ∧ Forall (λ e, ∀ url form, e ≠ EvHttpPostForm url form) (discoveryEvents ctxt)
  ∧ file (refreshAccessToken contextName env w).2 = file w.
Proof.
  intros Hctx Hexp Hrt Hdisc Hempty.
  rewrite (refresh_without_request _ _ _ _ _ _ Hctx Hexp Hrt Hdisc Hempty).
  split; [done|]. split; [|done].
  unfold discoveryEvents. by repeat constructor.
Qed.

Lemma refreshAccessToken_provider_without_endpoint_witness :
  refreshAccessToken ""
    (mkRefreshEnv 2000%Z (GetBody (Some Sample.document_no_token_url))
       (PostTransportError "unused") 2000%Z (Parsed None))
    Sample.world
  = (Ret ("AT0", None), logged (discoveryEvents Sample.dev) Sample.world)
  ∧ Forall (λ e, ∀ url form, e ≠ EvHttpPostForm url form) (discoveryEvents Sample.dev)
  ∧ file (refreshAccessToken ""
            (mkRefreshEnv 2000%Z (GetBody (Some Sample.document_no_token_url))
               (PostTransportError "unused") 2000%Z (Parsed None))
            Sample.world).2
    = file Sample.world.
Proof.
  apply (refreshAccessToken_provider_without_endpoint ""
           (mkRefreshEnv 2000%Z (GetBody (Some Sample.document_no_token_url))
              (PostTransportError "unused") 2000%Z (Parsed None))
           Sample.world (logged (discoveryEvents Sample.dev) Sample.world) Sample.dev
           (mkAuthProvider "" "" "" "" "" "cli" "" "" "")).
  - vm_compute. reflexivity.
  - vm_compute. reflexivity.
  - discriminate.
  - vm_compute. reflexivity.
  - left. reflexivity.
Defined.

(** C8. An error code for which the [switch] of [refreshAccessToken] has no
    case is not reported: with the stored token expired at 2000 and the
    token endpoint answering [slow_down], the call returns the expired
    token ["AT0"] and a nil error, having sent the request. *)
Theorem refreshAccessToken_slow_down_swallowed :
  After 2000%Z (AccessTokenExpiry Sample.dev) = true
  ∧ refreshAccessToken "" (Sample.refreshEnv 2000%Z (Sample.failure "slow_down")) Sample.world
    = (Ret ("AT0", None),
       logged (discoveryEvents Sample.dev ++ [refreshRequest Sample.provider Sample.dev])
         Sample.world).
Proof. split; vm_compute; reflexivity. Qed.

(** The same for every code other than the four that return and
    [authorization_pending]: whatever the server reports, the caller gets
    the stored token and no error. *)
Lemma refreshAccessToken_unlisted_code
    (contextName : string) (env : RefreshEnv) (w w1 : World) (ctxt : Context)
    (p : AuthProvider) (status : Z) (statusText : string)
    (tokenResponse : deviceTokenResponse) :
  GetActiveContext contextName w = (Ret ctxt, w) →
  (AccessTokenExpiry ctxt < re_now env)%Z →
  RefreshToken ctxt ≠ "" →
  getLoginInformation (Some ctxt) (re_discovery env) w = (Ret (Ok p), w1) →
  TokenURL p ≠ "" →
  ClientID p ≠ "" →
  re_token env = PostResponse status statusText (Ok tokenResponse) →
  ErrorString tokenResponse ∉ ["expired_token"; "access_denied"; "invalid_grant"; ""] →
  (refreshAccessToken contextName env w).1 = Ret (AccessToken ctxt, None).
Proof.
  intros Hctx Hexp Hrt Hdisc Hurl Hcid Htok Hcode.
  by erewrite refresh_unlisted_code_run.
Qed.

(* ------------------------------------------------------------------ *)
(** ** Token polling *)

Lemma pollTail_run (dc : DeviceCode) (le e : Z) (w : World) :
  pollTail dc le e w = (Ret (Continue dc e), logged (tailEvents dc le e) w).
Proof.
  unfold pollTail, tailEvents, cmd_bind, cmd_ret.
  case_bool_decide; rewrite !emit_logged, ?logged_logged; done.
Qed.

(** The pass of the loop on a decoded answer with status 200 or 403, as a
    function of the error code. *)
Lemma pollIteration_decoded (ap : AuthProvider) (dc : DeviceCode) (le : Z)
    (reply : PollReply) (status : Z) (statusText : string)
    (tr : deviceTokenResponse) (w : World) :
  pr_post reply = PostResponse status statusText (Ok tr) →
  status = StatusOK ∨ status = StatusForbidden →
  pollIteration ap dc le reply w
  = let code := ErrorString tr in
    let w' := logged [tokenRequest ap dc] w in
    if bool_decide (code = "authorization_pending")
    then pollTail dc le (pr_elapsed reply) w'
    else if bool_decide (code = "slow_down")
    then pollTail (set_Interval (Int64.mul (Interval dc) 2) dc) le (pr_elapsed reply) w'
    else if bool_decide (code = "expired_token")
    then (Ret (Return (Err "The login process was not completed in time - please login again")), w')
    else if bool_decide (code = "access_denied")
    then (Ret (Return (Err "Could not login - access was denied")), w')
    else if bool_decide (code = "invalid_grant")
    then (Ret (Return (Err "Could not login - invalid credentials")), w')
    else if bool_decide (code = "")
    then (Ret (Return (Ok tr)), w')
    else pollTail dc le (pr_elapsed reply) w'.
Proof.
  intros Hpost Hstatus.
  unfold pollIteration, cmd_bind at 1. rewrite emit_logged, Hpost.
  assert (bool_decide (status ≠ StatusOK) && bool_decide (status ≠ StatusForbidden) = false)
    as ->.
  { by destruct Hstatus as [-> | ->]. }
  cbv zeta. repeat case_bool_decide; reflexivity.
Qed.

Lemma pollIteration_pending (ap : AuthProvider) (dc : DeviceCode) (le : Z)
    (reply : PollReply) (status : Z) (statusText : string)
    (tr : deviceTokenResponse) (w : World) :
  pr_post reply = PostResponse status statusText (Ok tr) →
  status = StatusOK ∨ status = StatusForbidden →
  ErrorString tr = "authorization_pending" →
  ∃ w', pollIteration ap dc le reply w = (Ret (Continue dc (pr_elapsed reply)), w').
Proof.
  intros Hpost Hstatus Hcode.
  rewrite (pollIteration_decoded _ _ _ _ _ _ _ _ Hpost Hstatus), Hcode. cbv zeta.
  rewrite bool_decide_eq_true_2 by done. rewrite pollTail_run. by eexists.
Qed.

(** C1, as the claim has it, fails where the doubling leaves the int64
    range: from an interval of 2^62 seconds a [slow_down] answer takes the
    loop on with an interval of -2^63, which is not the double. *)
Lemma waitForTokens_doubling_wraps :
  (pollIteration (deviceFlow Sample.provider) (Sample.deviceCode (2 ^ 62)%Z) 0%Z
     (Sample.answer "slow_down" 1%Z) Sample.world).1
  = Ret (Continue (Sample.deviceCode (- 2 ^ 63)%Z) 1%Z)
  ∧ Interval (Sample.deviceCode (- 2 ^ 63)%Z)
    ≠ (2 * Interval (Sample.deviceCode (2 ^ 62)%Z))%Z.
Proof. split; [vm_compute; reflexivity | discriminate]. Qed.

(** C1, amended.  One pass of the poll loop on a decoded answer (status 200
    or 403), by error code.  [authorization_pending]: the loop goes on with
    the device code unchanged.  [slow_down]: the loop goes on with the
    interval doubled, provided the double is an int64, and it is the
    doubled interval that is slept.  [expired_token], [access_denied],
    [invalid_grant]: the loop returns at once, each with its own error; the
    request of this pass is the last event logged and the remaining
    answers are not consumed.  Empty code: the loop returns the decoded
    response. *)
Theorem waitForTokens_transitions
    (ap : AuthProvider) (dc : DeviceCode) (le : Z) (reply : PollReply)
    (rest : list PollReply) (status : Z) (statusText : string)
    (tr : deviceTokenResponse) (w : World) :
  pr_post reply = PostResponse status statusText (Ok tr) →
  status = StatusOK ∨ status = StatusForbidden →
  let sent := logged [tokenRequest ap dc] w in
  let elapsed := pr_elapsed reply in
  (ErrorString tr = "authorization_pending" →
     pollLoop ap dc le (reply :: rest) w
     = pollLoop ap dc elapsed rest (logged (tailEvents dc le elapsed) sent))
  ∧ (ErrorString tr = "slow_down" →
     doubling_representable (Interval dc) →
     let dc' := set_Interval (2 * Interval dc) dc in
     pollLoop ap dc le (reply :: rest) w
     = pollLoop ap dc' elapsed rest (logged (tailEvents dc' le elapsed) sent))
  ∧ (ErrorString tr = "expired_token" →
     pollLoop ap dc le (reply :: rest) w
     = (Ret (Err "The login process was not completed in time - please login again"), sent))
  ∧ (ErrorString tr = "access_denied" →
     pollLoop ap dc le (reply :: rest) w
     = (Ret (Err "Could not login - access was denied"), sent))
  ∧ (ErrorString tr = "invalid_grant" →
     pollLoop ap dc le (reply :: rest) w
     = (Ret (Err "Could not login - invalid credentials"), sent))
  ∧ (ErrorString tr = "" →
     pollLoop ap dc le (reply :: rest) w = (Ret (Ok tr), sent)).
Proof.
  intros Hpost Hstatus sent elapsed.
  repeat split; intros Hcode; cbn [pollLoop]; unfold cmd_bind;
    rewrite (pollIteration_decoded _ _ _ _ _ _ _ _ Hpost Hstatus), Hcode; cbv zeta;
    rewrite ?bool_decide_eq_false_2 by done; rewrite bool_decide_eq_true_2 by done.
  - by rewrite pollTail_run.
  - intros Hrange. rewrite pollTail_run. by rewrite <- double_exact.
  - reflexivity.
  - reflexivity.
  - reflexivity.
  - reflexivity.
Qed.

(** An instance: a [slow_down] answer at an interval of five seconds, with
    two more answers waiting. *)
Lemma waitForTokens_transitions_witness :
  let ap := deviceFlow Sample.provider in
  let rest := [Sample.answer "authorization_pending" 12%Z; Sample.granted 3600%Z 23%Z] in
  let sent := logged [tokenRequest ap (Sample.deviceCode 5%Z)] Sample.world in
  pollLoop ap (Sample.deviceCode 5%Z) 0%Z (Sample.answer "slow_down" 6%Z :: rest) Sample.world
  = pollLoop ap (Sample.deviceCode 10%Z) 6%Z rest
      (logged (tailEvents (Sample.deviceCode 10%Z) 0%Z 6%Z) sent).
Proof.
  intros ap rest sent.
  apply (waitForTokens_transitions ap (Sample.deviceCode 5%Z) 0%Z
           (Sample.answer "slow_down" 6%Z) rest StatusForbidden "Forbidden"
           (Sample.failure "slow_down") Sample.world eq_refl (or_intror eq_refl)).
  - reflexivity.
  - unfold doubling_representable. simpl. lia.
Defined.

(** The three errors that end the polling are pairwise different, and
    none of them is the success. *)
Lemma waitForTokens_errors_distinct :
  "The login process was not completed in time - please login again"
    ≠ "Could not login - access was denied"
  ∧ "The login process was not completed in time - please login again"
    ≠ "Could not login - invalid credentials"
  ∧ "Could not login - access was denied" ≠ "Could not login - invalid credentials".
Proof. repeat split; discriminate. Qed.

(** Scenario B: three [authorization_pending] answers, then the tokens.
    The poller returns them after exactly four requests. *)
Example waitForTokens_scenario_B :
  let ap := deviceFlow Sample.provider in
  let run := waitForTokens ap (Sample.deviceCode 5%Z)
               [Sample.answer "authorization_pending" 5%Z;
                Sample.answer "authorization_pending" 10%Z;
                Sample.answer "authorization_pending" 15%Z;
                Sample.granted 3600%Z 20%Z] Sample.world in
  run.1 = Ret (Ok (Sample.tokens 3600%Z))
  ∧ network_calls (trace run.2) = 4
  ∧ (tk_AccessToken <$> Token (Sample.tokens 3600%Z)) = Some "AT1".
Proof. vm_compute. done. Qed.

(** The loop does not end on its own: as long as the server answers
    [authorization_pending], it is still running. *)
Lemma pollLoop_pending_running (ap : AuthProvider) (replies : list PollReply) :
  Forall (λ r, ∃ status statusText tr,
                 pr_post r = PostResponse status statusText (Ok tr)
                 ∧ (status = StatusOK ∨ status = StatusForbidden)
                 ∧ ErrorString tr = "authorization_pending") replies →
  ∀ (dc : DeviceCode) (le : Z) (w : World), (pollLoop ap dc le replies w).1 = Running.
Proof.
  induction 1 as [| r replies (status & st & tr & Hpost & Hstatus & Hcode) _ IH];
    intros dc le w; [reflexivity|].
  destruct (pollIteration_pending ap dc le r status st tr w Hpost Hstatus Hcode)
    as [w' Hstep].
  cbn [pollLoop]. unfold cmd_bind. rewrite Hstep. apply IH.
Qed.

(** One pass through the loop only logs events (the request, then prints
    and sleeps), whatever the world; it never writes the configuration. *)
Lemma pollIteration_logs (ap : AuthProvider) (dc : DeviceCode) (le : Z) (reply : PollReply) :
  ∃ (step : Step) (evs : list Event),
    config_writes evs = 0
    ∧ ∀ w, pollIteration ap dc le reply w = (Ret step, logged (tokenRequest ap dc :: evs) w).
Proof.
  unfold pollIteration, cmd_bind. setoid_rewrite emit_logged.
  destruct (pr_post reply) as [why | status st [tr | why]].
  - eexists _, []. split; [done|]. intros w. reflexivity.
  - destruct (bool_decide (status ≠ StatusOK) && bool_decide (status ≠ StatusForbidden)).
    { eexists _, []. split; [done|]. intros w. reflexivity. }
    assert (Htail : ∀ dc', ∃ evs, config_writes evs = 0 ∧
               ∀ w, pollTail dc' le (pr_elapsed reply) (logged [tokenRequest ap dc] w)
                    = (Ret (Continue dc' (pr_elapsed reply)),
                       logged (tokenRequest ap dc :: evs) w)).
    { intros dc'. exists (tailEvents dc' le (pr_elapsed reply)). split.
      - unfold tailEvents. case_bool_decide; reflexivity.
      - intros w. by rewrite pollTail_run, logged_logged. }
    repeat (case_bool_decide;
            [ first [ destruct (Htail dc) as (evs & ? & ?); by eexists _, evs
                    | destruct (Htail (set_Interval (Int64.mul (Interval dc) 2) dc))
                        as (evs & ? & ?); by eexists _, evs
                    | eexists _, []; split; [done|]; intros w; reflexivity ] |]).
    destruct (Htail dc) as (evs & ? & ?); by eexists _, evs.
  - destruct (bool_decide (status ≠ StatusOK) && bool_decide (status ≠ StatusForbidden));
      eexists _, []; (split; [done|]); intros w; reflexivity.
Qed.

Lemma pollLoop_logs (ap : AuthProvider) (replies : list PollReply) :
  ∀ (dc : DeviceCode) (le : Z),
  ∃ (o : Outcome (Res deviceTokenResponse)) (evs : list Event),
    config_writes evs = 0
    ∧ ∀ w, pollLoop ap dc le replies w = (o, logged evs w).
Proof.
  induction replies as [|reply replies IH]; intros dc le.
  - exists Running, []. split; [done|]. intros w. by rewrite logged_nil.
  - destruct (pollIteration_logs ap dc le reply) as (step & evs & Hevs & Hstep).
    destruct step as [dc' le' | result].
    + destruct (IH dc' le') as (o & evs' & Hevs' & Hloop).
      exists o, ((tokenRequest ap dc :: evs) ++ evs'). split.
      * rewrite config_writes_app.
        change (config_writes (tokenRequest ap dc :: evs)) with (config_writes evs). lia.
      * intros w. cbn [pollLoop]. unfold cmd_bind. by rewrite Hstep, Hloop, logged_logged.
    + exists (Ret result), (tokenRequest ap dc :: evs). split; [done|].
      intros w. cbn [pollLoop]. unfold cmd_bind. by rewrite Hstep.
Qed.

(* ------------------------------------------------------------------ *)
(** ** The login command *)

Section Login.

Variables (contextName : string) (env : LoginEnv) (w w1 : World).
Variables (ctxt : Context) (p : AuthProvider).
Variables (statusText qr : string) (deviceCode : DeviceCode).
Variable (tokenResponse : deviceTokenResponse).

Hypothesis Hctx : GetActiveContext contextName w = (Ret ctxt, w).
Hypothesis Hdisc :
  getLoginInformation (Some ctxt) (le_discovery env) w = (Ret (Ok p), w1).
Hypothesis Hdev : le_device env = PostResponse StatusOK statusText (Ok deviceCode).
Hypothesis Hqr : le_qr env = Some qr.
Hypothesis Hpoll :
  (waitForTokens (deviceFlow p) deviceCode (le_polls env) w).1 = Ret (Ok tokenResponse).

(** [login] from its entry to the verdict on the identity token: what is
    left to run, and the world it runs in. *)
Lemma login_to_identity :
  ∃ evs : list Event,
    config_writes evs = 0
    ∧ login contextName env w
      = (let* (ctxt, err) := ParseIDToken (le_idtoken env) tokenResponse ctxt
                               (JwksURL (deviceFlow p)) in
         match err with
         | Some err => CheckErr ("Cannot parse identity information - " +:+ err)
         | None =>
           let* accessToken := field_of_Token tk_AccessToken tokenResponse in
           let ctxt := set_AccessToken accessToken ctxt in
           let ctxt := set_AccessTokenExpiry
                         (Add (le_now env) (expiryDuration (ExpiresIn tokenResponse))) ctxt in
           let* refreshToken := field_of_Token tk_RefreshToken tokenResponse in
           let ctxt := set_RefreshToken refreshToken ctxt in
           SetContext ctxt true
         end) (logged evs w).
Proof.
  pose proof (getLoginInformation_Ok _ _ _ _ _ Hdisc) as Hw1.
  destruct (pollLoop_logs (deviceFlow p) (le_polls env) deviceCode 0%Z)
    as (o & pevs & Hpevs & Hloop).
  unfold waitForTokens in Hpoll. rewrite Hloop in Hpoll. simpl in Hpoll. subst o.
  exists (discoveryEvents ctxt ++ [deviceCodeRequest (deviceFlow p)]
          ++ loginPrompt qr deviceCode ++ pevs ++ [EvPrint "Command Line Tool Authorised."]).
  split.
  { rewrite !config_writes_app, Hpevs. reflexivity. }
  unfold login. unfold cmd_bind at 1. rewrite Hctx.
  unfold cmd_bind at 1. rewrite Hdisc, Hw1. fold (deviceFlow p).
  unfold cmd_bind at 1, requestDeviceCode. unfold cmd_bind at 1. rewrite emit_logged, Hdev.
  rewrite bool_decide_eq_false_2 by (intros H; by apply H).
  unfold cmd_ret at 1. unfold cmd_bind at 1. rewrite Hqr. unfold cmd_ret at 1.
  do 7 (unfold cmd_bind at 1; rewrite emit_logged).
  unfold cmd_bind at 1, waitForTokens. rewrite Hloop.
  unfold cmd_bind at 1; rewrite emit_logged.
  rewrite !logged_logged. f_equal.
Qed.


Lemma login_success_run (t : oauth2Token) :
  idTokenError (le_idtoken env) = None →
  Token tokenResponse = Some t →
  ∃ (cfg : Config) (i : nat) (evs : list Event),
    file w = Stored cfg
    ∧ list_find (λ c, Name c = Name ctxt) (Contexts cfg) = Some (i, ctxt)
    ∧ let ctxt' := set_RefreshToken (tk_RefreshToken t)
                     (set_AccessTokenExpiry
                        (Add (le_now env) (expiryDuration (ExpiresIn tokenResponse)))
                        (set_AccessToken (tk_AccessToken t)
                           (claimsApplied (le_idtoken env) ctxt))) in
      let cfg' := set_Contexts (<[i := ctxt']> (Contexts cfg)) cfg in
      login contextName env w = (Ret (), stored cfg' (evs ++ [EvWriteConfig cfg']) w).
Proof.
  intros Herr Htoken.
  destruct (GetActiveContext_Ret _ _ _ _ Hctx) as (_ & cfg & i & Hfile & Hfind).
  destruct login_to_identity as (evs & Hevs & Hlogin).
  exists cfg, i, (evs ++ [EvJwksGet (JwksURL (deviceFlow p))]).
  split; [done|]. split; [done|]. intros ctxt' cfg'. rewrite Hlogin.
  unfold cmd_bind at 1. rewrite ParseIDToken_run, Herr.
  unfold field_of_Token. rewrite Htoken. unfold cmd_bind, cmd_ret. fold ctxt'.
  erewrite SetContext_found;
    [| exact Hfile
     | unfold ctxt'; cbn [Name set_RefreshToken set_AccessTokenExpiry set_AccessToken];
       rewrite Name_claimsApplied; exact Hfind].
  cbv zeta. fold cfg'. unfold stored, logged. cbn [configPath file trace].
  by rewrite <- !app_assoc.
Qed.

End Login.

(* ------------------------------------------------------------------ *)
(** ** The persisted expiry *)

(** C4, as the claim has it, fails where [(expires_in - 10)] seconds is
    not a [time.Duration]: a token declared to live 10^10 seconds is
    persisted with an expiry some 267 years before the update. *)
Lemma persisted_expiry_wraps :
  let run := refreshAccessToken "" (Sample.refreshEnv 2000%Z (Sample.tokens 10000000000%Z))
               Sample.world in
  ∃ c : Context,
    run.1 = Ret ("AT1", None)
    ∧ file run.2 = Stored (mkConfig "v1" "dev" [Sample.prod; c])
    ∧ AccessTokenExpiry c = (2000 - 8446744083709551616)%Z
    ∧ AccessTokenExpiry c ≠ (2000 + (10000000000 - 10) * Second)%Z.
Proof.
  eexists. split; [vm_compute; reflexivity|].
  split; [vm_compute; reflexivity|]. split; [reflexivity | discriminate].
Qed.

(** C4, amended.  When [(expires_in - 10)] seconds is a [time.Duration],
    the credential that a successful refresh, or a successful login,
    writes to the configuration has as its expiry the instant of the
    update plus [expires_in - 10] seconds; with [expires_in = 3600] that is
    3590 seconds after the update. *)
Theorem persisted_expiry :
  (∀ (contextName : string) (env : RefreshEnv) (w w1 : World) (ctxt : Context)
     (p : AuthProvider) (status : Z) (statusText : string)
     (tokenResponse : deviceTokenResponse) (t : oauth2Token),
     GetActiveContext contextName w = (Ret ctxt, w) →
     (AccessTokenExpiry ctxt < re_now env)%Z →
     RefreshToken ctxt ≠ "" →
     getLoginInformation (Some ctxt) (re_discovery env) w = (Ret (Ok p), w1) →
     TokenURL p ≠ "" →
     ClientID p ≠ "" →
     re_token env = PostResponse status statusText (Ok tokenResponse) →
     ErrorString tokenResponse = "" →
     Token tokenResponse = Some t →
     expiry_representable (ExpiresIn tokenResponse) →
     ∃ (cfg : Config) (i : nat) (cfg' : Config) (c : Context),
       file w = Stored cfg
       ∧ list_find (λ c, Name c = Name ctxt) (Contexts cfg) = Some (i, ctxt)
       ∧ file (refreshAccessToken contextName env w).2 = Stored cfg'
       ∧ Contexts cfg' !! i = Some c
       ∧ AccessTokenExpiry c
         = (re_now_update env + (ExpiresIn tokenResponse - 10) * Second)%Z)
  ∧ (∀ (contextName : string) (env : LoginEnv) (w w1 : World) (ctxt : Context)
       (p : AuthProvider) (statusText qr : string) (deviceCode : DeviceCode)
       (tokenResponse : deviceTokenResponse) (t : oauth2Token),
       GetActiveContext contextName w = (Ret ctxt, w) →
       getLoginInformation (Some ctxt) (le_discovery env) w = (Ret (Ok p), w1) →
       le_device env = PostResponse StatusOK statusText (Ok deviceCode) →
       le_qr env = Some qr →
       (waitForTokens (deviceFlow p) deviceCode (le_polls env) w).1
       = Ret (Ok tokenResponse) →
       idTokenError (le_idtoken env) = None →
       Token tokenResponse = Some t →
       expiry_representable (ExpiresIn tokenResponse) →
       ∃ (cfg : Config) (i : nat) (cfg' : Config) (c : Context),
         file w = Stored cfg
         ∧ list_find (λ c, Name c = Name ctxt) (Contexts cfg) = Some (i, ctxt)
         ∧ (login contextName env w).1 = Ret ()
         ∧ file (login contextName env w).2 = Stored cfg'
         ∧ Contexts cfg' !! i = Some c
         ∧ AccessTokenExpiry c
           = (le_now env + (ExpiresIn tokenResponse - 10) * Second)%Z)
  ∧ (∀ now : Time, Add now (expiryDuration 3600) = (now + 3590 * Second)%Z).
Proof.
  split; [|split].
  - intros contextName env w w1 ctxt p status statusText tokenResponse t
      Hctx Hexp Hrt Hdisc Hurl Hcid Htok Hcode Htoken Hrange.
    destruct (refresh_success_run _ _ _ _ _ _ Hctx Hexp Hrt Hdisc _ _ _ Hurl Hcid Htok
                t Hcode Htoken) as (cfg & i & Hfile & Hfind & Hrun).
    cbv zeta in Hrun. rewrite Hrun. eexists cfg, i, _, _.
    split; [done|]. split; [done|]. split; [reflexivity|]. split.
    + cbn [Contexts set_Contexts]. apply list_lookup_insert_eq.
      apply list_find_Some in Hfind as (Hi & _). by eapply lookup_lt_Some.
    + rewrite AccessTokenExpiry_claimsApplied. cbn [AccessTokenExpiry set_AccessTokenExpiry].
      unfold Add. by rewrite expiryDuration_exact.
  - intros contextName env w w1 ctxt p statusText qr deviceCode tokenResponse t
      Hctx Hdisc Hdev Hqr Hpoll Herr Htoken Hrange.
    destruct (login_success_run _ _ _ _ _ _ _ _ _ _ Hctx Hdisc Hdev Hqr Hpoll
                t Herr Htoken) as (cfg & i & evs & Hfile & Hfind & Hrun).
    cbv zeta in Hrun. rewrite Hrun. eexists cfg, i, _, _.
    split; [done|]. split; [done|]. split; [reflexivity|]. split; [reflexivity|]. split.
    + cbn [Contexts set_Contexts]. apply list_lookup_insert_eq.
      apply list_find_Some in Hfind as (Hi & _). by eapply lookup_lt_Some.
    + cbn [AccessTokenExpiry set_RefreshToken set_AccessTokenExpiry].
      unfold Add. by rewrite expiryDuration_exact.
  - intros now. rewrite expiryDuration_exact; [reflexivity|].
    unfold expiry_representable. lia.
Qed.

(** An instance of each flow: the sample refresh at instant 2000, and
    scenario B followed by an identity token that verifies. *)
Lemma persisted_expiry_witness :
  (∃ (cfg : Config) (i : nat) (cfg' : Config) (c : Context),
     file Sample.world = Stored cfg
     ∧ list_find (λ c, Name c = Name Sample.dev) (Contexts cfg) = Some (i, Sample.dev)
     ∧ file (refreshAccessToken "" (Sample.refreshEnv 2000%Z (Sample.tokens 3600%Z))
               Sample.world).2 = Stored cfg'
     ∧ Contexts cfg' !! i = Some c
     ∧ AccessTokenExpiry c = (2000 + (3600 - 10) * Second)%Z)
  ∧ (∃ (cfg : Config) (i : nat) (cfg' : Config) (c : Context),
       let env := Sample.loginEnv 7000%Z
                    [Sample.answer "authorization_pending" 5%Z;
                     Sample.answer "authorization_pending" 10%Z;
                     Sample.answer "authorization_pending" 15%Z;
                     Sample.granted 3600%Z 20%Z]
                    (Parsed (Some (mkIdToken Sample.claims true))) in
       file Sample.world = Stored cfg
       ∧ list_find (λ c, Name c = Name Sample.dev) (Contexts cfg) = Some (i, Sample.dev)
       ∧ (login "" env Sample.world).1 = Ret ()
       ∧ file (login "" env Sample.world).2 = Stored cfg'
       ∧ Contexts cfg' !! i = Some c
       ∧ AccessTokenExpiry c = (7000 + (3600 - 10) * Second)%Z).
Proof.
  split.
  - apply (proj1 persisted_expiry ""
             (Sample.refreshEnv 2000%Z (Sample.tokens 3600%Z)) Sample.world
             (logged (discoveryEvents Sample.dev) Sample.world) Sample.dev Sample.provider
             StatusOK "OK" (Sample.tokens 3600%Z) (mkToken "AT1" "Bearer" "RT1")).
    + vm_compute. reflexivity.
    + vm_compute. reflexivity.
    + discriminate.
    + vm_compute. reflexivity.
    + discriminate.
    + discriminate.
    + reflexivity.
    + reflexivity.
    + reflexivity.
    + unfold expiry_representable. simpl. lia.
  - apply (proj1 (proj2 persisted_expiry) ""
             (Sample.loginEnv 7000%Z
                [Sample.answer "authorization_pending" 5%Z;
                 Sample.answer "authorization_pending" 10%Z;
                 Sample.answer "authorization_pending" 15%Z;
                 Sample.granted 3600%Z 20%Z]
                (Parsed (Some (mkIdToken Sample.claims true))))
             Sample.world (logged (discoveryEvents Sample.dev) Sample.world)
             Sample.dev Sample.provider "OK" "[QR]" (Sample.deviceCode 5%Z)
             (Sample.tokens 3600%Z) (mkToken "AT1" "Bearer" "RT1")).
    + vm_compute. reflexivity.
    + vm_compute. reflexivity.
    + reflexivity.
    + reflexivity.
    + vm_compute. reflexivity.
    + reflexivity.
    + reflexivity.
    + unfold expiry_representable. simpl. lia.
Defined.

(* ------------------------------------------------------------------ *)
(** ** Identity-token failure *)




(* ------------------------------------------------------------------ *)
(** ** More on the configuration store *)

Lemma ReadConfigFile_configRead (w : World) :
  match configRead (file w) with
  | Some cfg => ReadConfigFile true w = (Ret (cfg, configPath w), w)
  | None => ∃ msg, ReadConfigFile true w = (Exit msg, w)
  end.
Proof.
  pose proof (ReadConfigFile_cases w) as Hread. by destruct (file w).
Qed.

Lemma GetContext_read (name : string) (d : bool) (w : World) (cfg : Config) :
  configRead (file w) = Some cfg →
  GetContext name d w
  = let n := lookupName name d cfg in
    if bool_decide (n = "")
    then (Exit "Cannot find suitable context. Use '--context' or set default via 'context' command", w)
    else match list_find (λ c, Name c = n) (Contexts cfg) with
         | Some (_, c) => (Ret c, w)
         | None => (Exit ("unknown context '" +:+ n +:+ "' in config '" +:+ configPath w +:+ "'"), w)
         end.
Proof.
  intros Hfile. unfold GetContext, cmd_bind.
  pose proof (ReadConfigFile_configRead w) as Hread. rewrite Hfile in Hread.
  rewrite Hread. cbv zeta. fold (lookupName name d cfg).
  case_bool_decide; [done|].
  by destruct (list_find _ _) as [[i c]|].
Qed.

Lemma GetContext_unread (name : string) (d : bool) (w : World) :
  configRead (file w) = None →
  ∃ msg, GetContext name d w = (Exit msg, w).
Proof.
  intros Hfile. unfold GetContext, cmd_bind.
  pose proof (ReadConfigFile_configRead w) as Hread. rewrite Hfile in Hread.
  destruct Hread as [msg ->]. by eexists.
Qed.

Lemma SetContext_read (ctxt : Context) (b : bool) (w : World) (cfg : Config) :
  configRead (file w) = Some cfg →
  SetContext ctxt b w
  = match list_find (λ c, Name c = Name ctxt) (Contexts cfg) with
    | Some (i, _) =>
        let cfg' := set_Contexts (<[i := ctxt]> (Contexts cfg)) cfg in
        (Ret (), stored cfg' [EvWriteConfig cfg'] w)
    | None =>
        if b
        then (Exit ("attempting to set/update non existing context '" +:+ Name ctxt +:+ "'"), w)
        else
          let cfg' := mkConfig (Version cfg)
                        (if bool_decide (Contexts cfg = []) then Name ctxt
                         else ActiveContext cfg)
                        (Contexts cfg ++ [ctxt]) in
          (Ret (), stored cfg' [EvWriteConfig cfg'] w)
    end.
Proof.
  intros Hfile. unfold SetContext, cmd_bind.
  pose proof (ReadConfigFile_configRead w) as Hread. rewrite Hfile in Hread.
  rewrite Hread. cbv zeta.
  destruct (list_find _ _) as [[i c]|]; [reflexivity|].
  destruct b; [reflexivity|].
  cbn [Contexts set_Contexts]. rewrite length_app. cbn [length].
  destruct (Contexts cfg) as [|c l]; [reflexivity|].
  rewrite bool_decide_eq_false_2 by (cbn; lia).
  rewrite bool_decide_eq_false_2 by done. reflexivity.
Qed.

Lemma SetContext_unread (ctxt : Context) (b : bool) (w : World) :
  configRead (file w) = None →
  ∃ msg, SetContext ctxt b w = (Exit msg, w).
Proof.
  intros Hfile. unfold SetContext, cmd_bind.
  pose proof (ReadConfigFile_configRead w) as Hread. rewrite Hfile in Hread.
  destruct Hread as [msg ->]. by eexists.
Qed.

(** What a returning [SetContext] has done. *)
Lemma SetContext_Ret (ctxt : Context) (b : bool) (w w' : World) :
  SetContext ctxt b w = (Ret (), w') →
  ∃ cfg cfg' i,
    configRead (file w) = Some cfg
    ∧ w' = stored cfg' [EvWriteConfig cfg'] w
    ∧ list_find (λ c, Name c = Name ctxt) (Contexts cfg') = Some (i, ctxt)
    ∧ names cfg' = (if bool_decide (Name ctxt ∈ names cfg) then names cfg
                    else names cfg ++ [Name ctxt])
    ∧ Version cfg' = Version cfg.
Proof.
  intros Hset.
  destruct (configRead (file w)) as [cfg|] eqn:Hfile;
    [| destruct (SetContext_unread ctxt b w Hfile) as [msg Hmsg]; congruence].
  rewrite (SetContext_read _ _ _ _ Hfile) in Hset.
  destruct (list_find _ (Contexts cfg)) as [[i old]|] eqn:Hfind.
  - injection Hset as <-. eexists cfg, _, i. split; [done|]. split; [done|].
    pose proof Hfind as (Hi & Hold & Hfirst)%list_find_Some.
    cbn [Contexts set_Contexts Version]. split; [|split; [|done]].
    + apply list_find_Some. split; [|split; [done|]].
      * cbn [Contexts set_Contexts]. apply list_lookup_insert_eq. by eapply lookup_lt_Some.
      * cbn [Contexts set_Contexts]. intros j y Hj Hlt.
        rewrite list_lookup_insert_ne in Hj by lia. by eapply Hfirst.
    + unfold names. cbn [Contexts set_Contexts]. rewrite list_fmap_insert, <- Hold.
      rewrite list_insert_id by (by rewrite list_lookup_fmap, Hi).
      rewrite bool_decide_eq_true_2; [done|].
      apply list_elem_of_fmap. exists old. split; [done|]. by eapply list_elem_of_lookup_2.
  - destruct b; [discriminate|]. injection Hset as <-.
    eexists cfg, _, (length (Contexts cfg)). split; [done|]. split; [done|].
    cbn [Contexts Version]. split; [|split; [|done]].
    + rewrite list_find_app_r by done. cbn [list_find].
      rewrite decide_True by done. done.
    + unfold names. cbn [Contexts]. rewrite fmap_app. 
      rewrite bool_decide_eq_false_2; [done|].
      intros (c & Hc & Hin)%list_elem_of_fmap.
      apply list_find_None in Hfind. rewrite Forall_forall in Hfind.
      by apply (Hfind c).
Qed.

(** X1. [GetContext] leaves the world as it is, whatever its outcome, and
    it returns a context exactly when the configuration file holds a
    configuration, the name looked up (the given one, or the active
    context when none is given and the default is asked for) is not
    empty, and that context is the first entry stored under the name. *)
Theorem GetContext_returns_first_of_name (name : string) (d : bool) (w : World) :
  (GetContext name d w).2 = w
  ∧ ∀ c : Context,
      (GetContext name d w).1 = Ret c
      ↔ ∃ (cfg : Config) (i : nat),
          file w = Stored cfg
          ∧ lookupName name d cfg ≠ ""
          ∧ list_find (λ x, Name x = lookupName name d cfg) (Contexts cfg) = Some (i, c).
Proof.
  destruct (configRead (file w)) as [cfg|] eqn:Hread.
  - rewrite (GetContext_read _ _ _ _ Hread). cbv zeta.
    case_bool_decide as Hn.
    + split; [done|]. intros c. split; [discriminate|].
      intros (cfg' & i & Hfile & Hne & _). rewrite Hfile in Hread.
      injection Hread as ->. done.
    + destruct (list_find _ _) as [[i c']|] eqn:Hfind.
      * split; [done|]. intros c. split.
        -- intros [= <-]. destruct (file w) as [| | |cfg0] eqn:Hfile; try done.
           ++ injection Hread as <-. discriminate.
           ++ injection Hread as ->. by exists cfg, i.
        -- intros (cfg' & j & Hfile & _ & Hfind'). rewrite Hfile in Hread.
           injection Hread as ->. rewrite Hfind in Hfind'. by injection Hfind' as _ ->.
      * split; [done|]. intros c. split; [discriminate|].
        intros (cfg' & j & Hfile & _ & Hfind'). rewrite Hfile in Hread.
        injection Hread as ->. rewrite Hfind in Hfind'. discriminate.
  - destruct (GetContext_unread name d w Hread) as [msg ->].
    split; [done|]. intros c. split; [discriminate|].
    intros (cfg & i & Hfile & _). by rewrite Hfile in Hread.
Qed.

(** X2. Whenever [SetContext] returns, a [GetContext] of the name of the
    context (not empty) returns exactly the context that was set. *)
Theorem SetContext_then_GetContext
    (ctxt : Context) (b d : bool) (w w' : World) :
  SetContext ctxt b w = (Ret (), w') →
  Name ctxt ≠ "" →
  GetContext (Name ctxt) d w' = (Ret ctxt, w').
Proof.
  intros (cfg & cfg' & i & Hread & -> & Hfind & _)%SetContext_Ret Hname.
  rewrite (GetContext_read _ _ _ cfg') by done. cbv zeta.
  unfold lookupName. rewrite (bool_decide_eq_false_2 (Name ctxt = "")) by done.
  cbn [andb]. rewrite (bool_decide_eq_false_2 (Name ctxt = "")) by done.
  by rewrite Hfind.
Qed.

Lemma SetContext_then_GetContext_witness :
  let cfg' := mkConfig "v1" "dev" [Sample.prod; Sample.dev; Demo.staging] in
  GetContext "staging" false (stored cfg' [EvWriteConfig cfg'] Sample.world)
  = (Ret Demo.staging, stored cfg' [EvWriteConfig cfg'] Sample.world).
Proof.
  intros cfg'.
  apply (SetContext_then_GetContext Demo.staging false false Sample.world).
  - vm_compute. reflexivity.
  - discriminate.
Defined.

(** X3. Setting the same context again changes nothing: a second
    [SetContext] returns and writes the file that the first one wrote. *)
Theorem SetContext_twice (ctxt : Context) (b b' : bool) (w w' : World) :
  SetContext ctxt b w = (Ret (), w') →
  ∃ w'' : World, SetContext ctxt b' w' = (Ret (), w'') ∧ file w'' = file w'.
Proof.
  intros (cfg & cfg' & i & Hread & -> & Hfind & _)%SetContext_Ret.
  rewrite (SetContext_read _ _ _ cfg') by done. rewrite Hfind. cbv zeta.
  eexists. split; [reflexivity|]. cbn [file stored]. f_equal.
  apply list_find_Some in Hfind as (Hi & _).
  rewrite list_insert_id by done. by destruct cfg'.
Qed.

Lemma SetContext_twice_witness :
  ∃ w'' : World,
    SetContext (set_AccessToken "AT1" Sample.dev) true
      (stored (mkConfig "v1" "dev" [Sample.prod; set_AccessToken "AT1" Sample.dev])
         [EvWriteConfig (mkConfig "v1" "dev" [Sample.prod; set_AccessToken "AT1" Sample.dev])]
         Sample.world)
    = (Ret (), w'')
    ∧ file w''
      = file (stored (mkConfig "v1" "dev" [Sample.prod; set_AccessToken "AT1" Sample.dev])
                [EvWriteConfig
                   (mkConfig "v1" "dev" [Sample.prod; set_AccessToken "AT1" Sample.dev])]
                Sample.world).
Proof.
  apply (SetContext_twice (set_AccessToken "AT1" Sample.dev) true true Sample.world).
  vm_compute. reflexivity.
Defined.

(** X4. [SetContext] keeps the stored names free of duplicates: if no two
    entries share a name before the call, none do after it; the names
    are the old ones, with the name of the context added at the end if it
    was not among them. *)
Theorem SetContext_keeps_names_distinct
    (ctxt : Context) (b : bool) (w w' : World) (cfg : Config) :
  configRead (file w) = Some cfg →
  NoDup (names cfg) →
  SetContext ctxt b w = (Ret (), w') →
  ∃ cfg' : Config,
    file w' = Stored cfg'
    ∧ NoDup (names cfg')
    ∧ names cfg' = (if bool_decide (Name ctxt ∈ names cfg) then names cfg
                    else names cfg ++ [Name ctxt]).
Proof.
  intros Hread Hnodup (cfg0 & cfg' & i & Hread' & -> & _ & Hnames & _)%SetContext_Ret.
  rewrite Hread in Hread'. injection Hread' as <-.
  exists cfg'. split; [done|]. split; [|done]. rewrite Hnames.
  case_bool_decide as Hin; [done|].
  apply NoDup_app. split; [done|]. split; [|apply NoDup_singleton].
  intros x Hx ->%list_elem_of_singleton. done.
Qed.

Lemma SetContext_keeps_names_distinct_witness :
  ∃ cfg' : Config,
    file (SetContext (set_AccessToken "AT1" Sample.dev) true Sample.world).2 = Stored cfg'
    ∧ NoDup (names cfg')
    ∧ names cfg' = ["prod"; "dev"].
Proof.
  apply (SetContext_keeps_names_distinct (set_AccessToken "AT1" Sample.dev) true
           Sample.world (SetContext (set_AccessToken "AT1" Sample.dev) true Sample.world).2
           Sample.config).
  - reflexivity.
  - apply (bool_decide_unpack (NoDup (names Sample.config))). vm_compute. exact I.
  - vm_compute. reflexivity.
Defined.

(** X5. A context under a name that is not stored: with [failIfNotExist]
    the process ends and nothing is written; without it the context is
    appended behind the stored ones, which stay as they are, and it
    becomes the active context only if it is the first one. *)
Theorem SetContext_unknown_name (ctxt : Context) (w : World) (cfg : Config) :
  configRead (file w) = Some cfg →
  Name ctxt ∉ names cfg →
  SetContext ctxt true w
  = (Exit ("attempting to set/update non existing context '" +:+ Name ctxt +:+ "'"), w)
  ∧ (let cfg' := mkConfig (Version cfg)
                   (if bool_decide (Contexts cfg = []) then Name ctxt else ActiveContext cfg)
                   (Contexts cfg ++ [ctxt]) in
     SetContext ctxt false w = (Ret (), stored cfg' [EvWriteConfig cfg'] w)).
Proof.
  intros Hread Hnew.
  assert (list_find (λ c, Name c = Name ctxt) (Contexts cfg) = None) as Hfind.
  { apply list_find_None, Forall_forall. intros c Hc Hname. apply Hnew.
    apply list_elem_of_fmap. by exists c. }
  by rewrite !(SetContext_read _ _ _ _ Hread), Hfind.
Qed.

Lemma SetContext_unknown_name_witness :
  SetContext Demo.staging true Sample.world
  = (Exit "attempting to set/update non existing context 'staging'", Sample.world)
  ∧ (let cfg' := mkConfig "v1" "dev" [Sample.prod; Sample.dev; Demo.staging] in
     SetContext Demo.staging false Sample.world
     = (Ret (), stored cfg' [EvWriteConfig cfg'] Sample.world)).
Proof.
  apply (SetContext_unknown_name Demo.staging Sample.world Sample.config).
  - reflexivity.
  - apply (bool_decide_unpack (Name Demo.staging ∉ names Sample.config)).
    vm_compute. exact I.
Defined.

(** X6. The first context makes itself the default: when no context is
    stored yet (no file, or a configuration without contexts),
    [SetContext] without [failIfNotExist] returns, and [GetActiveContext]
    without a [--context] flag then returns that context. *)
Theorem first_context_becomes_active (ctxt : Context) (w : World) (cfg : Config) :
  configRead (file w) = Some cfg →
  Contexts cfg = [] →
  Name ctxt ≠ "" →
  ∃ w' : World,
    SetContext ctxt false w = (Ret (), w')
    ∧ GetActiveContext "" w' = (Ret ctxt, w').
Proof.
  intros Hread Hempty Hname.
  rewrite (SetContext_read _ _ _ _ Hread), Hempty. cbn [list_find]. cbv zeta.
  eexists. split; [reflexivity|].
  unfold GetActiveContext. erewrite GetContext_read by reflexivity. cbv zeta.
  unfold lookupName. cbn [andb ActiveContext Contexts bool_decide decide_rel].
  rewrite (bool_decide_eq_true_2 ("" = "")) by done.
  rewrite (bool_decide_eq_true_2 ([] = [])) by done.
  rewrite (bool_decide_eq_false_2 (Name ctxt = "")) by done.
  cbn [app list_find]. by rewrite decide_True by done.
Qed.

Lemma first_context_becomes_active_witness :
  ∃ w' : World,
    SetContext Demo.staging false (mkWorld "config.yaml" NoFile []) = (Ret (), w')
    ∧ GetActiveContext "" w' = (Ret Demo.staging, w').
Proof.
  apply (first_context_becomes_active Demo.staging (mkWorld "config.yaml" NoFile [])
           (mkConfig "v1" "" [])).
  - reflexivity.
  - reflexivity.
  - discriminate.
Defined.



(* ------------------------------------------------------------------ *)
(** ** History *)

Lemma historyToken_inj (i j : nat) : historyToken i = historyToken j → i = j.
Proof.
  unfold historyToken. intros H. injection H as H. revert H. apply (inj pretty).
Qed.

Lemma prefix_nil (s : string) : String.prefix "" s = true.
Proof. by destruct s. Qed.

Lemma HasPrefix_app (p s : string) : HasPrefix (p +:+ s) p = true.
Proof.
  unfold HasPrefix. induction p as [|c p IH]; [apply prefix_nil|].
  change (String c p +:+ s) with (String c (p +:+ s)). cbn [String.prefix].
  by destruct (ascii_dec c c).
Qed.

Lemma sliceFrom_app (p s : string) : sliceFrom (String.length p) (p +:+ s) = s.
Proof.
  induction p as [|c p IH]; [by destruct s|].
  change (String c p +:+ s) with (String c (p +:+ s)). done.
Qed.

Lemma historyToken_at (n : nat) : HasPrefix (historyToken n) "@" = true.
Proof. apply HasPrefix_app. Qed.

Lemma wellNumbered_fresh (h : History) :
  wellNumbered h → historyGet (historyToken (historyLen h + 1)) h = None.
Proof.
  intros Hwn. destruct (historyGet _ h) as [v|] eqn:Hget; [|done].
  destruct (Hwn _ (mk_is_Some _ _ Hget)) as (i & Hi & Heq).
  apply historyToken_inj in Heq. lia.
Qed.

(** Recording into a well-numbered history: the entry is new, nothing is
    overwritten, and the history stays well numbered. *)
Lemma historyPut_numbered (urn : string) (h : History) :
  wellNumbered h →
  let token := historyToken (historyLen h + 1) in
  let h' := historyPut token urn h in
  historyLen h' = historyLen h + 1
  ∧ historyGet token h' = Some urn
  ∧ (∀ k v, historyGet k h = Some v → historyGet k h' = Some v)
  ∧ wellNumbered h'.
Proof.
  intros Hwn token h'. pose proof (wellNumbered_fresh h Hwn) as Hfresh. fold token in Hfresh.
  assert (historyLen h' = historyLen h + 1) as Hlen.
  { subst h'. destruct h as [m|]; cbn in *.
    - rewrite map_size_insert_None by done. lia.
    - by rewrite map_size_singleton. }
  assert (∀ k, historyGet k h' = if decide (token = k) then Some urn else historyGet k h)
    as Hget.
  { intros k. subst h'. destruct h as [m|]; cbn.
    - apply lookup_insert.
    - apply lookup_singleton. }
  split; [done|]. split; [by rewrite Hget, decide_True|]. split.
  - intros k v Hk. rewrite Hget. case_decide as Heq; [|done].
    subst k. congruence.
  - intros k Hk. rewrite Hget in Hk. rewrite Hlen. case_decide as Heq.
    + exists (historyLen h + 1). split; [lia|done].
    + destruct (Hwn k Hk) as (i & Hi & ->). exists i. split; [lia|done].
Qed.

Lemma callHistory_numbered (c : HistoryCall) (h : History) :
  wellNumbered h →
  wellNumbered (callHistory c h).2
  ∧ ∀ k v, historyGet k h = Some v → historyGet k (callHistory c h).2 = Some v.
Proof.
  intros Hwn. destruct c as [[urn|] | [s|]]; cbn [callHistory MakeHistory MakeMaybeHistory];
    try done.
  - destruct (historyPut_numbered urn h Hwn) as (_ & _ & ? & ?). done.
  - cbv zeta. destruct (negb _); [done|].
    match goal with |- context [historyPut _ ?u h] =>
      destruct (historyPut_numbered u h Hwn) as (_ & _ & ? & ?) end. done.
Qed.

Lemma callsHistory_numbered (cs : list HistoryCall) (h : History) :
  wellNumbered h →
  wellNumbered (callsHistory cs h)
  ∧ ∀ k v, historyGet k h = Some v → historyGet k (callsHistory cs h) = Some v.
Proof.
  revert h. induction cs as [|c cs IH]; intros h Hwn; [done|].
  destruct (callHistory_numbered c h Hwn) as [Hwn' Hkeep].
  destruct (IH _ Hwn') as [Hwn'' Hkeep']. cbn [callsHistory]. split; [done|].
  intros k v Hk. by apply Hkeep', Hkeep.
Qed.

Lemma wellNumbered_nil : wellNumbered None.
Proof. intros k [v Hv]. discriminate. Qed.

(** X8. [MakeHistory] hands out the tokens [@1], [@2], ... in order.
    After any run of [MakeHistory] and [MakeMaybeHistory] calls from the
    nil history, a further [MakeHistory] of an identifier returns the
    token numbered by the length of the history plus one; that token was
    not in use, the history grows by one entry, and every earlier entry
    is kept. *)
Theorem MakeHistory_numbers_consecutively (cs : list HistoryCall) (urn : string) :
  let h := callsHistory cs None in
  let r := MakeHistory (Some urn) h in
  r.1 = historyToken (historyLen h + 1)
  ∧ historyGet r.1 h = None
  ∧ historyLen r.2 = historyLen h + 1
  ∧ ∀ k v, historyGet k h = Some v → historyGet k r.2 = Some v.
Proof.
  intros h r.
  destruct (callsHistory_numbered cs None wellNumbered_nil) as [Hwn _]. fold h in Hwn.
  destruct (historyPut_numbered urn h Hwn) as (Hlen & _ & Hkeep & _).
  split; [done|]. split; [by apply wellNumbered_fresh|]. done.
Qed.

(** X9. Round trip through the history file: a token that [MakeHistory]
    returned resolves, in [GetHistory] of a later run, to the identifier
    it was made for, whatever else the run recorded before and after it
    and whatever the file held before [saveHistory] replaced it. *)
Theorem history_round_trip
    (before after : list HistoryCall) (urn path : string) (hf : HistoryFile) :
  let r := MakeHistory (Some urn) (callsHistory before None) in
  GetHistory path r.1 (saveHistory (callsHistory after r.2) hf) = Ret urn.
Proof.
  intros r.
  destruct (callsHistory_numbered before None wellNumbered_nil) as [Hwn _].
  destruct (historyPut_numbered urn _ Hwn) as (_ & Hget & _ & Hwn').
  destruct (callsHistory_numbered after r.2 Hwn') as [_ Hkeep].
  specialize (Hkeep _ _ Hget).
  unfold GetHistory. cbn [r MakeHistory fst]. rewrite historyToken_at. cbn [negb].
  cbn [r MakeHistory fst snd] in Hkeep.
  destruct (callsHistory after _) as [m|]; [|discriminate].
  cbn [saveHistory]. cbn in Hkeep. by rewrite Hkeep.
Qed.

(** X10. [GetHistory] returns its argument itself when that does not
    start with [@] (whatever the state of the history file), and
    otherwise only the value that the stored history holds under it:
    an unknown token, or a history file that is missing or damaged, ends
    the process instead of giving a wrong identifier. *)
Theorem GetHistory_returns_stored_value
    (path token : string) (hf : HistoryFile) (v : string) :
  (HasPrefix token "@" = false → GetHistory path token hf = Ret token)
  ∧ (HasPrefix token "@" = true →
     (GetHistory path token hf = Ret v
      ↔ ∃ m : gmap string string, hf = HStored m ∧ m !! token = Some v)).
Proof.
  unfold GetHistory. split; intros ->; cbn [negb]; [done|].
  destruct hf as [| | why | m].
  - split; [discriminate | by intros (m & ? & _)].
  - split; [discriminate | by intros (m & ? & _)].
  - split; [discriminate | by intros (m & ? & _)].
  - destruct (m !! token) as [v'|] eqn:Hm.
    + split.
      * intros [= ->]. by exists m.
      * intros (m' & [= <-] & Hv). rewrite Hm in Hv. by injection Hv as ->.
    + split; [discriminate|]. intros (m' & [= <-] & Hv). congruence.
Qed.



(* ------------------------------------------------------------------ *)
(** ** Printing helpers *)

Lemma length_app_string (a b : string) :
  String.length (a +:+ b) = String.length a + String.length b.
Proof.
  induction a as [|c a IH]; [done|].
  change (String c a +:+ b) with (String c (a +:+ b)). cbn [String.length]. by rewrite IH.
Qed.

Lemma length_sliceTo (n : nat) (s : string) :
  String.length (sliceTo n s) = n `min` String.length s.
Proof.
  revert s. induction n as [|n IH]; intros [|c s]; cbn; try done. by rewrite IH.
Qed.

Lemma sliceTo_prefix (n : nat) (s : string) :
  n ≤ String.length s → ∃ rest, s = sliceTo n s +:+ rest.
Proof.
  revert s. induction n as [|n IH]; intros s Hn.
  - by exists s.
  - destruct s as [|c s]; cbn in Hn; [lia|].
    destruct (IH s) as [rest Hrest]; [lia|]. exists rest. cbn [sliceTo].
    change (String c (sliceTo n s) +:+ rest) with (String c (sliceTo n s +:+ rest)).
    by rewrite <- Hrest.
Qed.

(** X12. [safeTruncString] never returns more than [MAX_NAME_COL_LEN] = 30
    bytes.  A value of at most 30 bytes is returned as it is; a longer one
    is cut to its first 27 bytes followed by three dots, 30 bytes in
    all; nil gives three question marks. *)
Theorem safeTruncString_bounded (input : option string) :
  String.length (safeTruncString input) ≤ MAX_NAME_COL_LEN
  ∧ safeTruncString None = "???"
  ∧ (∀ s, input = Some s →
       (String.length s ≤ MAX_NAME_COL_LEN → safeTruncString input = s)
       ∧ (MAX_NAME_COL_LEN < String.length s →
          String.length (safeTruncString input) = MAX_NAME_COL_LEN
          ∧ ∃ rest, s = sliceTo 27 s +:+ rest
                    ∧ safeTruncString input = sliceTo 27 s +:+ "...")).
Proof.
  unfold safeTruncString, MAX_NAME_COL_LEN. split; [|split; [done|]].
  - cbv zeta. generalize (match input with Some s => s | None => "???" end). intros out.
    case_bool_decide as Hlen; [|lia].
    rewrite length_app_string, length_sliceTo. cbn [String.length]. lia.
  - intros s ->. split.
    + intros Hs. by rewrite bool_decide_eq_false_2 by lia.
    + intros Hs. rewrite bool_decide_eq_true_2 by done. split.
      * rewrite length_app_string, length_sliceTo. cbn [String.length]. lia.
      * destruct (sliceTo_prefix 27 s) as [rest Hrest]; [lia|]. by exists rest.
Qed.

(* ------------------------------------------------------------------ *)
(** ** Order parameters *)

Lemma Cut_app (sep : ascii) (before after : string) :
  free_of sep before →
  Cut sep (before +:+ String sep after) = Some (before, after).
Proof.
  unfold free_of. induction before as [|c before IH]; intros Hfree.
  - change ("" +:+ String sep after) with (String sep after). cbn [Cut].
    by rewrite bool_decide_eq_true_2.
  - change (String c before +:+ String sep after)
      with (String c (before +:+ String sep after)).
    cbn [Cut]. cbn [String.list_ascii_of_string] in Hfree.
    rewrite bool_decide_eq_false_2 by (intros ->; apply Hfree; left).
    rewrite IH; [done|]. intros Hin. apply Hfree. by right.
Qed.

Lemma Cut_Some (sep : ascii) (s before after : string) :
  Cut sep s = Some (before, after) →
  s = before +:+ String sep after ∧ free_of sep before.
Proof.
  unfold free_of. revert before. induction s as [|c s IH]; intros before; [discriminate|].
  cbn [Cut]. case_bool_decide as Hc.
  - intros [= <- <-]. subst c. split; [done|]. cbn. apply not_elem_of_nil.
  - destruct (Cut sep s) as [[b a]|]; [|discriminate].
    intros [= <- <-]. destruct (IH b eq_refl) as [-> Hfree]. split; [done|].
    cbn [String.list_ascii_of_string]. intros [->|Hin]%elem_of_cons; [done|]. by apply Hfree.
Qed.

(** The argument [name=value], as the shell passes it. *)
Lemma SplitN2_cases (sep : ascii) (s : string) :
  (∃ before after, SplitN2 sep s = [before; after] ∧ Cut sep s = Some (before, after))
  ∨ (SplitN2 sep s = [s] ∧ Cut sep s = None).
Proof.
  unfold SplitN2. destruct (Cut sep s) as [[b a]|]; [left; by eexists _, _ | by right].
Qed.

(** X13. The parameter loop of [createOrderCmd] returns exactly when every
    argument is [name=value], cut at its first [=], with a name that the
    service defines (or with the check skipped); it then returns one
    parameter per argument, in order, with that name and that value.  The
    value may be empty and may contain further [=] signs. *)
Theorem parseParameters_spec
    (skip : bool) (paramSet : gset string) (args : list string)
    (params : list ParameterT) :
  parseParameters skip paramSet args = Ret params
  ↔ Forall2 (parameterOf skip paramSet) args params.
Proof.
  revert params. induction args as [|ps args IH]; intros params.
  - cbn. split; [intros [= <-]; constructor | by intros ->%Forall2_nil_inv_l].
  - cbn [parseParameters].
    destruct (SplitN2_cases "=" ps) as [(name & value & -> & Hcut) | [-> Hcut]].
    + unfold parameterOf. apply Cut_Some in Hcut as [-> Hfree].
      destruct (negb skip && negb (bool_decide (name ∈ paramSet))) eqn:Hcheck.
      * split; [discriminate|].
        intros (p & params' & (n & v & Heq & Hn & Hdef & _) & _ & _)%Forall2_cons_inv_l.
        assert (Cut "=" (n +:+ String "="%char v) = Some (n, v)) as Hc by by apply Cut_app.
        rewrite <- Heq, Cut_app in Hc by done. injection Hc as <- <-.
        apply andb_true_iff in Hcheck as [Hs Hp]. destruct skip; [done|].
        rewrite bool_decide_eq_true_2 in Hp by auto. done.
      * destruct (parseParameters skip paramSet args) as [params'| | |] eqn:Hrest.
        -- split.
           ++ intros [= <-]. constructor; [|by apply IH].
              exists name, value. split; [done|]. split; [done|]. split; [|done].
              intros ->. cbn in Hcheck. by case_bool_decide.
           ++ intros (p & ps' & (n & v & Heq & Hn & _ & ->) & Hall & ->)%Forall2_cons_inv_l.
              assert (Cut "=" (n +:+ String "="%char v) = Some (n, v)) as Hc by by apply Cut_app.
              rewrite <- Heq, Cut_app in Hc by done. injection Hc as <- <-.
              apply IH in Hall. by injection Hall as ->.
        -- split; [discriminate|].
           intros (p & ps' & _ & Hall & _)%Forall2_cons_inv_l. by apply IH in Hall.
        -- split; [discriminate|].
           intros (p & ps' & _ & Hall & _)%Forall2_cons_inv_l. by apply IH in Hall.
        -- split; [discriminate|].
           intros (p & ps' & _ & Hall & _)%Forall2_cons_inv_l. by apply IH in Hall.
    + unfold parameterOf. split; [discriminate|].
      intros (p & params' & (n & v & -> & Hn & _) & _ & _)%Forall2_cons_inv_l.
      by rewrite Cut_app in Hcut.
Qed.

(** X14. The first argument that does not pass ends the process with a
    message naming it, whatever follows: an argument without [=] cannot
    be parsed, and a name that the service does not define is refused
    unless the check is skipped. *)
Theorem parseParameters_first_bad_argument
    (skip : bool) (paramSet : gset string) (good rest : list string) (bad : string)
    (params : list ParameterT) :
  parseParameters skip paramSet good = Ret params →
  (free_of "=" bad →
     parseParameters skip paramSet (good ++ bad :: rest)
     = Exit ("cannot parse parameter argument '" +:+ bad +:+ "'"))
  ∧ (∀ name value : string,
       bad = (name +:+ String "=" value) →
       free_of "=" name →
       skip = false →
       name ∉ paramSet →
       parseParameters skip paramSet (good ++ bad :: rest)
       = Exit ("parameter '" +:+ name +:+ "' is not defined by the requested service")).
Proof.
  revert params. induction good as [|ps good IH]; intros params Hgood.
  - cbn [app parseParameters]. split.
    + intros Hfree. destruct (SplitN2_cases "=" bad) as [(n & v & _ & Hcut) | [-> _]]; [|done].
      apply Cut_Some in Hcut as [-> _]. exfalso. apply Hfree.
      clear. induction n as [|c n IHn]; [by left|]. right. apply IHn.
    + intros name value -> Hfree -> Hundef. unfold SplitN2. rewrite Cut_app by done.
      cbn [negb andb]. by rewrite bool_decide_eq_false_2.
  - cbn [app parseParameters] in *.
    destruct (SplitN2 "=" ps) as [|name [|value [|? ?]]]; try discriminate.
    destruct (negb skip && negb (bool_decide (name ∈ paramSet))); [discriminate|].
    destruct (parseParameters skip paramSet good) as [params'| | |]; try discriminate.
    destruct (IH params' eq_refl) as [H1 H2]. split.
    + intros Hfree. by rewrite H1.
    + intros n v Hbad Hfree Hskip Hundef. by rewrite (H2 n v).
Qed.

Lemma parseParameters_first_bad_argument_witness :
  parseParameters false {[ "msg" ]} (["msg=Hello=World"] ++ "verbose" :: ["x=1"])
  = Exit "cannot parse parameter argument 'verbose'"
  ∧ parseParameters false {[ "msg" ]} (["msg=Hello=World"] ++ "colour=red" :: ["x=1"])
    = Exit "parameter 'colour' is not defined by the requested service".
Proof.
  assert (parseParameters false {[ "msg" ]} ["msg=Hello=World"]
          = Ret [mkParameterT (Some "msg") (Some "Hello=World")]) as Hgood.
  { vm_compute. reflexivity. }
  split.
  - apply (proj1 (parseParameters_first_bad_argument false {[ "msg" ]}
                    ["msg=Hello=World"] ["x=1"] "verbose"
                    [mkParameterT (Some "msg") (Some "Hello=World")] Hgood)).
    apply (bool_decide_unpack ("="%char ∉ String.list_ascii_of_string "verbose")).
    vm_compute. exact I.
  - apply (proj2 (parseParameters_first_bad_argument false {[ "msg" ]}
                    ["msg=Hello=World"] ["x=1"] "colour=red"
                    [mkParameterT (Some "msg") (Some "Hello=World")] Hgood)
             "colour" "red").
    + reflexivity.
    + apply (bool_decide_unpack ("="%char ∉ String.list_ascii_of_string "colour")).
      vm_compute. exact I.
    + reflexivity.
    + apply (bool_decide_unpack ("colour" ∉ ({[ "msg" ]} : gset string))).
      vm_compute. exact I.
Defined.

(* ------------------------------------------------------------------ *)
(** ** The check for a newer release *)

Lemma Sub_lt_interval (t u : Time) :
  (Sub t u < CHECK_VERSION_INTERVAL)%Z ↔ (t - u < CHECK_VERSION_INTERVAL)%Z.
Proof.
  unfold Sub, CHECK_VERSION_INTERVAL, Int64.min_int, Int64.max_int, Second. lia.
Qed.

Lemma checkForUpdates_tooSoon (v : string) (env : UpdateEnv) (lastCheck : Time) :
  (up_now env - lastCheck < CHECK_VERSION_INTERVAL)%Z →
  checkForUpdates v env (Stamp lastCheck) = ([], Stamp lastCheck).
Proof.
  intros Hsoon. unfold checkForUpdates.
  by rewrite bool_decide_eq_true_2 by by apply Sub_lt_interval.
Qed.

Lemma checkForUpdates_due (v : string) (env : UpdateEnv) (f : StampFile) :
  checkDue (up_now env) f →
  ∃ before checked after,
    checkForUpdates v env f
    = (before ++ [UpHead RELEASE_CHECK_URL] ++ checked ++ after,
       if up_writable env then Stamp (toSecond (up_now_stamp env)) else f)
    ∧ heads before = 0 ∧ notices before = 0
    ∧ heads checked = 0
    ∧ heads after = 0 ∧ notices after = 0
    ∧ checked = match up_head env with
                | HeadError _ => [UpDebug "checkForUpdates: while checking github"]
                | HeadNoLocation _ => [UpDebug "checkForUpdates: while getting location"]
                | HeadLocation path =>
                    let latest := TrimPrefix (lastPart (Split "/" path)) "v" in
                    let current := TrimPrefix (firstPart (Split "|" v)) "v" in
                    if bool_decide (current ≠ latest) then upgradeNotice latest current
                    else []
                end.
Proof.
  intros Hdue. unfold checkForUpdates.
  assert (match f with
          | Stamp lastCheck =>
              bool_decide (Sub (up_now env) lastCheck < CHECK_VERSION_INTERVAL)%Z
          | _ => false
          end = false) as ->.
  { destruct f as [| | t]; try done. apply bool_decide_eq_false_2.
    rewrite Sub_lt_interval. specialize (Hdue t eq_refl). lia. }
  exists (match f with
          | StampGarbage => [UpDebug "cannot parse data in version check file"]
          | _ => []
          end),
         (match up_head env with
          | HeadError _ => [UpDebug "checkForUpdates: while checking github"]
          | HeadNoLocation _ => [UpDebug "checkForUpdates: while getting location"]
          | HeadLocation path =>
              let latest := TrimPrefix (lastPart (Split "/" path)) "v" in
              let current := TrimPrefix (firstPart (Split "|" v)) "v" in
              if bool_decide (current ≠ latest) then upgradeNotice latest current
              else []
          end),
         (if up_writable env then []
          else [UpDebug "cannot write version check timestamp"]).
  split.
  - by destruct (up_writable env).
  - split_and!; try reflexivity.
    + by destruct f.
    + by destruct f.
    + destruct (up_head env); try done. cbv zeta. by case_bool_decide.
    + by destruct (up_writable env).
    + by destruct (up_writable env).
Qed.

Lemma heads_app (a b : list UpdateEvent) : heads (a ++ b) = heads a + heads b.
Proof. unfold heads. by rewrite filter_app, length_app. Qed.

Lemma notices_app (a b : list UpdateEvent) : notices (a ++ b) = notices a + notices b.
Proof. unfold notices. by rewrite filter_app, length_app. Qed.

(** X15. [checkForUpdates] asks at most once a day.  With a timestamp
    less than 24 hours old it does nothing at all: no request, no output,
    the file as it was.  Otherwise (no file, no timestamp in it, or an
    older one) it sends exactly one HEAD request, and when the file can
    be written it then holds the instant of the check, cut to the
    second. *)
Theorem checkForUpdates_once_a_day (v : string) (env : UpdateEnv) (f : StampFile) :
  (∀ lastCheck : Time,
     f = Stamp lastCheck →
     (up_now env - lastCheck < CHECK_VERSION_INTERVAL)%Z →
     checkForUpdates v env f = ([], f))
  ∧ (checkDue (up_now env) f →
     heads (checkForUpdates v env f).1 = 1
     ∧ (up_writable env = true →
        (checkForUpdates v env f).2 = Stamp (toSecond (up_now_stamp env)))).
Proof.
  split.
  - intros lastCheck -> Hsoon. by apply checkForUpdates_tooSoon.
  - intros Hdue.
    destruct (checkForUpdates_due v env f Hdue)
      as (before & checked & after & -> & Hb & _ & Hc & Ha & _ & _).
    cbn [fst snd]. split.
    + rewrite !heads_app, Hb, Hc, Ha. reflexivity.
    + by intros ->.
Qed.

Lemma checkForUpdates_once_a_day_witness :
  (∀ lastCheck : Time,
     Stamp 1700000000000000000%Z = Stamp lastCheck →
     (up_now Demo.nextMorning - lastCheck < CHECK_VERSION_INTERVAL)%Z →
     checkForUpdates "v0.24.1|c0ffee" Demo.nextMorning (Stamp 1700000000000000000%Z)
     = ([], Stamp 1700000000000000000%Z))
  ∧ heads (checkForUpdates "v0.24.1|c0ffee" Demo.firstCheck StampUnreadable).1 = 1
  ∧ (checkForUpdates "v0.24.1|c0ffee" Demo.firstCheck StampUnreadable).2
    = Stamp 1700000000000000000%Z.
Proof.
  split.
  - apply (proj1 (checkForUpdates_once_a_day "v0.24.1|c0ffee" Demo.nextMorning
                    (Stamp 1700000000000000000%Z))).
  - assert (checkDue (up_now Demo.firstCheck) StampUnreadable) as Hdue by discriminate.
    destruct (proj2 (checkForUpdates_once_a_day "v0.24.1|c0ffee" Demo.firstCheck
                       StampUnreadable) Hdue) as [Hheads Hstamp].
    split; [exact Hheads|]. exact (Hstamp eq_refl).
Defined.

(** X16. An attempt counts as a check: whatever the HEAD request of a
    due check gave (also a transport error), once its timestamp is
    written a further call within 24 hours of it does nothing. *)
Theorem checkForUpdates_failed_check_counts
    (v v' : string) (env env' : UpdateEnv) (f : StampFile) :
  checkDue (up_now env) f →
  up_writable env = true →
  (up_now env' - toSecond (up_now_stamp env) < CHECK_VERSION_INTERVAL)%Z →
  checkForUpdates v' env' (checkForUpdates v env f).2
  = ([], Stamp (toSecond (up_now_stamp env))).
Proof.
  intros Hdue Hw Hsoon.
  destruct (checkForUpdates_due v env f Hdue) as (before & checked & after & -> & _).
  cbn [snd]. rewrite Hw. by apply checkForUpdates_tooSoon.
Qed.

Lemma checkForUpdates_failed_check_counts_witness :
  checkForUpdates "v0.24.1|c0ffee" Demo.nextMorning
    (checkForUpdates "v0.24.1|c0ffee" Demo.firstCheck StampGarbage).2
  = ([], Stamp 1700000000000000000%Z).
Proof.
  apply (checkForUpdates_failed_check_counts "v0.24.1|c0ffee" "v0.24.1|c0ffee"
           Demo.firstCheck Demo.nextMorning StampGarbage).
  - discriminate.
  - reflexivity.
  - vm_compute. reflexivity.
Defined.

Lemma Split_nonempty (sep : ascii) (s : string) : Split sep s ≠ [].
Proof.
  destruct s as [|c s]; cbn [Split]; [done|].
  case_bool_decide; [done|]. by destruct (Split sep s).
Qed.

Lemma Split_app (sep : ascii) (d r : string) :
  Split sep (d +:+ String sep r) = Split sep d ++ Split sep r.
Proof.
  induction d as [|c d IH].
  - change ("" +:+ String sep r) with (String sep r). cbn [Split].
    by rewrite bool_decide_eq_true_2.
  - change (String c d +:+ String sep r) with (String c (d +:+ String sep r)).
    cbn [Split]. rewrite IH. case_bool_decide; [done|].
    pose proof (Split_nonempty sep d). by destruct (Split sep d).
Qed.

Lemma Split_free (sep : ascii) (s : string) : free_of sep s → Split sep s = [s].
Proof.
  unfold free_of. induction s as [|c s IH]; intros Hfree; [done|].
  cbn [Split]. cbn [String.list_ascii_of_string] in Hfree.
  rewrite bool_decide_eq_false_2 by (intros ->; apply Hfree; left).
  rewrite IH; [done|]. intros Hin. apply Hfree. by right.
Qed.

Lemma lastPart_Split (sep : ascii) (d t : string) :
  free_of sep t → lastPart (Split sep (d +:+ String sep t)) = t.
Proof.
  intros Hfree. rewrite Split_app, (Split_free _ _ Hfree).
  unfold lastPart. apply List.last_last.
Qed.

Lemma firstPart_Split (sep : ascii) (v rest : string) :
  free_of sep v → firstPart (Split sep (v +:+ String sep rest)) = v.
Proof.
  intros Hfree. by rewrite Split_app, (Split_free _ _ Hfree).
Qed.

Lemma TrimPrefix_app (p s : string) : TrimPrefix (p +:+ s) p = s.
Proof. unfold TrimPrefix. by rewrite HasPrefix_app, sliceFrom_app. Qed.

(** X17. The versions are compared as text, for inequality only.  With a
    redirect to [.../<tag>] and a current version [<ver>] or
    [<ver>|<build>], a due check prints the notice exactly when [<ver>]
    and [<tag>] differ once a leading [v] is removed from each (so also
    when the running version is the newer one), and prints nothing
    else. *)
Theorem checkForUpdates_compares_versions
    (env : UpdateEnv) (f : StampFile) (dir tag ver build currentVersion : string) :
  checkDue (up_now env) f →
  up_head env = HeadLocation (dir +:+ String "/" tag) →
  free_of "/" tag →
  free_of "|" ver →
  currentVersion = ver ∨ currentVersion = ver +:+ String "|" build →
  ∃ before after : list UpdateEvent,
    (checkForUpdates currentVersion env f).1
    = before
      ++ (if bool_decide (TrimPrefix ver "v" = TrimPrefix tag "v") then []
          else upgradeNotice (TrimPrefix tag "v") (TrimPrefix ver "v"))
      ++ after
    ∧ notices before = 0 ∧ notices after = 0.
Proof.
  intros Hdue Hhead Htag Hver Hcurrent.
  destruct (checkForUpdates_due currentVersion env f Hdue)
    as (before & checked & after & Hrun & _ & Hb & _ & _ & Ha & Hchecked).
  rewrite Hrun. cbn [fst].
  rewrite Hhead in Hchecked. cbv zeta in Hchecked.
  assert (firstPart (Split "|" currentVersion) = ver) as Hfirst.
  { destruct Hcurrent as [-> | ->]; [by rewrite Split_free | by apply firstPart_Split]. }
  rewrite lastPart_Split, Hfirst in Hchecked by done.
  exists (before ++ [UpHead RELEASE_CHECK_URL]), after.
  split; [|split; [|done]].
  - rewrite <- !app_assoc. do 2 f_equal. subst checked.
    case_bool_decide as Hne.
    + by rewrite bool_decide_eq_false_2 by auto.
    + by rewrite bool_decide_eq_true_2.
  - rewrite notices_app, Hb. reflexivity.
Qed.

Lemma checkForUpdates_compares_versions_witness :
  ∃ before after : list UpdateEvent,
    (checkForUpdates "v0.25.0|c0ffee" Demo.nextMorning StampUnreadable).1
    = before
      ++ (if bool_decide (TrimPrefix "v0.25.0" "v" = TrimPrefix "v0.24.1" "v") then []
          else upgradeNotice (TrimPrefix "v0.24.1" "v") (TrimPrefix "v0.25.0" "v"))
      ++ after
    ∧ notices before = 0 ∧ notices after = 0.
Proof.
  apply (checkForUpdates_compares_versions Demo.nextMorning StampUnreadable
           "/reinventingscience/ivcap-cli/releases/tag" "v0.24.1" "v0.25.0" "c0ffee"
           "v0.25.0|c0ffee").
  - discriminate.
  - reflexivity.
  - apply (bool_decide_unpack ("/"%char ∉ String.list_ascii_of_string "v0.24.1")).
    vm_compute. exact I.
  - apply (bool_decide_unpack ("|"%char ∉ String.list_ascii_of_string "v0.25.0")).
    vm_compute. exact I.
  - by right.
Defined.

(* ------------------------------------------------------------------ *)
(** ** More on provider discovery *)

(** Every outcome of a discovery on a context, with the events it logs
    after the request. *)
Lemma getLoginInformation_cases (ctxt : Context) (reply : GetReply) (w : World) :
  ∃ (o : Outcome (Res AuthProvider)) (evs : list Event),
    getLoginInformation (Some ctxt) reply w
    = (o, logged ([EvPrint ("Sending Request to " +:+ URL ctxt +:+ LF);
                   EvHttpGet (URL ctxt +:+ "/1/authinfo.yaml")] ++ evs) w)
    ∧ network_calls evs = 0 ∧ config_writes evs = 0
    ∧ match reply with
      | GetTransportError why => o = Ret (Err ("Cannot request login info - " +:+ why))
      | GetBody None => o = Ret (Err "unknown response from Login Service")
      | GetBody (Some responseMap) =>
          if is_true (responseMap !! "fault")
          then o = Ret (Err "login service has returned a fault")
          else match responseMap !! "version" with
               | None => o = Panic
               | Some versionNum =>
                   if is_int_one versionNum
                   then match decodeAuthInfo (responseMap !! "auth") with
                        | None => o = Ret (Err "could not process login service response (auth providers)")
                        | Some authInfo =>
                            if bool_decide (AuthProviders authInfo = ∅)
                            then o = Ret (Err "Login Service returned invalid data (No Providers)")
                            else match AuthProviders authInfo !! DefaultProviderId authInfo with
                                 | Some p => o = Ret (Ok p)
                                 | None => o = Ret (Err "Login Service returned invalid data (No Default Provider)")
                                 end
                        end
                   else o = Ret (Err "client out of date: Please update this application")
               end
      end.
Proof.
  unfold getLoginInformation, cmd_bind. rewrite !emit_logged, logged_logged.
  destruct reply as [why | [responseMap|]].
  - eexists _, []. by rewrite app_nil_r.
  - destruct (is_true _).
    { rewrite emit_logged, logged_logged. by eexists _, [_]. }
    destruct (responseMap !! "version") as [versionNum|].
    2: { rewrite emit_logged, logged_logged. by eexists _, [_]. }
    destruct (is_int_one versionNum).
    2: { rewrite emit_logged, logged_logged. by eexists _, [_]. }
    rewrite emit_logged, logged_logged.
    destruct (decodeAuthInfo _) as [authInfo|]; [|by eexists _, [_]].
    case_bool_decide as Hsize.
    + rewrite bool_decide_eq_false_2 by (intros Heq; apply Hsize; by apply map_size_empty_iff).
      unfold GetDefaultProvider.
      destruct (AuthProviders authInfo !! DefaultProviderId authInfo); by eexists _, [_].
    + apply map_size_empty_iff in Hsize.
      rewrite bool_decide_eq_true_2 by done. by eexists _, [_].
  - eexists _, []. by rewrite app_nil_r.
Qed.

Lemma is_int_one_true (v : goval) : is_int_one v = true → v = GInt 1.
Proof.
  destruct v as [| | z | | | |]; try done.
  destruct z as [|q|q]; try done. by destruct q.
Qed.

(** X18. Whatever the answer, a discovery on a context sends exactly one
    request, the GET of [/1/authinfo.yaml] under the URL of the context,
    and never touches the configuration file; on a nil context it returns
    an error without doing anything. *)
Theorem getLoginInformation_one_request (ctxt : Context) (reply : GetReply) (w : World) :
  let run := getLoginInformation (Some ctxt) reply w in
  network_calls (trace run.2) = network_calls (trace w) + 1
  ∧ EvHttpGet (URL ctxt +:+ "/1/authinfo.yaml") ∈ trace run.2
  ∧ config_writes (trace run.2) = config_writes (trace w)
  ∧ file run.2 = file w
  ∧ getLoginInformation None reply w
    = (Ret (Err "Invalid config set. Please set a valid config with the config command."), w).
Proof.
  destruct (getLoginInformation_cases ctxt reply w) as (o & evs & -> & Hnet & Hwr & _).
  cbn [snd logged trace file]. split_and!; try done.
  - rewrite !network_calls_app, Hnet.
    change (network_calls [_; _]) with 1. lia.
  - apply elem_of_app. right. apply elem_of_app. left. apply elem_of_cons. right.
    apply elem_of_cons. by left.
  - rewrite !config_writes_app, Hwr.
    change (config_writes [_; _]) with 0. lia.
Qed.

(** X19. Discovery returns a provider only from a decoded document
    without fault flag whose version is the integer 1, whose [auth] part
    decodes, and whose default provider id is a key of the provider map;
    the provider is the entry under that key. *)
Theorem getLoginInformation_Ok_iff
    (ctxt : Context) (reply : GetReply) (w : World) (p : AuthProvider) :
  (getLoginInformation (Some ctxt) reply w).1 = Ret (Ok p)
  ↔ ∃ (responseMap : gmap string goval) (authInfo : AuthInfo),
      reply = GetBody (Some responseMap)
      ∧ is_true (responseMap !! "fault") = false
      ∧ responseMap !! "version" = Some (GInt 1)
      ∧ decodeAuthInfo (responseMap !! "auth") = Some authInfo
      ∧ AuthProviders authInfo !! DefaultProviderId authInfo = Some p.
Proof.
  destruct (getLoginInformation_cases ctxt reply w) as (o & evs & -> & _ & _ & Ho).
  cbn [fst]. split.
  - intros ->. destruct reply as [why | [responseMap|]]; try discriminate.
    destruct (is_true _) eqn:Hfault; [discriminate|].
    destruct (responseMap !! "version") as [versionNum|] eqn:Hv; [|discriminate].
    destruct (is_int_one versionNum) eqn:Hone; [|discriminate].
    apply is_int_one_true in Hone as ->.
    destruct (decodeAuthInfo _) as [authInfo|] eqn:Hauth; [|discriminate].
    case_bool_decide; [discriminate|].
    destruct (AuthProviders authInfo !! DefaultProviderId authInfo) as [p'|] eqn:Hp;
      [|discriminate].
    injection Ho as ->. by exists responseMap, authInfo.
  - intros (responseMap & authInfo & -> & Hfault & Hv & Hauth & Hp).
    rewrite Hfault, Hv, Hauth, Hp in Ho. cbn [is_int_one] in Ho.
    rewrite bool_decide_eq_false_2 in Ho; [done|].
    intros Hempty. rewrite Hempty in Hp. by rewrite lookup_empty in Hp.
Qed.

(** X20. Discovery never ends the process through [cobra.CheckErr] and
    never blocks; the one way it does not return is the crash on a
    decoded document that has neither a fault flag nor a version. *)
Theorem getLoginInformation_Panic_iff (ctxt : Context) (reply : GetReply) (w : World) :
  ((getLoginInformation (Some ctxt) reply w).1 = Panic
   ↔ ∃ responseMap : gmap string goval,
       reply = GetBody (Some responseMap)
       ∧ is_true (responseMap !! "fault") = false
       ∧ responseMap !! "version" = None)
  ∧ (∀ msg, (getLoginInformation (Some ctxt) reply w).1 ≠ Exit msg)
  ∧ (getLoginInformation (Some ctxt) reply w).1 ≠ Running.
Proof.
  destruct (getLoginInformation_cases ctxt reply w) as (o & evs & -> & _ & _ & Ho).
  cbn [fst].
  assert ((∃ r, o = Ret r) ∨
          (o = Panic ∧ ∃ responseMap, reply = GetBody (Some responseMap)
                        ∧ is_true (responseMap !! "fault") = false
                        ∧ responseMap !! "version" = None)) as Hcases.
  { destruct reply as [why | [responseMap|]]; [by left; eexists | | by left; eexists].
    destruct (is_true _) eqn:Hfault; [by left; eexists|].
    destruct (responseMap !! "version") as [versionNum|] eqn:Hv;
      [|right; split; [done|]; by exists responseMap].
    destruct (is_int_one versionNum); [|by left; eexists].
    destruct (decodeAuthInfo _) as [authInfo|]; [|by left; eexists].
    case_bool_decide; [by left; eexists|].
    destruct (AuthProviders authInfo !! DefaultProviderId authInfo); by left; eexists. }
  destruct Hcases as [[r ->] | [-> Hdoc]].
  - split_and!; [|done|done]. split; [discriminate|].
    intros (responseMap & -> & Hfault & Hv). by rewrite Hfault, Hv in Ho.
  - by split_and!.
Qed.

(** X21. Precedence and missing keys in the discovery document: a fault
    flag is reported whatever the version is, even when there is none; a
    version-1 document whose provider map is empty (or absent) is refused,
    and so is one whose default provider id is not a key of the map. *)
Theorem getLoginInformation_missing_provider
    (ctxt : Context) (responseMap : gmap string goval) (w : World) :
  (is_true (responseMap !! "fault") = true →
     (getLoginInformation (Some ctxt) (GetBody (Some responseMap)) w).1
     = Ret (Err "login service has returned a fault"))
  ∧ (∀ authInfo : AuthInfo,
       is_true (responseMap !! "fault") = false →
       responseMap !! "version" = Some (GInt 1) →
       decodeAuthInfo (responseMap !! "auth") = Some authInfo →
       (AuthProviders authInfo = ∅ →
          (getLoginInformation (Some ctxt) (GetBody (Some responseMap)) w).1
          = Ret (Err "Login Service returned invalid data (No Providers)"))
       ∧ (AuthProviders authInfo ≠ ∅ →
          AuthProviders authInfo !! DefaultProviderId authInfo = None →
          (getLoginInformation (Some ctxt) (GetBody (Some responseMap)) w).1
          = Ret (Err "Login Service returned invalid data (No Default Provider)"))).
Proof.
  destruct (getLoginInformation_cases ctxt (GetBody (Some responseMap)) w)
    as (o & evs & -> & _ & _ & Ho).
  cbn [fst]. split.
  - intros Hfault. by rewrite Hfault in Ho.
  - intros authInfo Hfault Hv Hauth. rewrite Hfault, Hv, Hauth in Ho. cbn [is_int_one] in Ho.
    split.
    + intros Hempty. by rewrite bool_decide_eq_true_2 in Ho.
    + intros Hne Hp. by rewrite bool_decide_eq_false_2, Hp in Ho.
Qed.

Lemma getLoginInformation_missing_provider_witness :
  (getLoginInformation (Some Sample.dev)
     (GetBody (Some (<["fault" := GBool true]> Sample.document_unversioned))) Sample.world).1
  = Ret (Err "login service has returned a fault")
  ∧ (getLoginInformation (Some Sample.dev)
       (GetBody (Some Demo.document_other_default)) Sample.world).1
    = Ret (Err "Login Service returned invalid data (No Default Provider)").
Proof.
  split.
  - apply (proj1 (getLoginInformation_missing_provider Sample.dev
                    (<["fault" := GBool true]> Sample.document_unversioned) Sample.world)).
    vm_compute. reflexivity.
  - apply (proj2 (getLoginInformation_missing_provider Sample.dev
                    Demo.document_other_default Sample.world)
             (mkAuthInfo "" "p2" {[ "p1" := Sample.provider ]})).
    + vm_compute. reflexivity.
    + vm_compute. reflexivity.
    + vm_compute. reflexivity.
    + apply (bool_decide_unpack (({[ "p1" := Sample.provider ]} : gmap string AuthProvider) ≠ ∅)).
      vm_compute. exact I.
    + vm_compute. reflexivity.
Defined.

(* ------------------------------------------------------------------ *)
(** ** More on token polling *)

Lemma sleeps_app (a b : list Event) : sleeps (a ++ b) = sleeps a + sleeps b.
Proof. unfold sleeps. by rewrite filter_app, length_app. Qed.

Lemma tailEvents_counts (dc : DeviceCode) (le e : Z) :
  sleeps (tailEvents dc le e) = 1
  ∧ network_calls (tailEvents dc le e) = 0
  ∧ config_writes (tailEvents dc le e) = 0.
Proof. unfold tailEvents. by case_bool_decide. Qed.

Lemma continues_true (reply : PollReply) :
  continues reply = true →
  ∃ status statusText tr,
    pr_post reply = PostResponse status statusText (Ok tr)
    ∧ (status = StatusOK ∨ status = StatusForbidden)
    ∧ ErrorString tr ∉ ["expired_token"; "access_denied"; "invalid_grant"; ""].
Proof.
  unfold continues. destruct (pr_post reply) as [why | status st [tr | why]]; try done.
  intros [Hs Hc]%andb_true_iff. exists status, st, tr. split; [done|]. split.
  - apply orb_true_iff in Hs as [Hs | Hs]; apply bool_decide_eq_true in Hs; auto.
  - apply negb_true_iff, bool_decide_eq_false in Hc. done.
Qed.

(** A pass on an answer that continues: the request, then the tail, with
    the device code either as it was or with its interval doubled. *)
Lemma pollIteration_continues (ap : AuthProvider) (dc : DeviceCode) (le : Z)
    (reply : PollReply) :
  continues reply = true →
  ∃ dc' : DeviceCode,
    (∀ w, pollIteration ap dc le reply w
          = (Ret (Continue dc' (pr_elapsed reply)),
             logged (tokenRequest ap dc :: tailEvents dc' le (pr_elapsed reply)) w))
    ∧ tokenRequest ap dc' = tokenRequest ap dc.
Proof.
  intros (status & st & tr & Hpost & Hstatus & Hcode)%continues_true.
  assert (∀ dc' w, pollTail dc' le (pr_elapsed reply) (logged [tokenRequest ap dc] w)
                   = (Ret (Continue dc' (pr_elapsed reply)),
                      logged (tokenRequest ap dc :: tailEvents dc' le (pr_elapsed reply)) w))
    as Htail.
  { intros dc' w. by rewrite pollTail_run, logged_logged. }
  destruct (decide (ErrorString tr = "slow_down")) as [Hslow|Hslow].
  - exists (set_Interval (Int64.mul (Interval dc) 2) dc). split; [|done].
    intros w. rewrite (pollIteration_decoded _ _ _ _ _ _ _ _ Hpost Hstatus), Hslow. cbv zeta.
    rewrite bool_decide_eq_false_2 by done. rewrite bool_decide_eq_true_2 by done.
    apply Htail.
  - exists dc. split; [|done].
    intros w. rewrite (pollIteration_decoded _ _ _ _ _ _ _ _ Hpost Hstatus). cbv zeta.
    destruct (decide (ErrorString tr = "authorization_pending")) as [Hp|Hp].
    { rewrite bool_decide_eq_true_2 by done. apply Htail. }
    rewrite (bool_decide_eq_false_2 _ Hp), (bool_decide_eq_false_2 _ Hslow).
    rewrite !bool_decide_eq_false_2
      by (intros Hc; apply Hcode; rewrite Hc; repeat constructor).
    apply Htail.
Qed.

(** A pass on any other answer returns, and what it returns depends on
    the answer alone. *)
Lemma pollIteration_final (ap : AuthProvider) (reply : PollReply) :
  continues reply = false →
  ∃ res : Res deviceTokenResponse,
    ∀ dc le w, pollIteration ap dc le reply w
               = (Ret (Return res), logged [tokenRequest ap dc] w).
Proof.
  unfold continues, pollIteration, cmd_bind. setoid_rewrite emit_logged.
  destruct (pr_post reply) as [why | status st [tr | why]]; intros Hc.
  - by eexists.
  - destruct (bool_decide (status ≠ StatusOK) && bool_decide (status ≠ StatusForbidden))
      eqn:Hstatus; [by eexists|].
    assert (bool_decide (status = StatusOK) || bool_decide (status = StatusForbidden) = true)
      as Hs.
    { apply andb_false_iff in Hstatus as [H | H]; apply bool_decide_eq_false in H;
        apply dec_stable in H; subst; done. }
    rewrite Hs in Hc. cbn [andb] in Hc.
    apply negb_false_iff, bool_decide_eq_true in Hc.
    repeat (apply elem_of_cons in Hc as [Hc | Hc];
            [rewrite Hc; by eexists|]).
    by apply elem_of_nil in Hc.
  - destruct (bool_decide (status ≠ StatusOK) && bool_decide (status ≠ StatusForbidden));
      by eexists.
Qed.

Lemma pollLoop_continues (ap : AuthProvider) (cont : list PollReply) :
  Forall (λ r, continues r = true) cont →
  ∀ (dc : DeviceCode) (le : Z),
  ∃ (dc' : DeviceCode) (le' : Z) (evs : list Event),
    (∀ rest w, pollLoop ap dc le (cont ++ rest) w = pollLoop ap dc' le' rest (logged evs w))
    ∧ tokenRequest ap dc' = tokenRequest ap dc
    ∧ network_calls evs = length cont
    ∧ sleeps evs = length cont
    ∧ config_writes evs = 0
    ∧ Forall (λ e, is_network e = true → e = tokenRequest ap dc) evs.
Proof.
  induction 1 as [|r cont Hr _ IH]; intros dc le.
  - exists dc, le, []. split; [|by split_and!]. intros rest w. by rewrite logged_nil.
  - destruct (pollIteration_continues ap dc le r Hr) as (dc1 & Hstep & Hreq).
    destruct (IH dc1 (pr_elapsed r)) as (dc' & le' & evs & Hloop & Hreq' & Hn & Hs & Hw & Hall).
    destruct (tailEvents_counts dc1 le (pr_elapsed r)) as (Ts & Tn & Tw).
    exists dc', le', ((tokenRequest ap dc :: tailEvents dc1 le (pr_elapsed r)) ++ evs).
    split_and!.
    + intros rest w. cbn [app pollLoop]. unfold cmd_bind.
      by rewrite Hstep, Hloop, logged_logged.
    + congruence.
    + rewrite network_calls_app, Hn.
      change (network_calls (tokenRequest ap dc :: ?l)) with (S (network_calls l)).
      rewrite Tn. cbn [length]. lia.
    + rewrite sleeps_app, Hs.
      change (sleeps (tokenRequest ap dc :: ?l)) with (sleeps l).
      rewrite Ts. cbn [length]. lia.
    + rewrite config_writes_app, Hw.
      change (config_writes (tokenRequest ap dc :: ?l)) with (config_writes l).
      rewrite Tw. lia.
    + apply Forall_app. split.
      * apply Forall_cons. split; [done|].
        unfold tailEvents. case_bool_decide; repeat constructor; discriminate.
      * rewrite <- Hreq. done.
Qed.

(** X22. The poll loop stops at the first answer that does not continue,
    and its result depends on that answer alone: not on the device code,
    the elapsed time, the world, or the answers that would follow.  Up to
    there it has sent one request per answer and slept once per answer
    that continued; the configuration file is not touched. *)
Theorem pollLoop_stops_at_first_final_answer
    (ap : AuthProvider) (cont : list PollReply) (final : PollReply) :
  Forall (λ r, continues r = true) cont →
  continues final = false →
  ∃ res : Res deviceTokenResponse,
    ∀ (dc : DeviceCode) (le : Z) (rest : list PollReply) (w : World),
      let run := pollLoop ap dc le (cont ++ final :: rest) w in
      run.1 = Ret res
      ∧ network_calls (trace run.2) = network_calls (trace w) + length cont + 1
      ∧ sleeps (trace run.2) = sleeps (trace w) + length cont
      ∧ file run.2 = file w.
Proof.
  intros Hcont Hfinal.
  destruct (pollIteration_final ap final Hfinal) as [res Hres].
  exists res. intros dc le rest w.
  destruct (pollLoop_continues ap cont Hcont dc le)
    as (dc' & le' & evs & Hloop & _ & Hn & Hs & _ & _).
  cbv zeta. rewrite Hloop. cbn [pollLoop]. unfold cmd_bind. rewrite Hres.
  unfold cmd_ret. cbn [fst snd logged trace file]. split_and!; try done.
  - rewrite !network_calls_app, Hn. change (network_calls [tokenRequest ap dc']) with 1. lia.
  - rewrite !sleeps_app, Hs. change (sleeps [tokenRequest ap dc']) with 0. lia.
Qed.

(** X23. The poll loop has no bound of its own: after the given answers
    it is still polling exactly when every one of them continues
    (decoded, status 200 or 403, an error code other than
    [expired_token], [access_denied], [invalid_grant] and the empty
    one).  Neither the [expires_in] of the device code nor the elapsed
    time ends it. *)
Theorem pollLoop_Running_iff
    (ap : AuthProvider) (replies : list PollReply) (dc : DeviceCode) (le : Z) (w : World) :
  (pollLoop ap dc le replies w).1 = Running
  ↔ Forall (λ r, continues r = true) replies.
Proof.
  split.
  - revert dc le w. induction replies as [|r replies IH]; intros dc le w Hrun; [done|].
    destruct (continues r) eqn:Hr.
    + constructor; [done|].
      destruct (pollIteration_continues ap dc le r Hr) as (dc1 & Hstep & _).
      cbn [pollLoop] in Hrun. unfold cmd_bind in Hrun. rewrite Hstep in Hrun.
      by eapply IH.
    + destruct (pollIteration_final ap r Hr) as [res Hres].
      cbn [pollLoop] in Hrun. unfold cmd_bind in Hrun. by rewrite Hres in Hrun.
  - intros Hall.
    destruct (pollLoop_continues ap replies Hall dc le) as (dc' & le' & evs & Hloop & _).
    specialize (Hloop [] w). rewrite app_nil_r in Hloop. by rewrite Hloop.
Qed.

(** X24. Whatever the answers, all the loop does to the world is log
    events; every request it sends is the token request for the device
    code it was started with (a doubled interval does not change the
    request), and it never writes the configuration. *)
Theorem pollLoop_repeats_one_request
    (ap : AuthProvider) (replies : list PollReply) (dc : DeviceCode) (le : Z) (w : World) :
  ∃ evs : list Event,
    (pollLoop ap dc le replies w).2 = logged evs w
    ∧ Forall (λ e, is_network e = true → e = tokenRequest ap dc) evs
    ∧ config_writes evs = 0.
Proof.
  revert dc le w. induction replies as [|r replies IH]; intros dc le w.
  - exists []. by rewrite logged_nil.
  - destruct (continues r) eqn:Hr.
    + destruct (pollIteration_continues ap dc le r Hr) as (dc1 & Hstep & Hreq).
      destruct (IH dc1 (pr_elapsed r)
                  (logged (tokenRequest ap dc :: tailEvents dc1 le (pr_elapsed r)) w))
        as (evs & Hrun & Hall & Hw).
      destruct (tailEvents_counts dc1 le (pr_elapsed r)) as (_ & _ & Tw).
      exists ((tokenRequest ap dc :: tailEvents dc1 le (pr_elapsed r)) ++ evs). split_and!.
      * cbn [pollLoop]. unfold cmd_bind. by rewrite Hstep, Hrun, logged_logged.
      * apply Forall_app. split; [|by rewrite <- Hreq].
        apply Forall_cons. split; [done|].
        unfold tailEvents. case_bool_decide; repeat constructor; discriminate.
      * rewrite config_writes_app, Hw.
        change (config_writes (tokenRequest ap dc :: ?l)) with (config_writes l).
        rewrite Tw. lia.
    + destruct (pollIteration_final ap r Hr) as [res Hres].
      exists [tokenRequest ap dc]. split_and!; [|by repeat constructor|done].
      cbn [pollLoop]. unfold cmd_bind. by rewrite Hres.
Qed.

Lemma pollIteration_slow_down (ap : AuthProvider) (dc : DeviceCode) (le : Z)
    (reply : PollReply) (w : World) :
  answersWith "slow_down" reply →
  let dc' := set_Interval (Int64.mul (Interval dc) 2) dc in
  pollIteration ap dc le reply w
  = (Ret (Continue dc' (pr_elapsed reply)),
     logged (tokenRequest ap dc :: tailEvents dc' le (pr_elapsed reply)) w).
Proof.
  intros (status & st & tr & Hpost & Hstatus & Hcode) dc'.
  rewrite (pollIteration_decoded _ _ _ _ _ _ _ _ Hpost Hstatus), Hcode. cbv zeta.
  rewrite bool_decide_eq_false_2 by done. rewrite bool_decide_eq_true_2 by done.
  by rewrite pollTail_run, logged_logged.
Qed.

(** X25. Back-off: [n] answers [slow_down] in a row leave the loop
    polling with [2^n] times the interval, as long as that fits an int64,
    and with the rest of the device code as it was. *)
Theorem pollLoop_backoff_doubles (ap : AuthProvider) (slow : list PollReply) :
  Forall (answersWith "slow_down") slow →
  ∀ (dc : DeviceCode) (le : Z),
    Int64.in_range (2 ^ Z.of_nat (length slow) * Interval dc) →
    ∃ (le' : Z) (evs : list Event),
      ∀ (rest : list PollReply) (w : World),
        pollLoop ap dc le (slow ++ rest) w
        = pollLoop ap (set_Interval (2 ^ Z.of_nat (length slow) * Interval dc) dc) le' rest
            (logged evs w).
Proof.
  induction 1 as [|r slow Hr _ IH]; intros dc le Hrange.
  - exists le, []. intros rest w. rewrite logged_nil. cbn [length app].
    replace (2 ^ Z.of_nat 0 * Interval dc)%Z with (Interval dc) by lia. by destruct dc.
  - assert (0 < 2 ^ Z.of_nat (length slow))%Z as Hpos by (apply Z.pow_pos_nonneg; lia).
    assert (2 ^ Z.of_nat (length (r :: slow)) = 2 * 2 ^ Z.of_nat (length slow))%Z as Hpow.
    { cbn [length]. rewrite Nat2Z.inj_succ, Z.pow_succ_r by lia. done. }
    rewrite Hpow in *.
    assert (Int64.mul (Interval dc) 2 = 2 * Interval dc)%Z as Hdouble.
    { apply double_exact. unfold doubling_representable.
      unfold Int64.in_range, Int64.min_int, Int64.max_int in Hrange. nia. }
    destruct (IH (set_Interval (2 * Interval dc) dc) (pr_elapsed r)) as (le' & evs & Hloop).
    { cbn [Interval set_Interval].
      by replace (2 ^ Z.of_nat (length slow) * (2 * Interval dc))%Z
        with (2 * 2 ^ Z.of_nat (length slow) * Interval dc)%Z by lia. }
    eexists le', _. intros rest w. cbn [app pollLoop]. unfold cmd_bind.
    rewrite (pollIteration_slow_down _ _ _ _ _ Hr). cbv zeta. rewrite Hdouble, Hloop.
    rewrite logged_logged. cbn [Interval set_Interval].
    replace (2 ^ Z.of_nat (length slow) * (2 * Interval dc))%Z
      with (2 * 2 ^ Z.of_nat (length slow) * Interval dc)%Z by lia.
    reflexivity.
Qed.

Lemma pollLoop_backoff_doubles_witness :
  ∃ (le' : Z) (evs : list Event),
    ∀ (rest : list PollReply) (w : World),
      pollLoop (deviceFlow Sample.provider) (Sample.deviceCode 5%Z) 0%Z
        ([Sample.answer "slow_down" 5%Z; Sample.answer "slow_down" 15%Z;
          Sample.answer "slow_down" 35%Z] ++ rest) w
      = pollLoop (deviceFlow Sample.provider)
          (set_Interval (2 ^ Z.of_nat 3 * 5) (Sample.deviceCode 5%Z)) le' rest (logged evs w).
Proof.
  apply (pollLoop_backoff_doubles (deviceFlow Sample.provider)
           [Sample.answer "slow_down" 5%Z; Sample.answer "slow_down" 15%Z;
            Sample.answer "slow_down" 35%Z]).
  - repeat constructor;
      exists StatusForbidden, "Forbidden", (Sample.failure "slow_down");
      (split; [reflexivity|]); (split; [by right | reflexivity]).
  - vm_compute. split; discriminate.
Defined.

Lemma pollLoop_stops_at_first_final_answer_witness :
  ∃ res : Res deviceTokenResponse,
    ∀ (dc : DeviceCode) (le : Z) (rest : list PollReply) (w : World),
      let run := pollLoop (deviceFlow Sample.provider) dc le
                   ([Sample.answer "authorization_pending" 5%Z;
                     Sample.answer "slow_down" 10%Z;
                     Sample.answer "temporarily_unavailable" 20%Z]
                    ++ Sample.answer "access_denied" 30%Z :: rest) w in
      run.1 = Ret res
      ∧ network_calls (trace run.2) = network_calls (trace w) + 3 + 1
      ∧ sleeps (trace run.2) = sleeps (trace w) + 3
      ∧ file run.2 = file w.
Proof.
  apply (pollLoop_stops_at_first_final_answer (deviceFlow Sample.provider)
           [Sample.answer "authorization_pending" 5%Z;
            Sample.answer "slow_down" 10%Z;
            Sample.answer "temporarily_unavailable" 20%Z]
           (Sample.answer "access_denied" 30%Z)).
  - repeat constructor.
  - reflexivity.
Defined.

(* ------------------------------------------------------------------ *)
(** ** More on the refresh path *)

Lemma GetActiveContext_world (contextName : string) (w : World) :
  (GetActiveContext contextName w).2 = w.
Proof.
  unfold GetActiveContext.
  destruct (configRead (file w)) as [cfg|] eqn:Hread.
  - rewrite (GetContext_read _ _ _ _ Hread). cbv zeta.
    case_bool_decide; [done|]. by destruct (list_find _ _) as [[i c]|].
  - by destruct (GetContext_unread contextName true w Hread) as [msg ->].
Qed.

Lemma network_calls_cons (e : Event) (l : list Event) :
  network_calls (e :: l) = (if is_network e then 1 else 0) + network_calls l.
Proof. unfold network_calls. cbn [filter list_filter]. by destruct (is_network e). Qed.

Lemma config_writes_cons (e : Event) (l : list Event) :
  config_writes (e :: l) = (if is_write e then 1 else 0) + config_writes l.
Proof. unfold config_writes. cbn [filter list_filter]. by destruct (is_write e). Qed.

(** Counts the events of a world that is given as [logged ... w]. *)
Ltac count_events :=
  unfold cmd_ret, CheckErr, panic, running;
  cbn [fst snd]; rewrite ?logged_logged; unfold logged, stored; cbn [trace file];
  rewrite ?network_calls_app, ?config_writes_app, ?network_calls_cons, ?config_writes_cons;
  cbn [is_network is_write network_calls config_writes filter list_filter length];
  try lia.

Ltac nothing_written :=
  solve [split; [count_events | left; split; [reflexivity | count_events]]].

(** The effects of a run of [refreshAccessToken], whatever the world
    answers: at most three requests; and either nothing is written, or
    the token endpoint has answered with tokens and an empty error code,
    the new token is returned, and one write is logged. *)
Lemma refreshAccessToken_effects (contextName : string) (env : RefreshEnv) (w : World) :
  let run := refreshAccessToken contextName env w in
  network_calls (trace run.2) ≤ network_calls (trace w) + 3
  ∧ ((file run.2 = file w ∧ config_writes (trace run.2) = config_writes (trace w))
     ∨ (∃ status st tr t,
          re_token env = PostResponse status st (Ok tr)
          ∧ ErrorString tr = "" ∧ Token tr = Some t
          ∧ run.1 = Ret (tk_AccessToken t, None)
          ∧ config_writes (trace run.2) = config_writes (trace w) + 1)).
Proof.
  cbv zeta. remember (refreshAccessToken contextName env w) as run eqn:Hrun.
  unfold refreshAccessToken, cmd_bind at 1 in Hrun.
  pose proof (GetActiveContext_world contextName w) as Hw.
  destruct (GetActiveContext contextName w) as [[ctxt| | |] w0] eqn:Hctx;
    cbn [snd] in Hw; subst w0; [| subst run; nothing_written ..].
  destruct (After _ _); [| subst run; nothing_written].
  destruct (bool_decide (RefreshToken ctxt = "")); [subst run; nothing_written|].
  unfold cmd_bind at 1 in Hrun.
  destruct (getLoginInformation_cases ctxt (re_discovery env) w)
    as (o & devs & Hdisc & Hn & Hwr & _).
  rewrite Hdisc in Hrun.
  destruct o as [[p|e]| | |]; [| subst run; unfold CheckErr; nothing_written ..].
  cbn [TokenURL ClientID JwksURL grantType set_grantType] in Hrun.
  destruct (bool_decide (TokenURL p ≠ "") && bool_decide (ClientID p ≠ ""));
    [| subst run; unfold cmd_ret; nothing_written].
  unfold cmd_bind at 1 in Hrun. rewrite emit_logged in Hrun.
  destruct (re_token env) as [why | status st [tr | why]] eqn:Htok;
    [subst run; unfold cmd_ret; nothing_written
    | | subst run; unfold cmd_ret; nothing_written].
  cbv zeta in Hrun.
  destruct (bool_decide (ErrorString tr = "authorization_pending"));
    [subst run; unfold cmd_ret; nothing_written|].
  destruct (bool_decide (ErrorString tr = "expired_token"));
    [subst run; unfold cmd_ret; nothing_written|].
  destruct (bool_decide (ErrorString tr = "access_denied"));
    [subst run; unfold cmd_ret; nothing_written|].
  destruct (bool_decide (ErrorString tr = "invalid_grant"));
    [subst run; unfold cmd_ret; nothing_written|].
  destruct (bool_decide (ErrorString tr = "")) eqn:Hcode;
    [| subst run; unfold cmd_ret; nothing_written].
  apply bool_decide_eq_true in Hcode.
  unfold cmd_bind at 1, field_of_Token in Hrun.
  destruct (Token tr) as [t|] eqn:Htoken; [| subst run; unfold panic; nothing_written].
  unfold cmd_ret at 1, cmd_bind at 1 in Hrun. rewrite ParseIDToken_run in Hrun.
  unfold cmd_bind at 1 in Hrun. rewrite emit_logged in Hrun.
  unfold cmd_bind at 1 in Hrun.
  destruct (GetActiveContext_Ret _ _ _ _ Hctx) as (_ & cfg & i & Hfile & Hfind).
  erewrite SetContext_found in Hrun;
    [| exact Hfile | rewrite Name_claimsApplied; exact Hfind].
  cbv zeta in Hrun. unfold cmd_ret in Hrun. subst run. split; [count_events|].
  right. exists status, st, tr, t. split_and!; try done.
  - cbn [fst]. by rewrite AccessToken_claimsApplied.
  - count_events.
Qed.

(** X26. [refreshAccessToken] writes the configuration at most once, and
    only when the token endpoint answered with a decoded body that has an
    empty error code and tokens; the call then returns the new access
    token without error.  In every other case (also when the process
    ends or crashes) the file is as it was and nothing was written.  No
    run sends more than three requests (discovery, token endpoint, key
    set). *)
Theorem refreshAccessToken_writes_only_new_tokens
    (contextName : string) (env : RefreshEnv) (w : World) :
  let run := refreshAccessToken contextName env w in
  ((file run.2 = file w ∧ config_writes (trace run.2) = config_writes (trace w))
   ∨ (∃ status st tr t,
        re_token env = PostResponse status st (Ok tr)
        ∧ ErrorString tr = "" ∧ Token tr = Some t
        ∧ run.1 = Ret (tk_AccessToken t, None)
        ∧ config_writes (trace run.2) = config_writes (trace w) + 1))
  ∧ network_calls (trace run.2) ≤ network_calls (trace w) + 3.
Proof.
  intros run. destruct (refreshAccessToken_effects contextName env w) as [Hnet Hcases].
  by split.
Qed.

(** X27. An expired access token without a stored refresh token: the
    call returns the [invalid credentials] error at once; nothing is
    requested, printed or written. *)
Theorem refreshAccessToken_without_refresh_token
    (contextName : string) (env : RefreshEnv) (w : World) (ctxt : Context) :
  GetActiveContext contextName w = (Ret ctxt, w) →
  (AccessTokenExpiry ctxt < re_now env)%Z →
  RefreshToken ctxt = "" →
  refreshAccessToken contextName env w
  = (Ret ("", Some "Could not login - invalid credentials. Please use the login command to refresh your credentials"), w).
Proof.
  intros Hctx Hexp Hrt. unfold refreshAccessToken, cmd_bind at 1. rewrite Hctx.
  unfold After. rewrite bool_decide_eq_true_2 by lia.
  by rewrite bool_decide_eq_true_2.
Qed.

Lemma GetContext_after_update (name : string) (d : bool) (w w' : World)
    (cfg : Config) (i : nat) (ctxt ctxt' : Context) :
  GetContext name d w = (Ret ctxt, w) →
  file w = Stored cfg →
  list_find (λ c, Name c = Name ctxt) (Contexts cfg) = Some (i, ctxt) →
  Name ctxt' = Name ctxt →
  file w' = Stored (set_Contexts (<[i := ctxt']> (Contexts cfg)) cfg) →
  GetContext name d w' = (Ret ctxt', w').
Proof.
  intros Hget Hfile Hfind Hname Hfile'.
  rewrite (GetContext_read _ _ _ cfg) in Hget by by rewrite Hfile.
  rewrite (GetContext_read _ _ _ (set_Contexts (<[i := ctxt']> (Contexts cfg)) cfg))
    by by rewrite Hfile'.
  cbv zeta in *.
  change (lookupName name d (set_Contexts (<[i:=ctxt']> (Contexts cfg)) cfg))
    with (lookupName name d cfg).
  case_bool_decide; [done|].
  destruct (list_find _ (Contexts cfg)) as [[j c]|] eqn:Hfind'; [|done].
  injection Hget as ->.
  pose proof Hfind' as (Hj & Hn & Hfirst)%list_find_Some.
  rewrite <- Hn in Hfind'. rewrite Hfind in Hfind'. injection Hfind' as <-.
  cbn [Contexts set_Contexts].
  assert (list_find (λ c, Name c = lookupName name d cfg) (<[i:=ctxt']> (Contexts cfg))
          = Some (i, ctxt')) as ->; [|done].
  apply list_find_Some. split_and!.
  - apply list_lookup_insert_eq. by eapply lookup_lt_Some.
  - congruence.
  - intros k y Hk Hlt. rewrite list_lookup_insert_ne in Hk by lia. by eapply Hfirst.
Qed.

Section RefreshSuccess.

Variables (contextName : string) (env : RefreshEnv) (w w1 : World).
Variables (ctxt : Context) (p : AuthProvider).
Variables (status : Z) (statusText : string).
Variables (tokenResponse : deviceTokenResponse) (t : oauth2Token).

Hypothesis Hctx : GetActiveContext contextName w = (Ret ctxt, w).
Hypothesis Hexp : (AccessTokenExpiry ctxt < re_now env)%Z.
Hypothesis Hrt : RefreshToken ctxt ≠ "".
Hypothesis Hdisc :
  getLoginInformation (Some ctxt) (re_discovery env) w = (Ret (Ok p), w1).
Hypothesis Hurl : TokenURL p ≠ "".
Hypothesis Hcid : ClientID p ≠ "".
Hypothesis Htok : re_token env = PostResponse status statusText (Ok tokenResponse).
Hypothesis Hcode : ErrorString tokenResponse = "".
Hypothesis Htoken : Token tokenResponse = Some t.

(** The file after a successful refresh. *)
Lemma refresh_success_frame :
  ∃ (cfg : Config) (i : nat) (cfg' : Config) (c : Context),
    file w = Stored cfg
    ∧ list_find (λ x, Name x = Name ctxt) (Contexts cfg) = Some (i, ctxt)
    ∧ file (refreshAccessToken contextName env w).2 = Stored cfg'
    ∧ cfg' = set_Contexts (<[i := c]> (Contexts cfg)) cfg
    ∧ c = claimsApplied (re_idtoken env)
            (set_AccessTokenExpiry
               (Add (re_now_update env) (expiryDuration (ExpiresIn tokenResponse)))
               (set_AccessToken (tk_AccessToken t) ctxt)).
Proof.
  destruct (refresh_success_run _ _ _ _ _ _ Hctx Hexp Hrt Hdisc _ _ _ Hurl Hcid Htok
              t Hcode Htoken) as (cfg & i & Hfile & Hfind & Hrun).
  cbv zeta in Hrun. rewrite Hrun. by eexists cfg, i, _, _.
Qed.

End RefreshSuccess.

(** X28. What a successful refresh keeps: the stored refresh token stays
    (a refresh token in the response is not taken over), as do the API
    version, name, URL, provider id and host of the context; every other
    context, the number of contexts, the active context and the version
    of the configuration are unchanged. *)
Theorem refreshAccessToken_keeps_refresh_token
    (contextName : string) (env : RefreshEnv) (w w1 : World) (ctxt : Context)
    (p : AuthProvider) (status : Z) (statusText : string)
    (tokenResponse : deviceTokenResponse) (t : oauth2Token) :
  GetActiveContext contextName w = (Ret ctxt, w) →
  (AccessTokenExpiry ctxt < re_now env)%Z →
  RefreshToken ctxt ≠ "" →
  getLoginInformation (Some ctxt) (re_discovery env) w = (Ret (Ok p), w1) →
  TokenURL p ≠ "" →
  ClientID p ≠ "" →
  re_token env = PostResponse status statusText (Ok tokenResponse) →
  ErrorString tokenResponse = "" →
  Token tokenResponse = Some t →
  ∃ (cfg : Config) (i : nat) (cfg' : Config) (c : Context),
    file w = Stored cfg
    ∧ file (refreshAccessToken contextName env w).2 = Stored cfg'
    ∧ Contexts cfg !! i = Some ctxt
    ∧ Contexts cfg' !! i = Some c
    ∧ RefreshToken c = RefreshToken ctxt
    ∧ (ApiVersion c, Name c, URL c, ProviderID c, Host c)
      = (ApiVersion ctxt, Name ctxt, URL ctxt, ProviderID ctxt, Host ctxt)
    ∧ (∀ j, j ≠ i → Contexts cfg' !! j = Contexts cfg !! j)
    ∧ length (Contexts cfg') = length (Contexts cfg)
    ∧ ActiveContext cfg' = ActiveContext cfg
    ∧ Version cfg' = Version cfg.
Proof.
  intros Hctx Hexp Hrt Hdisc Hurl Hcid Htok Hcode Htoken.
  destruct (refresh_success_frame _ _ _ _ _ _ _ _ _ _ Hctx Hexp Hrt Hdisc Hurl Hcid Htok
              Hcode Htoken) as (cfg & i & cfg' & c & Hfile & Hfind & Hfile' & -> & ->).
  apply list_find_Some in Hfind as (Hi & _).
  eexists cfg, i, _, _. split; [done|]. split; [exact Hfile'|]. split; [done|].
  split; [cbn [Contexts set_Contexts]; apply list_lookup_insert_eq; by eapply lookup_lt_Some|].
  split_and!; try done.
  - by destruct (re_idtoken env) as [? | [[? []]|]].
  - by destruct (re_idtoken env) as [? | [[? []]|]].
  - intros j Hj. cbn [Contexts set_Contexts]. by apply list_lookup_insert_ne.
  - cbn [Contexts set_Contexts]. by rewrite length_insert.
Qed.

(** X29. A successful refresh is followed by the fast path: a further
    call no later than the persisted expiry (the time of the update plus
    [expires_in - 10] seconds, representable) returns the access token
    just obtained and leaves the world as it is, whatever the servers
    would answer. *)
Theorem refreshAccessToken_then_fast_path
    (contextName : string) (env env' : RefreshEnv) (w w1 : World) (ctxt : Context)
    (p : AuthProvider) (status : Z) (statusText : string)
    (tokenResponse : deviceTokenResponse) (t : oauth2Token) :
  GetActiveContext contextName w = (Ret ctxt, w) →
  (AccessTokenExpiry ctxt < re_now env)%Z →
  RefreshToken ctxt ≠ "" →
  getLoginInformation (Some ctxt) (re_discovery env) w = (Ret (Ok p), w1) →
  TokenURL p ≠ "" →
  ClientID p ≠ "" →
  re_token env = PostResponse status statusText (Ok tokenResponse) →
  ErrorString tokenResponse = "" →
  Token tokenResponse = Some t →
  expiry_representable (ExpiresIn tokenResponse) →
  (re_now env' ≤ re_now_update env + (ExpiresIn tokenResponse - 10) * Second)%Z →
  let w' := (refreshAccessToken contextName env w).2 in
  refreshAccessToken contextName env' w' = (Ret (tk_AccessToken t, None), w').
Proof.
  intros Hctx Hexp Hrt Hdisc Hurl Hcid Htok Hcode Htoken Hrange Hnow w'.
  destruct (refresh_success_frame _ _ _ _ _ _ _ _ _ _ Hctx Hexp Hrt Hdisc Hurl Hcid Htok
              Hcode Htoken) as (cfg & i & cfg' & c & Hfile & Hfind & Hfile' & Hcfg' & Hc).
  fold w' in Hfile'. subst cfg'.
  assert (GetActiveContext contextName w' = (Ret c, w')) as Hctx'.
  { unfold GetActiveContext in *.
    eapply (GetContext_after_update _ _ w w'); eauto.
    subst c. by rewrite Name_claimsApplied. }
  unfold refreshAccessToken, cmd_bind at 1. rewrite Hctx'.
  assert (AccessTokenExpiry c
          = (re_now_update env + (ExpiresIn tokenResponse - 10) * Second)%Z) as Hexpiry.
  { subst c. rewrite AccessTokenExpiry_claimsApplied.
    cbn [AccessTokenExpiry set_AccessTokenExpiry]. unfold Add.
    by rewrite expiryDuration_exact. }
  unfold After. rewrite bool_decide_eq_false_2 by lia.
  subst c. by rewrite AccessToken_claimsApplied.
Qed.

Lemma refreshAccessToken_without_refresh_token_witness :
  refreshAccessToken "" (Sample.refreshEnv 2000%Z (Sample.tokens 3600%Z)) Demo.loggedOut
  = (Ret ("", Some "Could not login - invalid credentials. Please use the login command to refresh your credentials"),
     Demo.loggedOut).
Proof.
  apply (refreshAccessToken_without_refresh_token ""
           (Sample.refreshEnv 2000%Z (Sample.tokens 3600%Z)) Demo.loggedOut
           (set_RefreshToken "" Sample.dev)).
  - vm_compute. reflexivity.
  - vm_compute. reflexivity.
  - reflexivity.
Defined.

Lemma refreshAccessToken_keeps_refresh_token_witness :
  ∃ (cfg : Config) (i : nat) (cfg' : Config) (c : Context),
    file Sample.world = Stored cfg
    ∧ file (refreshAccessToken "" (Sample.refreshEnv 2000%Z (Sample.tokens 3600%Z))
              Sample.world).2 = Stored cfg'
    ∧ Contexts cfg !! i = Some Sample.dev
    ∧ Contexts cfg' !! i = Some c
    ∧ RefreshToken c = RefreshToken Sample.dev
    ∧ (ApiVersion c, Name c, URL c, ProviderID c, Host c)
      = (ApiVersion Sample.dev, Name Sample.dev, URL Sample.dev, ProviderID Sample.dev,
         Host Sample.dev)
    ∧ (∀ j, j ≠ i → Contexts cfg' !! j = Contexts cfg !! j)
    ∧ length (Contexts cfg') = length (Contexts cfg)
    ∧ ActiveContext cfg' = ActiveContext cfg
    ∧ Version cfg' = Version cfg.
Proof.
  apply (refreshAccessToken_keeps_refresh_token ""
           (Sample.refreshEnv 2000%Z (Sample.tokens 3600%Z)) Sample.world
           (logged (discoveryEvents Sample.dev) Sample.world) Sample.dev Sample.provider
           StatusOK "OK" (Sample.tokens 3600%Z) (mkToken "AT1" "Bearer" "RT1")).
  - vm_compute. reflexivity.
  - vm_compute. reflexivity.
  - discriminate.
  - vm_compute. reflexivity.
  - discriminate.
  - discriminate.
  - reflexivity.
  - reflexivity.
  - reflexivity.
Defined.

Lemma refreshAccessToken_then_fast_path_witness :
  let w' := (refreshAccessToken "" (Sample.refreshEnv 2000%Z (Sample.tokens 3600%Z))
               Sample.world).2 in
  refreshAccessToken "" (Sample.refreshEnv 3000%Z (Sample.failure "invalid_grant")) w'
  = (Ret ("AT1", None), w').
Proof.
  apply (refreshAccessToken_then_fast_path ""
           (Sample.refreshEnv 2000%Z (Sample.tokens 3600%Z))
           (Sample.refreshEnv 3000%Z (Sample.failure "invalid_grant")) Sample.world
           (logged (discoveryEvents Sample.dev) Sample.world) Sample.dev Sample.provider
           StatusOK "OK" (Sample.tokens 3600%Z) (mkToken "AT1" "Bearer" "RT1")).
  - vm_compute. reflexivity.
  - vm_compute. reflexivity.
  - discriminate.
  - vm_compute. reflexivity.
  - discriminate.
  - discriminate.
  - reflexivity.
  - reflexivity.
  - reflexivity.
  - unfold expiry_representable. simpl. lia.
  - vm_compute. discriminate.
Defined.

(* ------------------------------------------------------------------ *)
(** ** More on the login command *)

Ltac login_aborted :=
  solve [right; split; [discriminate | split; [reflexivity | count_events]]].

(** X30. [login] is all or nothing: either it returns, and then it has
    written the configuration exactly once; or it does not return (the
    process ends, crashes, or is still polling when the answers run
    out), and then the configuration file is as it was and nothing was
    written. *)
Theorem login_all_or_nothing (contextName : string) (env : LoginEnv) (w : World) :
  let run := login contextName env w in
  (run.1 = Ret ()
   ∧ (∃ cfg : Config, file run.2 = Stored cfg)
   ∧ config_writes (trace run.2) = config_writes (trace w) + 1)
  ∨ (run.1 ≠ Ret ()
     ∧ file run.2 = file w
     ∧ config_writes (trace run.2) = config_writes (trace w)).
Proof.
  cbv zeta. remember (login contextName env w) as run eqn:Hrun.
  unfold login, cmd_bind at 1 in Hrun.
  pose proof (GetActiveContext_world contextName w) as Hw.
  destruct (GetActiveContext contextName w) as [[ctxt| | |] w0] eqn:Hctx;
    cbn [snd] in Hw; subst w0; [| subst run; login_aborted ..].
  unfold cmd_bind at 1 in Hrun.
  destruct (getLoginInformation_cases ctxt (le_discovery env) w)
    as (o & devs & Hdisc & _ & Hwr & _).
  rewrite Hdisc in Hrun.
  destruct o as [[p|e]| | |]; [| subst run; login_aborted ..].
  cbv zeta in Hrun. fold (deviceFlow p) in Hrun.
  unfold cmd_bind at 1, requestDeviceCode in Hrun.
  unfold cmd_bind at 1 in Hrun. rewrite emit_logged in Hrun.
  destruct (le_device env) as [why | status st [dc | why]];
    [subst run; login_aborted | |].
  2: { destruct (bool_decide (status ≠ StatusOK)); subst run; login_aborted. }
  destruct (bool_decide (status ≠ StatusOK)); [subst run; login_aborted|].
  unfold cmd_ret at 1 in Hrun. unfold cmd_bind at 1 in Hrun.
  destruct (le_qr env) as [qr|]; [| subst run; login_aborted].
  unfold cmd_ret at 1 in Hrun.
  do 7 (unfold cmd_bind at 1 in Hrun; rewrite emit_logged in Hrun).
  unfold cmd_bind at 1, waitForTokens in Hrun.
  destruct (pollLoop_logs (deviceFlow p) (le_polls env) dc 0%Z)
    as (o & pevs & Hpevs & Hloop).
  rewrite Hloop in Hrun.
  destruct o as [[tr|e]| | |]; [| subst run; login_aborted ..].
  unfold cmd_bind at 1 in Hrun. rewrite emit_logged in Hrun.
  unfold cmd_bind at 1 in Hrun. rewrite ParseIDToken_run in Hrun.
  destruct (idTokenError (le_idtoken env)); [subst run; login_aborted|].
  unfold cmd_bind at 1, field_of_Token in Hrun.
  destruct (Token tr) as [t|] eqn:Htoken; [| subst run; login_aborted].
  unfold cmd_ret at 1, cmd_bind at 1 in Hrun. unfold cmd_ret at 1 in Hrun.
  destruct (GetActiveContext_Ret _ _ _ _ Hctx) as (_ & cfg & i & Hfile & Hfind).
  erewrite SetContext_found in Hrun;
    [| exact Hfile
     | cbn [Name set_RefreshToken set_AccessTokenExpiry set_AccessToken];
       rewrite Name_claimsApplied; exact Hfind].
  cbv zeta in Hrun. subst run. left. split; [done|]. split; [by eexists|].
  count_events.
Qed.
